(** * Vision bridge: a shallow embedding of [.mcp/vision-bridge/server.py]

    The bridge resolves a caller-supplied path against a workspace root,
    normalises the image, builds one chat request for the backend and shapes
    the reply.  The operating system, the imaging library's decoder and
    encoder, the HTTP backend and the JSON decoder are external to the
    program: they appear as the fields of a [World].  Everything the program
    itself computes (path arithmetic, the order of the checks, the scaling
    arithmetic, the payload, the reply extraction, the fallback of the
    ui-spec tool) is defined here as executable functions.

    Three more programs of the repository follow the bridge: the scenario
    generator [scripts/generate_random_scenario.py], over any random
    generator that keeps the documented laws of [randint] and [sample]; the
    icon fixer [scripts/fix_spell_icons.py], over the directory listings and
    the documents it reads; and the launcher
    [.mcp/vision-bridge/launcher.py], over a machine that answers whether a
    path exists and how a command ends. *)

From stdpp Require Import gmap strings list fin_maps pretty.
From Stdlib Require Import ZArith Lia Ascii String Floats.SpecFloat.

Local Open Scope string_scope.
Local Open Scope Z_scope.

(** ** Python strings

    A [str] is modelled as a [string] whose characters are the code points
    0..255; [lower], [isspace] and [strip] follow [str.lower], [str.isspace]
    and [str.strip] on that range. *)
Module PyStr.

Definition code (c : ascii) : N := N_of_ascii c.

(** [str.isspace] on one character: TAB..CR, FS..US, SPACE, NEL, NBSP. *)
Definition isspace (c : ascii) : bool :=
  let n := code c in
  ((9 <=? n) && (n <=? 13) || (28 <=? n) && (n <=? 32)
   || (n =? 133) || (n =? 160))%N.

(** [str.lower] on one character: A..Z and the upper-case letters of the
    Latin-1 supplement (all of 0xC0..0xDE but the multiplication sign). *)
Definition lower_char (c : ascii) : ascii :=
  let n := code c in
  if ((65 <=? n) && (n <=? 90)
      || (192 <=? n) && (n <=? 222) && negb (n =? 215))%N
  then ascii_of_N (n + 32) else c.

Fixpoint lower (s : string) : string :=
  match s with
  | EmptyString => EmptyString
  | String c s' => String (lower_char c) (lower s')
  end.

Fixpoint lstrip (s : string) : string :=
  match s with
  | EmptyString => EmptyString
  | String c s' => if isspace c then lstrip s' else s
  end.

Fixpoint rstrip (s : string) : string :=
  match s with
  | EmptyString => EmptyString
  | String c s' =>
      match rstrip s' with
      | EmptyString => if isspace c then EmptyString else String c EmptyString
      | r => String c r
      end
  end.

(** [s.strip()] *)
Definition strip (s : string) : string := rstrip (lstrip s).


(** [s.split(sep)] for a one-character separator: never the empty list. *)
Fixpoint split (sep : ascii) (s : string) : list string :=
  match s with
  | EmptyString => [EmptyString]
  | String c s' =>
      if Ascii.eqb c sep then EmptyString :: split sep s'
      else match split sep s' with
           | seg :: rest => String c seg :: rest
           | [] => [String c EmptyString]
           end
  end.

(** [sep.join(parts)] *)
Fixpoint join (sep : string) (parts : list string) : string :=
  match parts with
  | [] => EmptyString
  | [p] => p
  | p :: rest => p +:+ sep +:+ join sep rest
  end.

(** [s[i:]] for [i = s.rfind(ch)], when [ch] occurs in [s]. *)
Fixpoint from_last (ch : ascii) (s : string) : option string :=
  match s with
  | EmptyString => None
  | String c s' =>
      match from_last ch s' with
      | Some t => Some t
      | None => if Ascii.eqb c ch then Some s else None
      end
  end.

Fixpoint mem (ch : ascii) (s : string) : bool :=
  match s with
  | EmptyString => false
  | String c s' => Ascii.eqb c ch || mem ch s'
  end.



Definition startswith_char (ch : ascii) (s : string) : bool :=
  match s with
  | String c _ => Ascii.eqb c ch
  | EmptyString => false
  end.

End PyStr.

(** ** Python exceptions raised or propagated by the bridge *)
Inductive exn :=
  | ValueError (msg : string)
  | FileNotFoundError (msg : string)
  | RuntimeError (msg : string)
  | OSError (msg : string)
  | UnidentifiedImageError (msg : string)
  | ZeroDivisionError (msg : string)
  | OverflowError (msg : string)
  | AttributeError (msg : string)
  | JSONDecodeError (msg : string)
  | ConnectionError (msg : string)
  | Timeout (msg : string)
  | HTTPError (status_code : Z) (body : string).

(** A computation that returns or raises. *)
Definition result (A : Type) : Type := exn + A.

Definition raise {A} (e : exn) : result A := inl e.

Global Instance result_ret : MRet result := fun A a => inr a.
Global Instance result_bind : MBind result := fun A B k m =>
  match m with
  | inl e => inl e
  | inr a => k a
  end.

(** ** [pathlib.PurePosixPath] *)
Module PurePath.

(** The root of a parsed path: none, [/], or the two-slash root that
    POSIX leaves implementation-defined and [pathlib] keeps apart. *)
Inductive anchor := NoRoot | Root1 | Root2.

Global Instance anchor_eq_dec : EqDecision anchor.
Proof. solve_decision. Defined.

Record Path := { root : anchor; parts : list string }.

Global Instance Path_eq_dec : EqDecision Path.
Proof. solve_decision. Defined.

(** [splitroot]: the root and the rest of one path string. *)
Definition splitroot (s : string) : anchor * string :=
  match s with
  | String "/" (String "/" (String "/" _)) => (Root1, s)
  | String "/" (String "/" r) => (Root2, r)
  | String "/" r => (Root1, r)
  | _ => (NoRoot, s)
  end.

Definition keep_part (x : string) : bool :=
  negb (String.eqb x "") && negb (String.eqb x ".").

(** [Path(s)]: empty and [.] segments are dropped, [..] is kept. *)
Definition of_string (s : string) : Path :=
  let '(r, rest) := splitroot s in
  {| root := r; parts := filter (fun x => Is_true (keep_part x)) (PyStr.split "/" rest) |}.

Definition root_str (r : anchor) : string :=
  match r with
  | NoRoot => ""
  | Root1 => "/"
  | Root2 => "//"
  end.

(** [str(p)] *)
Definition str (p : Path) : string :=
  match root p, parts p with
  | NoRoot, [] => "."
  | r, ps => root_str r +:+ PyStr.join "/" ps
  end.

Definition is_absolute (p : Path) : bool :=
  match root p with
  | NoRoot => false
  | _ => true
  end.

(** [p / q]: a rooted right operand replaces the left one. *)
Definition joinpath (p q : Path) : Path :=
  match root q with
  | NoRoot => {| root := root p; parts := (parts p ++ parts q)%list |}
  | _ => q
  end.

Fixpoint strip_prefix (pre l : list string) : option (list string) :=
  match pre, l with
  | [], _ => Some l
  | x :: pre', y :: l' => if String.eqb x y then strip_prefix pre' l' else None
  | _ :: _, [] => None
  end.

(** [p.relative_to(other)]: [None] stands for the [ValueError] that
    [pathlib] raises when [other] is not a prefix of [p]. *)
Definition relative_to (p other : Path) : option Path :=
  if decide (root p = root other) then
    match strip_prefix (parts other) (parts p) with
    | Some rest => Some {| root := NoRoot; parts := rest |}
    | None => None
    end
  else None.

(** [p.name] *)
Definition name (p : Path) : string := List.last (parts p) "".

(** [p.suffix]: [name[i:]] for [i = name.rfind('.')] when
    [0 < i < len(name) - 1], the empty string otherwise. *)
Definition suffix (p : Path) : string :=
  match name p with
  | EmptyString => ""
  | String _ tl =>
      match PyStr.from_last "." tl with
      | Some t => if String.eqb t "." then "" else t
      | None => ""
      end
  end.

(** "Equal to, or nested under": same root, and the components of the
    directory are a prefix of the components of the path. *)
Definition under (c r : Path) : Prop :=
  root c = root r /\ exists rest, parts c = (parts r ++ rest)%list.

(** What a component of a parsed path looks like. *)
Definition valid_part (x : string) : Prop :=
  x <> "" /\ PyStr.mem "/" x = false.

End PurePath.
Export PurePath(Path).

(** ** Python values: what [json] decodes to and what the tools return *)
#[warnings="-register-all"]
Inductive pyval :=
  | PNone
  | PBool (b : bool)
  | PInt (n : Z)
  | PFloat (x : spec_float)
  | PStr (s : string)
  | PList (l : list pyval)
  | PDict (d : gmap string pyval).

(** Truth value of an object, as [or] tests it. *)
Definition truthy (v : pyval) : bool :=
  match v with
  | PNone => false
  | PBool b => b
  | PInt n => negb (Z.eqb n 0)
  | PFloat (S754_zero _) => false
  | PFloat _ => true
  | PStr s => negb (String.eqb s "")
  | PList l => match l with [] => false | _ => true end
  | PDict d => match map_to_list d with [] => false | _ => true end
  end.

(** [a or b] *)
Definition py_or (a b : pyval) : pyval := if truthy a then a else b.

(** [d.get(k, default)]; only a dict has the method. *)
Definition py_get (d : pyval) (k : string) (dflt : pyval) : result pyval :=
  match d with
  | PDict m => mret (default dflt (m !! k))
  | _ => raise (AttributeError "object has no attribute 'get'")
  end.

(** [s.strip()]; only a str has the method. *)
Definition py_strip (v : pyval) : result string :=
  match v with
  | PStr s => mret (PyStr.strip s)
  | _ => raise (AttributeError "object has no attribute 'strip'")
  end.

(** ** Python numbers: [int / int], [int * float] and [int(float)]

    A [float] is an IEEE 754 binary64 number, [spec_float] with precision 53
    and maximal exponent 1024; the operations are the correctly rounded ones
    of [SpecFloat] (round to nearest, ties to even). *)
Module PyFloat.

Definition prec : Z := 53.
Definition emax : Z := 1024.

(** An integer as an exact (unnormalised) binary number. *)
Definition exact_of_int (n : Z) : spec_float :=
  match n with
  | Z0 => S754_zero false
  | Zpos p => S754_finite false p 0
  | Zneg p => S754_finite true p 0
  end.

(** [a / b] on two ints: the quotient of the two integers, rounded once;
    a zero divisor raises. *)
Definition truediv (a b : Z) : result spec_float :=
  if Z.eqb b 0 then raise (ZeroDivisionError "division by zero")
  else match SFdiv prec emax (exact_of_int a) (exact_of_int b) with
       | S754_infinity _ =>
           raise (OverflowError "integer division result too large for a float")
       | q => mret q
       end.

(** [float(n)] *)
Definition of_int (n : Z) : result spec_float :=
  match binary_normalize prec emax n 0 false with
  | S754_infinity _ => raise (OverflowError "int too large to convert to float")
  | x => mret x
  end.

(** [n * x] for an int [n] and a float [x]: [n] is converted first. *)
Definition mul_int (n : Z) (x : spec_float) : result spec_float :=
  y ← of_int n; mret (SFmul prec emax y x).

(** [int(x)]: truncation towards zero. *)
Definition to_int (x : spec_float) : result Z :=
  match x with
  | S754_zero _ => mret 0
  | S754_finite s m e =>
      mret (cond_Zopp s (if 0 <=? e then Z.pos m * 2 ^ e else Z.pos m / 2 ^ (- e)))
  | S754_infinity _ => raise (OverflowError "cannot convert float infinity to integer")
  | S754_nan => raise (ValueError "cannot convert float NaN to integer")
  end.

End PyFloat.

(** ** The imaging library *)
Record Image := { size : Z * Z; data : list N }.

(** ** HTTP *)
Record Request := { url : string; json : pyval; timeout : Z }.
Record Response := { status_code : Z; text : string }.

(** What [os.stat] finds at a path. *)
Inductive file_kind := RegularFile | Directory | OtherKind.

(** ** The world outside the program, and the module-level configuration

    The five configuration values are read once from the environment when the
    module is loaded; [WORKSPACE_ROOT] is resolved at that time. *)
Class World := {
  (** [os.path.realpath(s)], with the [RuntimeError] of a symlink loop *)
  os_realpath : string -> result string;
  (** [os.stat(s)]: [None] when nothing is there *)
  os_stat : string -> result (option file_kind);
  (** [Image.open(s).convert("RGB")] *)
  Image_open_RGB : string -> result Image;
  (** the pixels of a resized image *)
  resample : Image -> Z * Z -> list N;
  (** [img.save(out, format="PNG", optimize=True)] then
      [base64.b64encode(out.getvalue()).decode("ascii")] *)
  png_b64 : Image -> string;
  (** the backend's answer to one POST *)
  backend : Request -> result Response;
  (** [json.loads(s)] *)
  json_loads : string -> result pyval;
  WORKSPACE_ROOT : Path;
  OLLAMA_HOST : string;
  OLLAMA_MODEL : string;
  MAX_IMAGE_EDGE : Z;
  TIMEOUT_S : Z
}.

(** ** Effects of a tool call: the requests sent so far are threaded through *)
Definition M (A : Type) : Type := list Request -> result A * list Request.

Global Instance M_ret : MRet M := fun A a log => (inr a, log).
Global Instance M_bind : MBind M := fun A B k m log =>
  match m log with
  | (inl e, log') => (inl e, log')
  | (inr a, log') => k a log'
  end.

(** A computation without effects inside a tool call. *)
Definition lift {A} (r : result A) : M A := fun log => (r, log).

(** ** The program *)
Section Server.
Context {W : World}.
Import PurePath.

(** [Path.resolve()] *)
Definition resolve (p : Path) : result Path :=
  s ← os_realpath (str p); mret (of_string s).

(** [Path.exists()] *)
Definition exists_ (p : Path) : result bool :=
  st ← os_stat (str p); mret (match st with Some _ => true | None => false end).

Definition allowed_suffixes : list string :=
  [".png"; ".jpg"; ".jpeg"; ".webp"; ".bmp"].

Definition _resolve_workspace_path (p : string) : result Path :=
  let raw := of_string p in
  candidate ← (if negb (is_absolute raw) then resolve (joinpath WORKSPACE_ROOT raw)
               else resolve raw);
  match relative_to candidate WORKSPACE_ROOT with
  | None =>
      raise (ValueError ("Path must be within workspace root: " +:+ str WORKSPACE_ROOT))
  | Some _ =>
      e ← exists_ candidate;
      if negb e then raise (FileNotFoundError ("File not found: " +:+ str candidate))
      else if negb (bool_decide (PyStr.lower (suffix candidate) ∈ allowed_suffixes))
      then raise (ValueError ("Unsupported image type: " +:+ suffix candidate))
      else mret candidate
  end.

(** [img.resize(size)]: the library refuses an empty target. *)
Definition Image_resize (img : Image) (sz : Z * Z) : result Image :=
  if (fst sz <? 1) || (snd sz <? 1)
  then raise (ValueError "height and width must be > 0")
  else mret {| size := sz; data := resample img sz |}.

(** The target size of the downscale, [(int(w * scale), int(h * scale))]
    with [scale = MAX_IMAGE_EDGE / edge]. *)
Definition scaled_size (w h : Z) : result (Z * Z) :=
  let edge := Z.max w h in
  scale ← PyFloat.truediv MAX_IMAGE_EDGE edge;
  nw ← PyFloat.mul_int w scale ≫= PyFloat.to_int;
  nh ← PyFloat.mul_int h scale ≫= PyFloat.to_int;
  mret (nw, nh).

(** The image that is encoded: the decoded one, downscaled when its
    longest edge exceeds [MAX_IMAGE_EDGE]. *)
Definition normalize (img : Image) : result Image :=
  let '(w, h) := size img in
  let edge := Z.max w h in
  if edge >? MAX_IMAGE_EDGE then sz ← scaled_size w h; Image_resize img sz
  else mret img.

Definition _load_image_b64 (path : Path) : result string :=
  img ← Image_open_RGB (str path);
  img ← normalize img;
  mret (png_b64 img).

(** [requests.post(url, json=payload, timeout=t)] *)
Definition requests_post (u : string) (payload : pyval) (t : Z) : M Response :=
  fun log =>
    let req := {| url := u; json := payload; timeout := t |} in
    (backend req, (log ++ [req])%list).

(** [Response.raise_for_status()]: client and server error codes raise. *)
Definition raise_for_status (r : Response) : result unit :=
  if (400 <=? status_code r) && (status_code r <? 600)
  then raise (HTTPError (status_code r) (text r))
  else mret tt.

(** The request body built by [_ollama_chat_with_image]. *)
Definition chat_payload (image_b64 prompt : string) (json_mode : bool) : gmap string pyval :=
  let payload : gmap string pyval :=
    <["model" := PStr OLLAMA_MODEL]>
    (<["messages" := PList [PDict (<["role" := PStr "user"]>
                                   (<["content" := PStr prompt]>
                                    (<["images" := PList [PStr image_b64]]> ∅)))]]>
    (<["stream" := PBool false]> ∅)) in
  if json_mode then <["format" := PStr "json"]> payload else payload.

Definition _ollama_chat_with_image (image_b64 prompt : string) (json_mode : bool)
  : M string :=
  r ← requests_post (OLLAMA_HOST +:+ "/api/chat")
        (PDict (chat_payload image_b64 prompt json_mode)) TIMEOUT_S;
  lift (raise_for_status r;;
        data ← json_loads (text r);
        m ← py_get data "message" (PDict ∅);
        c ← py_get (py_or m (PDict ∅)) "content" (PStr "");
        py_strip c).

(** [str(path.relative_to(WORKSPACE_ROOT))] *)
Definition relative_str (path : Path) : result string :=
  match relative_to path WORKSPACE_ROOT with
  | Some rel => mret (str rel)
  | None => raise (ValueError "is not in the subpath of the workspace root")
  end.

Definition vision_ask (image_path question : string) : M (gmap string pyval) :=
  path ← lift (_resolve_workspace_path image_path);
  b64 ← lift (_load_image_b64 path);
  answer ← _ollama_chat_with_image b64 question false;
  image ← lift (relative_str path);
  mret (<["model" := PStr OLLAMA_MODEL]>
        (<["image" := PStr image]>
         (<["answer" := PStr answer]> ∅))).

Definition nl : string := String (ascii_of_N 10) "".

Definition ocr_prompt : string :=
  PyStr.join nl
    ["Extract ALL visible text from this image.";
     "Rules:";
     "- Keep original spelling, casing, punctuation.";
     "- Preserve line breaks.";
     "- If something is partially unreadable, write [illegible].";
     "Return only the extracted text."].

Definition vision_ocr (image_path : string) : M (gmap string pyval) :=
  path ← lift (_resolve_workspace_path image_path);
  b64 ← lift (_load_image_b64 path);
  text ← _ollama_chat_with_image b64 ocr_prompt false;
  image ← lift (relative_str path);
  mret (<["model" := PStr OLLAMA_MODEL]>
        (<["image" := PStr image]>
         (<["text" := PStr text]> ∅))).

(** The double quote, and a string between double quotes. *)
Definition dq : string := String (ascii_of_N 34) "".
Definition quoted (s : string) : string := dq +:+ s +:+ dq.

(** The prompt of the ui-spec tool.  Its apostrophe, U+2019, lies outside
    the modelled character range and is written as its three UTF-8 bytes. *)
Definition ui_prompt : string :=
  PyStr.join nl
    ["You are extracting a UI spec from a screenshot.";
     "Return JSON ONLY with this shape:";
     "{";
     "  " +:+ quoted "summary" +:+ ": string,";
     "  " +:+ quoted "elements" +:+ ": [";
     "    {";
     "      " +:+ quoted "type" +:+ ": "
       +:+ PyStr.join "|" (quoted <$> ["button"; "text"; "input"; "checkbox";
                                       "toggle"; "image"; "icon"; "panel";
                                       "list"; "table"; "link"; "other"]) +:+ ",";
     "      " +:+ quoted "label" +:+ ": string|null,";
     "      " +:+ quoted "role" +:+ ": string|null,";
     "      " +:+ quoted "bounds" +:+ ": {" +:+ quoted "x" +:+ ": number, "
       +:+ quoted "y" +:+ ": number, " +:+ quoted "w" +:+ ": number, "
       +:+ quoted "h" +:+ ": number},";
     "      " +:+ quoted "notes" +:+ ": string|null";
     "    }";
     "  ]";
     "}";
     "Coordinates are in pixels relative to the top-left of the image.";
     "If you can’t estimate bounds reliably, still include the element with approximate bounds and note it in notes."].

(** [try: body except Exception: handler] *)
Definition try_except {A} (body handler : result A) : result A :=
  match body with
  | inr a => inr a
  | inl _ => handler
  end.

Definition vision_ui_spec (image_path : string) : M (gmap string pyval) :=
  path ← lift (_resolve_workspace_path image_path);
  b64 ← lift (_load_image_b64 path);
  raw ← _ollama_chat_with_image b64 ui_prompt true;
  lift (try_except
          (parsed ← json_loads raw;
           image ← relative_str path;
           mret (<["model" := PStr OLLAMA_MODEL]>
                 (<["image" := PStr image]>
                  (<["ui" := parsed]> ∅))))
          (image ← relative_str path;
           mret (<["model" := PStr OLLAMA_MODEL]>
                 (<["image" := PStr image]>
                  (<["ui_raw" := PStr raw]> ∅))))).

End Server.

(** ** A reference JSON decoder

    The decoder of the [json] module, used for the [json_loads] of the
    concrete worlds below: JSON text to Python values, with the constants
    [NaN], [Infinity] and [-Infinity] the module accepts, control characters
    refused inside strings, and the last of two equal keys winning.  A
    [\uXXXX] escape above U+00FF is outside the modelled character range and
    is refused. *)
Module Json.

Definition is_ws (c : ascii) : bool :=
  let n := PyStr.code c in ((n =? 32) || (n =? 9) || (n =? 10) || (n =? 13))%N.

Fixpoint skip_ws (s : string) : string :=
  match s with
  | String c s' => if is_ws c then skip_ws s' else s
  | EmptyString => EmptyString
  end.

Definition digit (c : ascii) : option Z :=
  let n := PyStr.code c in
  if ((48 <=? n) && (n <=? 57))%N then Some (Z.of_N n - 48) else None.

Definition hexdigit (c : ascii) : option Z :=
  let n := Z.of_N (PyStr.code c) in
  if (48 <=? n) && (n <=? 57) then Some (n - 48)
  else if (65 <=? n) && (n <=? 70) then Some (n - 55)
  else if (97 <=? n) && (n <=? 102) then Some (n - 87)
  else None.

(** The longest run of digits at the head of [s]: its value continued
    from [acc], the number of digits read continued from [n], the rest. *)
Fixpoint digits (acc : Z) (n : nat) (s : string) : Z * nat * string :=
  match s with
  | String c s' =>
      match digit c with
      | Some d => digits (10 * acc + d) (S n) s'
      | None => (acc, n, s)
      end
  | EmptyString => (acc, n, s)
  end.

(** [float] of the decimal [d * 10^k], correctly rounded. *)
Definition decimal_to_float (neg : bool) (d k : Z) : spec_float :=
  match d with
  | Zpos p =>
      if 0 <=? k then binary_normalize 53 1024 (cond_Zopp neg (d * 10 ^ k)) 0 false
      else SFdiv 53 1024 (S754_finite neg p 0) (PyFloat.exact_of_int (10 ^ (- k)))
  | _ => S754_zero neg
  end.

Definition parse_number (s : string) : option (pyval * string) :=
  let '(neg, s1) := match s with
                    | String "-" r => (true, r)
                    | _ => (false, s)
                    end in
  match s1 with
  | String c r =>
      match digit c with
      | None => None
      | Some d0 =>
          let '(ip, _, s2) := if Z.eqb d0 0 then (0, 1%nat, r) else digits 0 0 s1 in
          let '(fv, fn, s3) :=
            match s2 with
            | String "." r2 =>
                match digits 0 0 r2 with
                | (_, O, _) => (0, O, s2)
                | (v, n, r3) => (v, n, r3)
                end
            | _ => (0, O, s2)
            end in
          let '(ev, en, s4) :=
            match s3 with
            | String e r3 =>
                if Ascii.eqb e "e" || Ascii.eqb e "E" then
                  let '(eneg, r4) := match r3 with
                                     | String "+" r' => (false, r')
                                     | String "-" r' => (true, r')
                                     | _ => (false, r3)
                                     end in
                  match digits 0 0 r4 with
                  | (_, O, _) => (0, O, s3)
                  | (v, n, r5) => (cond_Zopp eneg v, n, r5)
                  end
                else (0, O, s3)
            | _ => (0, O, s3)
            end in
          match fn, en with
          | O, O => Some (PInt (cond_Zopp neg ip), s4)
          | _, _ =>
              Some (PFloat (decimal_to_float neg (ip * 10 ^ Z.of_nat fn + fv)
                              (ev - Z.of_nat fn)), s4)
          end
      end
  | EmptyString => None
  end.

Definition char_of_code (n : Z) : option ascii :=
  if n <? 256 then Some (ascii_of_N (Z.to_N n)) else None.

(** The text after an opening quote: the decoded string and what follows
    the closing quote. *)
Fixpoint parse_string (s : string) : option (string * string) :=
  let cons (c : ascii) (r : option (string * string)) :=
    match r with
    | Some (t, rest) => Some (String c t, rest)
    | None => None
    end in
  match s with
  | EmptyString => None
  | String c s' =>
      if Ascii.eqb c (ascii_of_N 34) then Some (EmptyString, s')
      else if Ascii.eqb c (ascii_of_N 92) then
        match s' with
        | String "u" (String h1 (String h2 (String h3 (String h4 s'')))) =>
            match hexdigit h1, hexdigit h2, hexdigit h3, hexdigit h4 with
            | Some a, Some b, Some c', Some d =>
                match char_of_code (((a * 16 + b) * 16 + c') * 16 + d) with
                | Some ch => cons ch (parse_string s'')
                | None => None
                end
            | _, _, _, _ => None
            end
        | String e s'' =>
            let esc (n : N) := cons (ascii_of_N n) (parse_string s'') in
            if Ascii.eqb e (ascii_of_N 34) then esc 34%N
            else if Ascii.eqb e (ascii_of_N 92) then esc 92%N
            else if Ascii.eqb e "/" then esc 47%N
            else if Ascii.eqb e "b" then esc 8%N
            else if Ascii.eqb e "f" then esc 12%N
            else if Ascii.eqb e "n" then esc 10%N
            else if Ascii.eqb e "r" then esc 13%N
            else if Ascii.eqb e "t" then esc 9%N
            else None
        | EmptyString => None
        end
      else if (PyStr.code c <? 32)%N then None
      else cons c (parse_string s')
  end.

Fixpoint drop_prefix (pre s : string) : option string :=
  match pre, s with
  | EmptyString, _ => Some s
  | String a pre', String b s' => if Ascii.eqb a b then drop_prefix pre' s' else None
  | String _ _, EmptyString => None
  end.

Definition parse_constant (s : string) : option (pyval * string) :=
  let try (lit : string) (v : pyval) (k : option (pyval * string)) :=
    match drop_prefix lit s with
    | Some r => Some (v, r)
    | None => k
    end in
  try "null" PNone
    (try "true" (PBool true)
       (try "false" (PBool false)
          (try "NaN" (PFloat S754_nan)
             (try "Infinity" (PFloat (S754_infinity false))
                (try "-Infinity" (PFloat (S754_infinity true)) None))))).

(** One value at the head of [s], and the items of an array or of an
    object after their first character; the fuel bounds the calls. *)
Fixpoint parse_value (fuel : nat) (s : string) : option (pyval * string) :=
  match fuel with
  | O => None
  | S fuel =>
      match s with
      | String "{" r =>
          match skip_ws r with
          | String "}" r' => Some (PDict ∅, r')
          | r' => match parse_members fuel r' ∅ with
                  | Some (d, r'') => Some (PDict d, r'')
                  | None => None
                  end
          end
      | String "[" r =>
          match skip_ws r with
          | String "]" r' => Some (PList [], r')
          | r' => match parse_elements fuel r' with
                  | Some (l, r'') => Some (PList l, r'')
                  | None => None
                  end
          end
      | String c r =>
          if Ascii.eqb c (ascii_of_N 34) then
            match parse_string r with
            | Some (t, r') => Some (PStr t, r')
            | None => None
            end
          else match parse_constant s with
               | Some x => Some x
               | None => parse_number s
               end
      | EmptyString => None
      end
  end
with parse_elements (fuel : nat) (s : string) : option (list pyval * string) :=
  match fuel with
  | O => None
  | S fuel =>
      match parse_value fuel s with
      | Some (v, r) =>
          match skip_ws r with
          | String "]" r' => Some ([v], r')
          | String "," r' =>
              match parse_elements fuel (skip_ws r') with
              | Some (l, r'') => Some (v :: l, r'')
              | None => None
              end
          | _ => None
          end
      | None => None
      end
  end
with parse_members (fuel : nat) (s : string) (acc : gmap string pyval)
  : option (gmap string pyval * string) :=
  match fuel with
  | O => None
  | S fuel =>
      match s with
      | String q r =>
          if Ascii.eqb q (ascii_of_N 34) then
            match parse_string r with
            | Some (k, r1) =>
                match skip_ws r1 with
                | String ":" r2 =>
                    match parse_value fuel (skip_ws r2) with
                    | Some (v, r3) =>
                        match skip_ws r3 with
                        | String "}" r4 => Some (<[k := v]> acc, r4)
                        | String "," r4 => parse_members fuel (skip_ws r4) (<[k := v]> acc)
                        | _ => None
                        end
                    | None => None
                    end
                | _ => None
                end
            | None => None
            end
          else None
      | EmptyString => None
      end
  end.

(** [json.loads(s)] *)
Definition loads (s : string) : result pyval :=
  match parse_value (2 * String.length s + 2) (skip_ws s) with
  | Some (v, r) =>
      match skip_ws r with
      | EmptyString => mret v
      | _ => raise (JSONDecodeError "Extra data")
      end
  | None => raise (JSONDecodeError "Expecting value")
  end.

(** A string as a JSON string literal: quotes, backslashes, line feeds,
    carriage returns and tabs escaped. *)
Fixpoint escape (s : string) : string :=
  match s with
  | EmptyString => EmptyString
  | String c s' =>
      let bs := ascii_of_N 92 in
      if Ascii.eqb c (ascii_of_N 34) || Ascii.eqb c bs
      then String bs (String c (escape s'))
      else if Ascii.eqb c (ascii_of_N 10) then String bs (String "n" (escape s'))
      else if Ascii.eqb c (ascii_of_N 13) then String bs (String "r" (escape s'))
      else if Ascii.eqb c (ascii_of_N 9) then String bs (String "t" (escape s'))
      else String c (escape s')
  end.

Definition literal (s : string) : string :=
  String (ascii_of_N 34) (escape s +:+ String (ascii_of_N 34) "").

End Json.

(** ** The UiSpecDocument shape

    The program never looks at the shape of a decoded reply; the shape is
    needed to say what a reply of another shape is. *)
Module UiSpec.

Definition element_types : list string :=
  ["button"; "text"; "input"; "checkbox"; "toggle"; "image"; "icon"; "panel";
   "list"; "table"; "link"; "other"].

Definition is_number (v : option pyval) : bool :=
  match v with
  | Some (PInt _) | Some (PFloat _) => true
  | _ => false
  end.

Definition is_optional_text (v : option pyval) : bool :=
  match v with
  | None | Some PNone | Some (PStr _) => true
  | _ => false
  end.

Definition is_bounds (v : option pyval) : bool :=
  match v with
  | Some (PDict b) =>
      is_number (b !! "x") && is_number (b !! "y")
      && is_number (b !! "w") && is_number (b !! "h")
  | _ => false
  end.

Definition is_element (v : pyval) : bool :=
  match v with
  | PDict e =>
      match e !! "type" with
      | Some (PStr t) => bool_decide (t ∈ element_types)
      | _ => false
      end
      && is_optional_text (e !! "label") && is_optional_text (e !! "role")
      && is_bounds (e !! "bounds") && is_optional_text (e !! "notes")
  | _ => false
  end.

(** Modelled from the spec: the shape has no declaration in the program,
    its description is the data model of the specification.  A document is
    an object with a text [summary] and a sequence [elements] of objects
    with a [type] out of a fixed enumeration, optional texts [label], [role]
    and [notes], and [bounds] with the four numbers [x], [y], [w], [h]. *)
Definition matches (v : pyval) : bool :=
  match v with
  | PDict d =>
      match d !! "summary", d !! "elements" with
      | Some (PStr _), Some (PList l) => forallb is_element l
      | _, _ => false
      end
  | _ => false
  end.

End UiSpec.

(** ** Concrete worlds

    A workspace [/work] on a file system without symbolic links, a backend
    with one fixed answer, and the reference JSON decoder. *)
Module Demo.
Import PurePath.

(** Lexical removal of [..], as [realpath] does when no component is a
    symbolic link; [acc] is the reversed prefix already walked. *)
Fixpoint collapse (acc ps : list string) : list string :=
  match ps with
  | [] => rev acc
  | p :: ps' =>
      if String.eqb p ".." then collapse (tail acc) ps'
      else collapse (p :: acc) ps'
  end.

Definition cwd : Path := {| root := Root1; parts := ["work"] |}.

Definition realpath (s : string) : result string :=
  let p := joinpath cwd (of_string s) in
  mret (str {| root := root p; parts := collapse [] (parts p) |}).

Definition files : list (string * (file_kind * (Z * Z))) :=
  [("/work", (Directory, (0, 0)));
   ("/work/assets", (Directory, (0, 0)));
   ("/work/frames.png", (Directory, (0, 0)));
   ("/work/shot.png", (RegularFile, (800, 600)));
   ("/work/shot.gif", (RegularFile, (640, 480)));
   ("/work/big.png", (RegularFile, (3200, 1800)));
   ("/work/strip.png", (RegularFile, (1, 2000)));
   ("/etc/passwd", (RegularFile, (0, 0)))].

Fixpoint lookup_file (s : string) (l : list (string * (file_kind * (Z * Z))))
  : option (file_kind * (Z * Z)) :=
  match l with
  | [] => None
  | (k, v) :: l' => if String.eqb k s then Some v else lookup_file s l'
  end.

Definition stat (s : string) : result (option file_kind) :=
  mret (fst <$> lookup_file s files).

Definition open_rgb (s : string) : result Image :=
  match lookup_file s files with
  | Some (RegularFile, sz) => mret {| size := sz; data := [] |}
  | Some _ => raise (OSError "Is a directory")
  | None => raise (FileNotFoundError "No such file or directory")
  end.

Definition world (max_edge : Z) (answer : result Response) : World :=
  {| os_realpath := realpath;
     os_stat := stat;
     Image_open_RGB := open_rgb;
     resample := fun _ _ => [];
     png_b64 := fun _ => "iVBORw0KGgo=";
     backend := fun _ => answer;
     json_loads := Json.loads;
     WORKSPACE_ROOT := cwd;
     OLLAMA_HOST := "http://localhost:11434";
     OLLAMA_MODEL := "qwen2.5vl:7b";
     MAX_IMAGE_EDGE := max_edge;
     TIMEOUT_S := 120 |}.

(** The body of a backend reply whose message content is [content]. *)
Definition reply_body (content : string) : string :=
  "{" +:+ Json.literal "message" +:+ ": {" +:+ Json.literal "content" +:+ ": "
      +:+ Json.literal content +:+ "}}".

Definition ok (content : string) : result Response :=
  mret {| status_code := 200; text := reply_body content |}.

(** The document of the specification's scenario. *)
Definition ok_document : string :=
  "{" +:+ Json.literal "summary" +:+ ":" +:+ Json.literal "ok" +:+ ","
      +:+ Json.literal "elements" +:+ ":[]}".

End Demo.

(** The same world with another answer of [os.stat]. *)
Definition with_stat (W : World) (st : string -> result (option file_kind)) : World :=
  {| os_realpath := @os_realpath W;
     os_stat := st;
     Image_open_RGB := @Image_open_RGB W;
     resample := @resample W;
     png_b64 := @png_b64 W;
     backend := @backend W;
     json_loads := @json_loads W;
     WORKSPACE_ROOT := @WORKSPACE_ROOT W;
     OLLAMA_HOST := @OLLAMA_HOST W;
     OLLAMA_MODEL := @OLLAMA_MODEL W;
     MAX_IMAGE_EDGE := @MAX_IMAGE_EDGE W;
     TIMEOUT_S := @TIMEOUT_S W |}.

(** The failures of path resolution, by the names of the error taxonomy. *)
Definition OutsideRoot `{World} : exn :=
  ValueError ("Path must be within workspace root: " +:+ PurePath.str WORKSPACE_ROOT).
Definition NotFound (candidate : Path) : exn :=
  FileNotFoundError ("File not found: " +:+ PurePath.str candidate).
Definition UnsupportedType (candidate : Path) : exn :=
  ValueError ("Unsupported image type: " +:+ PurePath.suffix candidate).

(** The one request of a chat call, and what the call makes of a response:
    the two halves of [_ollama_chat_with_image], named for the statements
    below. *)
Definition chat_request `{World} (image_b64 prompt : string) (json_mode : bool) : Request :=
  {| url := OLLAMA_HOST +:+ "/api/chat";
     json := PDict (chat_payload image_b64 prompt json_mode);
     timeout := TIMEOUT_S |}.

Definition read_reply `{World} (r : Response) : result string :=
  raise_for_status r;;
  data ← json_loads (text r);
  m ← py_get data "message" (PDict ∅);
  c ← py_get (py_or m (PDict ∅)) "content" (PStr "");
  py_strip c.

(** The dictionary a tool returns: the two common fields and one more. *)
Definition tool_result `{World} (image : string) (k : string) (v : pyval)
  : gmap string pyval :=
  <["model" := PStr OLLAMA_MODEL]> (<["image" := PStr image]> (<[k := v]> ∅)).

(** The pipeline the three tools share: it stops at the first failure, and
    a tool that gets its reply shapes its dictionary from it. *)
Definition pipeline `{World} (p prompt : string) (jm : bool)
    (shape : Path -> string -> result (gmap string pyval)) : M (gmap string pyval) :=
  fun log =>
    match _resolve_workspace_path p with
    | inl e => (inl e, log)
    | inr path =>
        match _load_image_b64 path with
        | inl e => (inl e, log)
        | inr b64 =>
            match _ollama_chat_with_image b64 prompt jm log with
            | (inl e, log') => (inl e, log')
            | (inr reply, log') => (shape path reply, log')
            end
        end
    end.

(** A world with two faults: canonicalising a path with a component [loop]
    raises as the operating system does for a symbolic-link loop, and
    [os.stat] is refused on [/work/locked.png]. *)
Module Faulty.

Definition realpath (s : string) : result string :=
  if bool_decide ("loop" ∈ PurePath.parts (PurePath.of_string s))
  then raise (RuntimeError "Symlink loop")
  else Demo.realpath s.

Definition stat (s : string) : result (option file_kind) :=
  if String.eqb s "/work/locked.png" then raise (OSError "Permission denied")
  else Demo.stat s.

Definition world (answer : result Response) : World :=
  {| os_realpath := realpath;
     os_stat := stat;
     Image_open_RGB := Demo.open_rgb;
     resample := fun _ _ => [];
     png_b64 := fun _ => "iVBORw0KGgo=";
     backend := fun _ => answer;
     json_loads := Json.loads;
     WORKSPACE_ROOT := Demo.cwd;
     OLLAMA_HOST := "http://localhost:11434";
     OLLAMA_MODEL := "qwen2.5vl:7b";
     MAX_IMAGE_EDGE := 1600;
     TIMEOUT_S := 120 |}.

End Faulty.

(** ** The scenario generator, [scripts/generate_random_scenario.py]

    The generator draws from a [random.Random]; the generator state and its
    methods are the fields of [Random], with what the library documents of
    them: [randint(a, b)] lies in the range, and [sample(population, k)] picks
    [k] positions of the population, no position twice. *)
Module Scenario.

(** A computation that draws from the generator. *)
Definition Draw (S A : Type) : Type := S -> A * S.

Global Instance draw_ret {S} : MRet (Draw S) := fun A a s => (a, s).
Global Instance draw_bind {S} : MBind (Draw S) := fun A B k m s =>
  let '(a, s') := m s in k a s'.

Class Random (S : Type) := {
  (** [random.Random(seed)] *)
  seeded : Z -> S;
  (** [rng.randint(a, b)] *)
  randint : Z -> Z -> Draw S Z;
  (** [rng.sample(population, k)] *)
  sample : list string -> Z -> Draw S (list string);
  (** [rng.uniform(a, b)] *)
  uniform : Z -> Z -> Draw S spec_float;
  (** [round(x, 2)] *)
  round_2 : spec_float -> spec_float;
  randint_in_range : forall a b s, a <= b -> a <= (randint a b s).1 <= b;
  sample_picks : forall population k s,
    0 <= k <= Z.of_nat (List.length population) ->
    exists positions : list nat,
      NoDup positions
      /\ Z.of_nat (List.length positions) = k
      /\ Forall2 (fun i x => population !! i = Some x) positions (sample population k s).1
}.

Definition ADDITIONAL_ABILITIES : list string :=
  ["ranged_attack"; "offhand_attack"; "shove"; "dash"; "dodge_action"; "hide";
   "second_wind"; "bardic_inspiration"; "cure_wounds"; "Target_PoisonSpray"].

Definition PLAYER_NAMES : list string :=
  ["Aldric"; "Brienne"; "Cedric"; "Delara"; "Eldrin"; "Fiona"; "Gareth"; "Helena";
   "Isadora"; "Jareth"].

Definition HOSTILE_NAMES : list string :=
  ["Grimfang"; "Vex"; "Kragnar"; "Shadowblade"; "Malakar"; "Dreadmaw"; "Skorn";
   "Nightshade"; "Razorclaw"; "Hexbane"].

(** [x in l] *)
Definition py_in (x : string) (l : list string) : bool := bool_decide (x ∈ l).

(** The tags as they are collected, before the pass that removes
    duplicates. *)
Definition collected_tags (abilities : list string) : list string :=
  let tags : list string := [] in
  let tags := if py_in "Target_PoisonSpray" abilities
              then (tags ++ ["melee"; "debuffer"])%list else tags in
  let tags := if py_in "cure_wounds" abilities
              then (tags ++ ["healer"; "support"])%list else tags in
  let tags := if py_in "ranged_attack" abilities && negb (py_in "ranged" tags)
              then (tags ++ ["ranged"])%list else tags in
  let tags := if py_in "offhand_attack" abilities && negb (py_in "melee" tags)
              then (tags ++ ["melee"])%list else tags in
  let tags := if py_in "bardic_inspiration" abilities && negb (py_in "support" tags)
              then (tags ++ ["support"])%list else tags in
  tags.

(** The last loop of [assign_tags]: the first occurrence of each tag, in
    order; [seen] is the set of the tags already kept. *)
Fixpoint unique_tags (seen : gset string) (tags : list string) : list string :=
  match tags with
  | [] => []
  | tag :: rest =>
      if bool_decide (tag ∈ seen) then unique_tags seen rest
      else tag :: unique_tags ({[ tag ]} ∪ seen) rest
  end.

Definition assign_tags (abilities : list string) : list string :=
  unique_tags ∅ (collected_tags abilities).

Section Generator.
Context {S : Type} {R : Random S}.

Definition generate_character (char_id name faction : string)
    (x_range z_range : Z * Z) : Draw S (gmap string pyval) :=
  num_additional ← randint 1 3;
  additional ← sample ADDITIONAL_ABILITIES num_additional;
  let abilities := ("main_hand_attack" :: additional)%list in
  hp ← randint 35 80;
  initiative ← randint 8 18;
  x ← uniform x_range.1 x_range.2;
  z ← uniform z_range.1 z_range.2;
  let tags := assign_tags abilities in
  tiebreaker ← randint 1 100;
  mret (<["id" := PStr char_id]>
        (<["name" := PStr name]>
        (<["faction" := PStr faction]>
        (<["hp" := PInt hp]>
        (<["maxHp" := PInt hp]>
        (<["initiative" := PInt initiative]>
        (<["initiativeTiebreaker" := PInt tiebreaker]>
        (<["x" := PFloat (round_2 x)]>
        (<["y" := PInt 0]>
        (<["z" := PFloat (round_2 z)]>
        (<["abilities" := PList (PStr <$> abilities)]>
        (<["tags" := PList (PStr <$> tags)]> ∅)))))))))))).

(** One of the two loops of [generate_scenario]: a unit for each name,
    numbered from [i]. *)
Fixpoint generate_units (prefix faction : string) (x_range z_range : Z * Z)
    (i : Z) (names : list string) : Draw S (list (gmap string pyval)) :=
  match names with
  | [] => mret []
  | name :: rest =>
      char ← generate_character (prefix +:+ pretty i) name faction x_range z_range;
      chars ← generate_units prefix faction x_range z_range (i + 1) rest;
      mret (char :: chars)
  end.

(** [generate_scenario(seed)], drawing from [random.Random(seed)]. *)
Definition scenario_draw (seed : Z) : Draw S (gmap string pyval) :=
  player_names ← sample PLAYER_NAMES 2;
  hostile_names ← sample HOSTILE_NAMES 2;
  players ← generate_units "player_" "player" (-5, -3) (-2, 2) 1 player_names;
  hostiles ← generate_units "hostile_" "hostile" (3, 5) (-2, 2) 1 hostile_names;
  let units := (players ++ hostiles)%list in
  mret (<["id" := PStr ("random_2v2_seed_" +:+ pretty seed)]>
        (<["name" := PStr ("Random 2v2 (Seed " +:+ pretty seed +:+ ")")]>
        (<["seed" := PInt seed]>
        (<["units" := PList (PDict <$> units)]> ∅)))).

Definition generate_scenario (seed : Z) : gmap string pyval :=
  (scenario_draw seed (seeded seed)).1.

End Generator.

(** *** Invariants of the generated data *)

(** What every generated character is: its fields, the ranges of the
    numbers drawn, the abilities and the tags computed from them. *)
Definition character_ok (char_id name faction : string) (d : gmap string pyval) : Prop :=
  exists hp initiative tiebreaker additional x z,
    d !! "id" = Some (PStr char_id)
    /\ d !! "name" = Some (PStr name)
    /\ d !! "faction" = Some (PStr faction)
    /\ d !! "hp" = Some (PInt hp) /\ d !! "maxHp" = Some (PInt hp) /\ 35 <= hp <= 80
    /\ d !! "initiative" = Some (PInt initiative) /\ 8 <= initiative <= 18
    /\ d !! "initiativeTiebreaker" = Some (PInt tiebreaker) /\ 1 <= tiebreaker <= 100
    /\ d !! "x" = Some (PFloat x) /\ d !! "y" = Some (PInt 0) /\ d !! "z" = Some (PFloat z)
    /\ d !! "abilities" = Some (PList (PStr <$> "main_hand_attack" :: additional))
    /\ (1 <= List.length additional <= 3)%nat
    /\ NoDup ("main_hand_attack" :: additional)
    /\ Forall (fun a => a ∈ ADDITIONAL_ABILITIES) additional
    /\ d !! "tags" = Some (PList (PStr <$> assign_tags ("main_hand_attack" :: additional))).

(** What every generated scenario is: the fields derived from the seed and
    two players followed by two hostiles, with names of their pools. *)
Definition scenario_ok (seed : Z) (d : gmap string pyval) : Prop :=
  d !! "id" = Some (PStr ("random_2v2_seed_" +:+ pretty seed))
  /\ d !! "name" = Some (PStr ("Random 2v2 (Seed " +:+ pretty seed +:+ ")"))
  /\ d !! "seed" = Some (PInt seed)
  /\ exists p1 p2 h1 h2 u1 u2 u3 u4,
       d !! "units" = Some (PList [PDict u1; PDict u2; PDict u3; PDict u4])
       /\ p1 <> p2 /\ p1 ∈ PLAYER_NAMES /\ p2 ∈ PLAYER_NAMES
       /\ h1 <> h2 /\ h1 ∈ HOSTILE_NAMES /\ h2 ∈ HOSTILE_NAMES
       /\ character_ok "player_1" p1 "player" u1
       /\ character_ok "player_2" p2 "player" u2
       /\ character_ok "hostile_1" h1 "hostile" u3
       /\ character_ok "hostile_2" h2 "hostile" u4.

(** A generator that always draws the least: the lower bound, the first
    [k] of the population, the left end of the interval (an integer, which
    [round] leaves as it is). *)
Definition least_randint (a b : Z) : Draw unit Z := fun s => (a, s).
Definition least_sample (population : list string) (k : Z) : Draw unit (list string) :=
  fun s => (take (Z.to_nat k) population, s).
Definition least_uniform (a b : Z) : Draw unit spec_float :=
  fun s => (binary_normalize 53 1024 a 0 false, s).

End Scenario.

(** ** The icon fixer: [scripts/fix_spell_icons.py]

    The script reads the names of the icon files, builds a table from
    normalised names to resource paths, and replaces the placeholder icons
    of the actions of a JSON document.  The directory listings and the
    documents read are given from outside; the messages the script prints
    are left out, and a document written back is modelled by its value (not
    by the order of the keys or the layout of the text). *)
Module Icons.

(** An exception of the kinds met so far, or a [TypeError]. *)
Inductive raised :=
  | Exn (e : exn)
  | TypeError (msg : string).

Definition outcome (A : Type) : Type := raised + A.

Global Instance outcome_ret : MRet outcome := fun A a => inr a.
Global Instance outcome_bind : MBind outcome := fun A B k m =>
  match m with
  | inl e => inl e
  | inr a => k a
  end.

Definition ICON_FOLDERS : list (string * string) :=
  [("Icons Spells", "spell"); ("Icons Actions", "action");
   ("Icons Weapon Actions", "weapon"); ("Icons Passive Features", "passive");
   ("Icons Conditions", "condition"); ("Icons General", "general");
   ("Icons Weapons and Other", "item"); ("Icons Armour", "armour");
   ("Portraits Temp", "portrait")].

Definition GENERIC_DEFAULTS : list string :=
  ["res://assets/Images/spell_icons/default_spell.png";
   "res://assets/Images/Icons Spells/default_spell.png";
   "res://assets/Images/Icons/fire_bolt.png";
   "res://assets/Images/Icons/fireball.png";
   "res://assets/Images/Icons/cure_wounds.png";
   "res://assets/Images/Icons/bless.png"].

(** The dict [MANUAL_OVERRIDES], in the order of its literal. *)
Definition MANUAL_OVERRIDES : list (string * string) :=
  [("darkvision", "Darkvision_spell");
   ("detect_magic", "Detect_Evil_and_Good");
   ("dispel_magic", "Remove_Curse");
   ("water_walk", "Freedom_of_Movement");
   ("raise_dead", "Revivify");
   ("contagion", "Contagion_Blinding_Sickness");
   ("eyebite", "Eyebite_Asleep");
   ("branding_smite", "Branding_Smite_Melee");
   ("create_or_destroy_water", "Create_Water");
   ("divine_favor", "Divine_Favour");
   ("conjure_woodland_beings", "Conjure_Woodland_Being");
   ("conjure_minor_elementals", "Conjure_Minor_Elemental_Azer")].

(** *** Strings *)

Definition underscore : ascii := "_"%char.

(** The class [[a-z0-9]]. *)
Definition is_key_char (c : ascii) : bool :=
  let n := PyStr.code c in
  ((97 <=? n) && (n <=? 122) || (48 <=? n) && (n <=? 57))%N.

(** The class [\d], on the code points 0..255. *)
Definition is_digit (c : ascii) : bool :=
  let n := PyStr.code c in ((48 <=? n) && (n <=? 57))%N.

(** [re.sub(r"[^a-z0-9]+", "_", s)]: every maximal run of other characters
    becomes one underscore, written when the run ends. *)
Fixpoint sub_runs (s : string) : string :=
  match s with
  | EmptyString => EmptyString
  | String c s' =>
      if is_key_char c then String c (sub_runs s')
      else match s' with
           | EmptyString => String underscore EmptyString
           | String c' _ =>
               if is_key_char c' then String underscore (sub_runs s')
               else sub_runs s'
           end
  end.

(** [s.lstrip("_")] and [s.rstrip("_")] *)
Fixpoint lstrip_underscores (s : string) : string :=
  match s with
  | EmptyString => EmptyString
  | String c s' => if Ascii.eqb c underscore then lstrip_underscores s' else s
  end.

Fixpoint rstrip_underscores (s : string) : string :=
  match s with
  | EmptyString => EmptyString
  | String c s' =>
      match rstrip_underscores s' with
      | EmptyString =>
          if Ascii.eqb c underscore then EmptyString else String c EmptyString
      | r => String c r
      end
  end.

Definition normalize_key (name : string) : string :=
  let name := PyStr.lower name in
  let name := sub_runs name in
  let name := rstrip_underscores (lstrip_underscores name) in
  name.

(** A well-formed key: letters a..z, digits and single underscores, with
    no underscore at either end. *)
Fixpoint key_body (s : string) : bool :=
  match s with
  | EmptyString => true
  | String c s' =>
      (is_key_char c
       || Ascii.eqb c underscore
          && match s' with
             | EmptyString => false
             | String c' _ => is_key_char c'
             end)
      && key_body s'
  end.

Definition is_key (s : string) : bool :=
  key_body s
  && match s with
     | EmptyString => true
     | String c _ => is_key_char c
     end.

(** What [re.sub] leaves: key characters, and underscores each followed by
    a key character or by the end. *)
Fixpoint run_body (s : string) : bool :=
  match s with
  | EmptyString => true
  | String c s' =>
      (is_key_char c
       || Ascii.eqb c underscore
          && match s' with
             | EmptyString => true
             | String c' _ => is_key_char c'
             end)
      && run_body s'
  end.

Definition head_is_key (s : string) : bool :=
  match s with
  | EmptyString => true
  | String c _ => is_key_char c
  end.

(** [s.startswith(prefix)] together with [s[len(prefix):]]. *)
Fixpoint strip_prefix (prefix s : string) : option string :=
  match prefix, s with
  | EmptyString, _ => Some s
  | String p prefix', String c s' =>
      if Ascii.eqb p c then strip_prefix prefix' s' else None
  | String _ _, EmptyString => None
  end.

(** [s.endswith(suffix)] together with [s[:-len(suffix)]], for a suffix
    that is not empty. *)
Fixpoint strip_suffix (suffix s : string) : option string :=
  match s with
  | EmptyString => None
  | String c s' =>
      if String.eqb s suffix then Some EmptyString
      else String c <$> strip_suffix suffix s'
  end.

(** Is [s] at its end, or just before a newline that ends it (where [$]
    matches)? *)
Definition at_dollar (s : string) : bool :=
  String.eqb s "" || String.eqb s (String (ascii_of_N 10) "").

(** Does [s] read [\d+$]?  If so, what [$] left unread. *)
Fixpoint digits_dollar (s : string) : option string :=
  match s with
  | EmptyString => None
  | String c s' =>
      if is_digit c then
        match digits_dollar s' with
        | Some r => Some r
        | None => if at_dollar s' then Some s' else None
        end
      else None
  end.

(** [re.sub(r"_\d+$", "", s)] *)
Fixpoint sub_trailing_number (s : string) : string :=
  match s with
  | EmptyString => EmptyString
  | String c s' =>
      match (if Ascii.eqb c underscore then digits_dollar s' else None) with
      | Some r => r
      | None => String c (sub_trailing_number s')
      end
  end.

(** Does [s] read [\s+\d+$]?  If so, what [$] left unread. *)
Fixpoint spaces_digits_dollar (s : string) : option string :=
  match s with
  | EmptyString => None
  | String c s' =>
      if PyStr.isspace c then
        match spaces_digits_dollar s' with
        | Some r => Some r
        | None => digits_dollar s'
        end
      else None
  end.

(** [re.sub(r"\s+\d+$", "", s)] *)
Fixpoint sub_trailing_spaced_number (s : string) : string :=
  match s with
  | EmptyString => EmptyString
  | String c s' =>
      match spaces_digits_dollar s with
      | Some r => r
      | None => String c (sub_trailing_spaced_number s')
      end
  end.

(** *** The table of icons *)

(** [os.path.isdir] and [os.listdir] on the folders of [assets/Images]. *)
Class Folders := {
  isdir : string -> bool;
  listdir : string -> outcome (list string)
}.

(** The base name of an icon file: the first of the three endings that
    fits is cut off. *)
Definition base_name (fname : string) : string :=
  match strip_suffix "_Unfaded_Icon.png" fname with
  | Some base => base
  | None =>
      match strip_suffix "_Icon.png" fname with
      | Some base => base
      | None => default fname (strip_suffix ".png" fname)
      end
  end.

Definition res_path (folder_name fname : string) : string :=
  "res://assets/Images/" +:+ folder_name +:+ "/" +:+ fname.

(** [if key not in lookup: lookup[key] = value] *)
Definition add_new (key value : string) (lookup : gmap string string) :
    gmap string string :=
  match lookup !! key with
  | Some _ => lookup
  | None => <[key := value]> lookup
  end.

(** The body of the inner loop of [build_icon_lookup]. *)
Definition add_file (folder_name : string) (lookup : gmap string string)
    (fname : string) : gmap string string :=
  match strip_suffix ".png" fname with
  | None => lookup
  | Some stem =>
      let key := normalize_key (base_name fname) in
      let lookup := add_new key (res_path folder_name fname) lookup in
      let full_key := normalize_key stem in
      add_new full_key (res_path folder_name fname) lookup
  end.

(** The keys under which a file is entered, in the order in which they are
    tried: none for a file that is not a [.png]. *)
Definition file_keys (fname : string) : list string :=
  match strip_suffix ".png" fname with
  | None => []
  | Some stem => [normalize_key (base_name fname); normalize_key stem]
  end.

(** The entries made for a file: one for each of its keys. *)
Definition file_entries (folder_name fname : string) : list (string * string) :=
  (fun k => (k, res_path folder_name fname)) <$> file_keys fname.

(** One entry added to the table, unless its key is there. *)
Definition add_entry (lookup : gmap string string) (e : string * string) :=
  add_new e.1 e.2 lookup.

Section Lookup.
Context {F : Folders}.

(** The outer loop of [build_icon_lookup], from the folders still to
    visit. *)
Fixpoint add_folders (folders : list (string * string))
    (lookup : gmap string string) : outcome (gmap string string) :=
  match folders with
  | [] => mret lookup
  | (folder_name, _) :: rest =>
      if isdir folder_name then
        files ← listdir folder_name;
        add_folders rest (foldl (add_file folder_name) lookup files)
      else add_folders rest lookup
  end.

Definition build_icon_lookup : outcome (gmap string string) :=
  add_folders ICON_FOLDERS ∅.

(** The entries of the folders, in the order in which the loops meet them. *)
Fixpoint all_entries (folders : list (string * string)) : outcome (list (string * string)) :=
  match folders with
  | [] => mret []
  | (folder_name, _) :: rest =>
      if isdir folder_name then
        files ← listdir folder_name;
        entries ← all_entries rest;
        mret (flat_map (file_entries folder_name) files ++ entries)%list
      else all_entries rest
  end.

End Lookup.

(** *** Finding an icon *)

(** [normalize_key] called on an object: only a str has [lower]. *)
Definition normalize_key_of (v : pyval) : outcome string :=
  match v with
  | PStr s => mret (normalize_key s)
  | _ => inl (Exn (AttributeError "object has no attribute 'lower'"))
  end.

(** The loop over the prefixes: a prefix that fits is cut off, and what
    has been cut off stays cut off for the prefixes that follow. *)
Fixpoint strip_prefixes (prefixes : list string) (stripped : string)
    (lookup : gmap string string) : option string :=
  match prefixes with
  | [] => None
  | prefix :: rest =>
      match strip_prefix prefix stripped with
      | Some stripped' =>
          match lookup !! stripped' with
          | Some icon => Some icon
          | None => strip_prefixes rest stripped' lookup
          end
      | None => strip_prefixes rest stripped lookup
      end
  end.

(** [MANUAL_OVERRIDES[action_id]], when [action_id in MANUAL_OVERRIDES]. *)
Fixpoint override (action_id : string) (table : list (string * string)) :
    option string :=
  match table with
  | [] => None
  | (k, v) :: rest => if String.eqb k action_id then Some v else override action_id rest
  end.

(** The last two attempts of [find_icon_for_id], for an id that is a str. *)
Definition find_by_override (action_id : string) (lookup : gmap string string) :
    option string :=
  match override action_id MANUAL_OVERRIDES with
  | Some override_base =>
      match lookup !! normalize_key override_base with
      | Some icon => Some icon
      | None => lookup !! normalize_key (override_base +:+ "_Unfaded_Icon")
      end
  | None => None
  end.

(** The attempt with the name without its number; [action_name] is a str
    that is not empty here. *)
Definition find_by_name_without_number (action_name : string)
    (lookup : gmap string string) : option string :=
  let name_no_num := sub_trailing_spaced_number (PyStr.strip action_name) in
  if negb (String.eqb name_no_num action_name)
  then lookup !! normalize_key name_no_num
  else None.

Definition find_icon_for_id (action_id action_name : pyval)
    (lookup : gmap string string) : outcome (option string) :=
  key ← normalize_key_of action_id;
  match lookup !! key with
  | Some icon => mret (Some icon)
  | None =>
      by_name ← (if truthy action_name
                 then name_key ← normalize_key_of action_name;
                      mret (lookup !! name_key)
                 else mret None);
      match by_name with
      | Some icon => mret (Some icon)
      | None =>
          match strip_prefixes ["shout_"; "target_"; "projectile_"; "zone_";
                                "wall_"; "throw_"] key lookup with
          | Some icon => mret (Some icon)
          | None =>
              let no_num := sub_trailing_number key in
              match (if negb (String.eqb no_num key) then lookup !! no_num else None) with
              | Some icon => mret (Some icon)
              | None =>
                  match (match action_name with
                         | PStr name =>
                             if truthy action_name
                             then find_by_name_without_number name lookup
                             else None
                         | _ => None
                         end) with
                  | Some icon => mret (Some icon)
                  | None =>
                      match action_id with
                      | PStr id => mret (find_by_override id lookup)
                      | _ => mret None
                      end
                  end
              end
          end
      end
  end.

(** *** Fixing a document *)

Definition is_generic_icon (icon_path : pyval) : outcome bool :=
  if negb (truthy icon_path) then mret true
  else match icon_path with
       | PStr s =>
           mret (existsb (fun default_ => String.eqb (PyStr.lower s) (PyStr.lower default_))
                         GENERIC_DEFAULTS)
       | _ => inl (Exn (AttributeError "object has no attribute 'lower'"))
       end.

(** [action.get(k, default)] *)
Definition get (action : pyval) (k : string) (dflt : pyval) : outcome pyval :=
  match py_get action k dflt with
  | inl e => inl (Exn e)
  | inr v => inr v
  end.

(** What [for action in actions] goes through.  A str yields its
    characters and a dict its keys, all of them strs; a number is not
    iterable. *)
Definition iterate (actions : pyval) : outcome (list pyval) :=
  match actions with
  | PList l => mret l
  | PStr s => mret ((fun c => PStr (String c "")) <$> list_ascii_of_string s)
  | PDict d => mret ((fun kv => PStr kv.1) <$> map_to_list d)
  | _ => inl (TypeError "object is not iterable")
  end.

(** The counters and the actions gone through so far. *)
Record Progress := {
  fixed : Z;
  skipped : Z;
  done : list pyval
}.

(** One turn of the loop of [fix_json_file]. *)
Definition fix_action (lookup : gmap string string) (p : Progress) (action : pyval) :
    outcome Progress :=
  action_id ← get action "id" (PStr "");
  action_name ← get action "name" (PStr "");
  current_icon ← get action "icon" (PStr "");
  generic ← is_generic_icon current_icon;
  if negb generic then
    mret {| fixed := fixed p; skipped := skipped p + 1; done := (done p ++ [action])%list |}
  else
    new_icon ← find_icon_for_id action_id action_name lookup;
    match new_icon, action with
    | Some icon, PDict fields =>
        if negb (String.eqb icon "") then
          mret {| fixed := fixed p + 1; skipped := skipped p;
                  done := (done p ++ [PDict (<["icon" := PStr icon]> fields)])%list |}
        else mret {| fixed := fixed p; skipped := skipped p; done := (done p ++ [action])%list |}
    | _, _ => mret {| fixed := fixed p; skipped := skipped p; done := (done p ++ [action])%list |}
    end.

Fixpoint fix_actions (lookup : gmap string string) (p : Progress) (actions : list pyval) :
    outcome Progress :=
  match actions with
  | [] => mret p
  | action :: rest => p' ← fix_action lookup p action; fix_actions lookup p' rest
  end.

(** [os.path.exists] and [json.load] of the file opened for reading. *)
Class Documents := {
  path_exists : string -> bool;
  json_load : string -> outcome pyval
}.

(** What a call of [fix_json_file] returns, and the document it writes
    back, if it writes. *)
Record Fixed := {
  counts : Z * Z;
  written : option pyval
}.

Definition fix_json_file {D : Documents} (file_path : string)
    (lookup : gmap string string) : outcome Fixed :=
  if negb (path_exists file_path) then mret {| counts := (0, 0); written := None |}
  else
    data ← json_load file_path;
    actions ← get data "actions" (PList []);
    if negb (truthy actions) then mret {| counts := (0, 0); written := None |}
    else
      items ← iterate actions;
      p ← fix_actions lookup {| fixed := 0; skipped := 0; done := [] |} items;
      match data, actions with
      | PDict fields, PList _ =>
          mret {| counts := (fixed p, skipped p);
                  written := if 0 <? fixed p
                             then Some (PDict (<["actions" := PList (done p)]> fields))
                             else None |}
      | _, _ => mret {| counts := (fixed p, skipped p); written := None |}
      end.

(** What the loop may do to one action: leave it as it is, or give a
    dict whose icon is a placeholder an icon of the table that is not
    empty. *)
Definition kept_or_fixed (lookup : gmap string string) (action action' : pyval) : Prop :=
  action' = action
  \/ exists fields icon,
       action = PDict fields /\ action' = PDict (<["icon" := PStr icon]> fields)
       /\ icon <> "" /\ (exists k, lookup !! k = Some icon)
       /\ is_generic_icon (default (PStr "") (fields !! "icon")) = inr true.

End Icons.


(** *** A small asset tree

    Two icon folders: the spell icons hold a fire bolt and a bless icon
    (and a file that is no image), the action icons hold another fire bolt
    and a dash icon. *)
Module IconsDemo.

Definition listing (folder_name : string) : option (list string) :=
  if String.eqb folder_name "Icons Spells"
  then Some ["Fire_Bolt_Unfaded_Icon.png"; "notes.txt"; "Bless_Icon.png"]
  else if String.eqb folder_name "Icons Actions"
  then Some ["Fire_Bolt.png"; "Dash_Unfaded_Icon.png"]
  else None.

Global Instance folders : Icons.Folders := {|
  Icons.isdir folder_name := bool_decide (is_Some (listing folder_name));
  Icons.listdir folder_name :=
    match listing folder_name with
    | Some files => inr files
    | None => inl (Icons.Exn (FileNotFoundError folder_name))
    end
|}.

Definition fire_bolt_fields : gmap string pyval :=
  <["id" := PStr "fire_bolt"]> (<["name" := PStr "Fire Bolt"]> (<["icon" := PStr ""]> ∅)).

Definition dash_action : pyval :=
  PDict (<["id" := PStr "dash"]> (<["icon" := PStr "res://custom/dash.png"]> ∅)).

(** A document with a placeholder icon and a specific one. *)
Definition document : pyval :=
  PDict (<["actions" := PList [PDict fire_bolt_fields; dash_action]]> ∅).

Definition fire_bolt_icon : string :=
  "res://assets/Images/Icons Spells/Fire_Bolt_Unfaded_Icon.png".

(** The document after the fire bolt has got its icon. *)
Definition fixed_document : pyval :=
  PDict (<["actions" := PList [PDict (<["icon" := PStr fire_bolt_icon]> fire_bolt_fields);
                               dash_action]]> ∅).

(** The one file [common_actions.json], holding [doc]. *)
Definition documents (doc : pyval) : Icons.Documents := {|
  Icons.path_exists file_path := String.eqb file_path "common_actions.json";
  Icons.json_load file_path :=
    if String.eqb file_path "common_actions.json" then inr doc
    else inl (Icons.Exn (FileNotFoundError file_path))
|}.

Definition lookup : gmap string string := {[ "fire_bolt" := fire_bolt_icon ]}.

End IconsDemo.

(** ** The launcher: [.mcp/vision-bridge/launcher.py]

    The launcher picks a Python runtime that can import the bridge's
    packages, setting one up if none can, and starts the server with it.
    The machine is given from outside: whether a path exists and how a
    command ends may depend on the commands run so far, which are kept in a
    log. *)
Module Launcher.

Definition command : Type := list string.

(** An exception of the kinds met so far, or a [CalledProcessError]. *)
Inductive raised :=
  | Exn (e : exn)
  | CalledProcessError (returncode : Z) (cmd : command).

Class Host := {
  (** [os.name] *)
  os_name : string;
  (** [sys.executable], and [str(Path(sys.executable))] *)
  sys_executable : string;
  current_python : string;
  (** [sys.argv] *)
  sys_argv : list string;
  (** [str(Path(__file__).resolve().parent)] *)
  BRIDGE_DIR : string;
  (** [str(Path(a) / b)] *)
  path_join : string -> string -> string;
  (** [Path(p).exists()], after the commands of the log *)
  path_exists : list command -> string -> bool;
  (** How a command ends, after the commands of the log: with a return
      code, or with an exception if it cannot be started. *)
  spawn : list command -> command -> exn + Z
}.

(** A computation that runs commands: its result or the exception raised,
    and the log with the commands run. *)
Definition L (A : Type) : Type := list command -> (raised + A) * list command.

Global Instance L_ret : MRet L := fun A a log => (inr a, log).
Global Instance L_bind : MBind L := fun A B k m log =>
  match m log with
  | (inl e, log') => (inl e, log')
  | (inr a, log') => k a log'
  end.

Section Launcher.
Context {H : Host}.

Definition REQUIREMENTS_PATH : string := path_join BRIDGE_DIR "requirements.txt".
Definition LINUX_VENV_PYTHON : string :=
  path_join (path_join (path_join BRIDGE_DIR ".venv") "bin") "python".
Definition POSIX_ALT_VENV_DIR : string := path_join BRIDGE_DIR ".venv-posix".
Definition POSIX_ALT_VENV_PYTHON : string :=
  path_join (path_join POSIX_ALT_VENV_DIR "bin") "python".
Definition WINDOWS_VENV_PYTHON : string :=
  path_join (path_join (path_join BRIDGE_DIR ".venv") "Scripts") "python.exe".
Definition WINDOWS_ALT_VENV_DIR : string := path_join BRIDGE_DIR ".venv-win".
Definition WINDOWS_ALT_VENV_PYTHON : string :=
  path_join (path_join WINDOWS_ALT_VENV_DIR "Scripts") "python.exe".
Definition REQUIRED_IMPORT_CHECK : string := "import fastmcp,requests,PIL".

(** [python_exe.exists()] *)
Definition exists_ (p : string) : L bool := fun log => (inr (path_exists log p), log).

(** [subprocess.run(cmd, check=False).returncode] and [subprocess.call(cmd)] *)
Definition subprocess_call (cmd : command) : L Z := fun log =>
  (match spawn log cmd with
   | inl e => inl (Exn e)
   | inr returncode => inr returncode
   end, (log ++ [cmd])%list).

(** [subprocess.check_call(cmd)] *)
Definition subprocess_check_call (cmd : command) : L unit :=
  returncode ← subprocess_call cmd;
  if returncode =? 0 then mret tt
  else fun log => (inl (CalledProcessError returncode cmd), log).

Definition _is_windows : bool := String.eqb os_name "nt".

Definition _has_required_packages (python_exe : string) : L bool :=
  there ← exists_ python_exe;
  if negb there then mret false
  else
    returncode ← subprocess_call [python_exe; "-c"; REQUIRED_IMPORT_CHECK];
    mret (returncode =? 0).

Definition _ensure_windows_venv (venv_dir : string) : L string :=
  let venv_python := path_join (path_join venv_dir "Scripts") "python.exe" in
  there ← exists_ venv_python;
  (if negb there
   then subprocess_check_call [sys_executable; "-m"; "venv"; venv_dir]
   else mret tt);;
  ready ← _has_required_packages venv_python;
  (if negb ready
   then subprocess_check_call
          [venv_python; "-m"; "pip"; "install"; "--disable-pip-version-check";
           "-r"; REQUIREMENTS_PATH]
   else mret tt);;
  mret venv_python.

Definition _ensure_posix_venv (venv_dir : string) : L string :=
  let venv_python := path_join (path_join venv_dir "bin") "python" in
  there ← exists_ venv_python;
  (if negb there
   then subprocess_check_call [sys_executable; "-m"; "venv"; venv_dir]
   else mret tt);;
  ready ← _has_required_packages venv_python;
  (if negb ready
   then subprocess_check_call
          [venv_python; "-m"; "pip"; "install"; "--disable-pip-version-check";
           "-r"; REQUIREMENTS_PATH]
   else mret tt);;
  mret venv_python.

Definition _select_runtime : L string :=
  if _is_windows then
    ok ← _has_required_packages WINDOWS_VENV_PYTHON;
    if (ok : bool) then mret WINDOWS_VENV_PYTHON
    else
      ok ← _has_required_packages WINDOWS_ALT_VENV_PYTHON;
      if (ok : bool) then mret WINDOWS_ALT_VENV_PYTHON
      else
        ok ← _has_required_packages current_python;
        if (ok : bool) then mret current_python
        else _ensure_windows_venv WINDOWS_ALT_VENV_DIR
  else
    ok ← _has_required_packages LINUX_VENV_PYTHON;
    if (ok : bool) then mret LINUX_VENV_PYTHON
    else
      ok ← _has_required_packages POSIX_ALT_VENV_PYTHON;
      if (ok : bool) then mret POSIX_ALT_VENV_PYTHON
      else
        ok ← _has_required_packages current_python;
        if (ok : bool) then mret current_python
        else _ensure_posix_venv POSIX_ALT_VENV_DIR.



(** *** The commands of the launcher *)

(** The probe of a runtime. *)
Definition probe (python_exe : string) : command :=
  [python_exe; "-c"; REQUIRED_IMPORT_CHECK].

(** The environment that is set up when no runtime qualifies. *)
Definition alt_venv_dir : string :=
  if _is_windows then WINDOWS_ALT_VENV_DIR else POSIX_ALT_VENV_DIR.

Definition alt_venv_python : string :=
  if _is_windows then WINDOWS_ALT_VENV_PYTHON else POSIX_ALT_VENV_PYTHON.

Definition venv_python : string :=
  if _is_windows then WINDOWS_VENV_PYTHON else LINUX_VENV_PYTHON.

Definition create_venv : command := [sys_executable; "-m"; "venv"; alt_venv_dir].

Definition install_requirements : command :=
  [alt_venv_python; "-m"; "pip"; "install"; "--disable-pip-version-check";
   "-r"; REQUIREMENTS_PATH].

Definition is_probe (cmd : command) : Prop := exists python_exe, cmd = probe python_exe.

(** A command of the selection: a probe, or one of the two commands that
    set up the alternative environment. *)
Definition is_setup (cmd : command) : Prop :=
  is_probe cmd \/ cmd = create_venv \/ cmd = install_requirements.

(** The selection as a search through the candidates. *)
Fixpoint first_qualified (candidates : list string) (otherwise : L string) : L string :=
  match candidates with
  | [] => otherwise
  | python_exe :: rest =>
      ok ← _has_required_packages python_exe;
      if (ok : bool) then mret python_exe else first_qualified rest otherwise
  end.

(** What the selection does when no candidate qualifies. *)
Definition ensure_alt_venv : L string :=
  if _is_windows then _ensure_windows_venv WINDOWS_ALT_VENV_DIR
  else _ensure_posix_venv POSIX_ALT_VENV_DIR.

End Launcher.

(** *** A machine with one runtime

    A POSIX machine on which only the current interpreter exists; its probe
    ends with [probe_code], and every other command succeeds. *)
Module Machine.

Definition host (probe_code : Z) : Host := {|
  os_name := "posix";
  sys_executable := "/usr/bin/python3";
  current_python := "/usr/bin/python3";
  sys_argv := ["launcher.py"; "--stdio"];
  BRIDGE_DIR := "/work/.mcp/vision-bridge";
  path_join a b := a +:+ "/" +:+ b;
  path_exists log p :=
    String.eqb p "/usr/bin/python3"
    || bool_decide (["/usr/bin/python3"; "-m"; "venv"; "/work/.mcp/vision-bridge/.venv-posix"]
                    ∈ log);
  spawn log cmd :=
    match cmd with
    | [_; "-c"; _] => inr probe_code
    | _ => inr 0
    end
|}.

End Machine.

End Launcher.

(** * Properties *)

(** ** Strings and paths *)
Section StripFacts.
Import PyStr.





End StripFacts.

Section PathFacts.
Import PurePath.

Lemma strip_prefix_spec (pre l rest : list string) :
  strip_prefix pre l = Some rest <-> l = (pre ++ rest)%list.
Proof.
  revert l; induction pre as [|x pre IH]; intros l; simpl.
  - split; congruence.
  - destruct l as [|y l]; [split; discriminate|].
    destruct (String.eqb_spec x y) as [->|Hne].
    + rewrite IH. split; congruence.
    + split; [discriminate | intros [= -> _]; congruence].
Qed.

Lemma relative_to_Some (p o rel : Path) :
  relative_to p o = Some rel <->
  root p = root o /\ root rel = NoRoot /\ parts p = (parts o ++ parts rel)%list.
Proof.
  unfold relative_to. destruct (decide (root p = root o)) as [Hr|Hr].
  - destruct (strip_prefix (parts o) (parts p)) as [rest|] eqn:E.
    + apply strip_prefix_spec in E. split.
      * intros [= <-]; auto.
      * intros (_ & Hn & Hp). destruct rel as [rr rp]; simpl in *; subst rr.
        rewrite E in Hp. apply app_inv_head in Hp. congruence.
    + split; [discriminate|]. intros (_ & _ & Hp).
      apply strip_prefix_spec in Hp. congruence.
  - split; [discriminate | tauto].
Qed.

Lemma relative_to_under (p o : Path) :
  is_Some (relative_to p o) <-> under p o.
Proof.
  split.
  - intros [rel H]. apply relative_to_Some in H as (? & ? & ?).
    split; eauto.
  - intros [Hr [rest Hp]]. exists {| root := NoRoot; parts := rest |}.
    apply relative_to_Some; auto.
Qed.

Lemma relative_to_None (p o : Path) :
  relative_to p o = None <-> ~ under p o.
Proof.
  rewrite <- relative_to_under, <- eq_None_not_Some. tauto.
Qed.

(** A rooted right operand replaces the left one, so the path that is
    canonicalised is [WORKSPACE_ROOT / raw] in both branches. *)
Lemma join_absolute (r raw : Path) :
  is_absolute raw = true -> joinpath r raw = raw.
Proof. unfold is_absolute, joinpath. destruct (root raw); congruence. Qed.

Lemma split_no_sep (sep : ascii) (s : string) :
  Forall (fun x => PyStr.mem sep x = false) (PyStr.split sep s).
Proof.
  induction s as [|c s IH]; simpl.
  - repeat constructor.
  - destruct (Ascii.eqb c sep) eqn:E.
    + constructor; auto.
    + destruct (PyStr.split sep s) as [|seg rest].
      * repeat constructor. simpl. now rewrite E.
      * inversion IH; subst. constructor; auto. simpl. now rewrite E.
Qed.

Lemma of_string_valid (s : string) :
  Forall valid_part (parts (of_string s)).
Proof.
  unfold of_string. destruct (splitroot s) as [r rest]; simpl.
  apply Forall_forall. intros x Hx.
  apply list_elem_of_filter in Hx as [Hk Hx].
  split.
  - intros ->. unfold keep_part in Hk. simpl in Hk. exact Hk.
  - pose proof (split_no_sep "/" rest) as Hs.
    rewrite Forall_forall in Hs. auto.
Qed.

Lemma str_relative_not_rooted (rel : Path) :
  root rel = NoRoot -> Forall valid_part (parts rel) ->
  PyStr.startswith_char "/" (str rel) = false.
Proof.
  destruct rel as [r ps]; simpl. intros -> Hv. unfold str; simpl.
  destruct ps as [|x ps]; [reflexivity|].
  inversion Hv as [|? ? [Hne Hm] _]; subst.
  destruct x as [|c x]; [congruence|].
  simpl in Hm. apply orb_false_iff in Hm as [Hc _].
  destruct ps; simpl; exact Hc.
Qed.

Lemma str_absolute_rooted (p : Path) :
  is_absolute p = true -> PyStr.startswith_char "/" (str p) = true.
Proof.
  destruct p as [r ps]; unfold is_absolute, str; simpl.
  destruct r; [discriminate| |]; intros _; destruct ps; reflexivity.
Qed.

End PathFacts.

(** Lookups in a dictionary written as a chain of insertions. *)
Ltac lookup_dict :=
  repeat first
    [ rewrite lookup_insert_eq
    | rewrite lookup_insert_ne by discriminate
    | rewrite lookup_empty ];
  try reflexivity; try discriminate.

Ltac unfold_result :=
  unfold mbind, mret, result_bind, result_ret, raise in *.

(** ** Path resolution *)
Section ResolveFacts.
Context {W : World}.
Import PurePath.

(** The path that is canonicalised: both branches of the source agree
    with [WORKSPACE_ROOT / raw]. *)
Lemma candidate_is_joined (p : string) :
  (if negb (is_absolute (of_string p))
   then resolve (joinpath WORKSPACE_ROOT (of_string p))
   else resolve (of_string p))
  = resolve (joinpath WORKSPACE_ROOT (of_string p)).
Proof.
  destruct (is_absolute (of_string p)) eqn:E; simpl; [|reflexivity].
  now rewrite join_absolute.
Qed.

(** The four outcomes of a resolution whose canonicalisation succeeds. *)
Lemma resolve_workspace_path_cases (p : string) (c : Path) :
  resolve (joinpath WORKSPACE_ROOT (of_string p)) = inr c ->
  _resolve_workspace_path p =
    match relative_to c WORKSPACE_ROOT with
    | None => inl OutsideRoot
    | Some _ =>
        match os_stat (str c) with
        | inl e => inl e
        | inr None => inl (NotFound c)
        | inr (Some _) =>
            if bool_decide (PyStr.lower (suffix c) ∈ allowed_suffixes)
            then inr c else inl (UnsupportedType c)
        end
    end.
Proof.
  intros Hc. unfold _resolve_workspace_path.
  rewrite candidate_is_joined, Hc. unfold_result.
  destruct (relative_to c WORKSPACE_ROOT); [|reflexivity].
  unfold exists_. unfold_result.
  destruct (os_stat (str c)) as [e|[k|]]; simpl; try reflexivity.
  destruct (bool_decide _); reflexivity.
Qed.

(** A successful resolution went through every check. *)
Lemma resolve_workspace_path_inr (p : string) (c : Path) :
  _resolve_workspace_path p = inr c ->
  resolve (joinpath WORKSPACE_ROOT (of_string p)) = inr c
  /\ (exists rel, relative_to c WORKSPACE_ROOT = Some rel)
  /\ (exists k, os_stat (str c) = inr (Some k))
  /\ PyStr.lower (suffix c) ∈ allowed_suffixes.
Proof.
  intros H.
  destruct (resolve (joinpath WORKSPACE_ROOT (of_string p))) as [e|c'] eqn:Hc.
  - unfold _resolve_workspace_path in H.
    rewrite candidate_is_joined, Hc in H. discriminate.
  - rewrite (resolve_workspace_path_cases p c' Hc) in H.
    destruct (relative_to c' WORKSPACE_ROOT) as [rel|] eqn:Hrel; [|discriminate].
    destruct (os_stat (str c')) as [e|[k|]] eqn:Hst; try discriminate.
    destruct (bool_decide _) eqn:Hb; [|discriminate].
    injection H as <-. apply bool_decide_eq_true in Hb. eauto 10.
Qed.

Lemma resolved_parts_valid (p : string) (c : Path) :
  _resolve_workspace_path p = inr c -> Forall valid_part (parts c).
Proof.
  intros H. apply resolve_workspace_path_inr in H as (Hc & _).
  unfold resolve in Hc. unfold_result.
  destruct (os_realpath _); [discriminate|]. injection Hc as <-.
  apply of_string_valid.
Qed.

End ResolveFacts.

(** ** Floating-point arithmetic

    The operations of [SpecFloat] round the exact result to 53 bits.  The
    facts below bound what rounding can change, on integers throughout: a
    number [m * 2^e] is compared with others after scaling by a common power
    of two. *)
Section FloatFacts.

(** The number of binary digits of a positive number. *)
Lemma digits2_bounds (p : positive) :
  2 ^ (Z.pos (digits2_pos p) - 1) <= Z.pos p < 2 ^ Z.pos (digits2_pos p).
Proof.
  induction p as [p IH|p IH|]; simpl digits2_pos.
  - rewrite Pos2Z.inj_succ, Z.pow_succ_r by lia.
    replace (Z.succ (Z.pos (digits2_pos p)) - 1) with (Z.succ (Z.pos (digits2_pos p) - 1)) by lia.
    rewrite Z.pow_succ_r by lia. lia.
  - rewrite Pos2Z.inj_succ, Z.pow_succ_r by lia.
    replace (Z.succ (Z.pos (digits2_pos p)) - 1) with (Z.succ (Z.pos (digits2_pos p) - 1)) by lia.
    rewrite Z.pow_succ_r by lia. lia.
  - simpl. lia.
Qed.

Lemma digits2_unique (p : positive) (d : Z) :
  2 ^ (d - 1) <= Z.pos p < 2 ^ d -> Z.pos (digits2_pos p) = d.
Proof.
  intros [Hlo Hhi]. pose proof (digits2_bounds p) as [Hlo' Hhi'].
  assert (0 < d).
  { destruct (Z.ltb_spec 0 d); [lia|]. exfalso.
    assert (2 ^ d <= 1).
    { destruct (Z.eqb_spec d 0) as [->|]; [simpl; lia|].
      rewrite Z.pow_neg_r by lia. lia. }
    lia. }
  destruct (Z.lt_trichotomy (Z.pos (digits2_pos p)) d) as [Hlt|[Heq|Hgt]]; [|exact Heq|].
  - exfalso. assert (2 ^ Z.pos (digits2_pos p) <= 2 ^ (d - 1))
      by (apply Z.pow_le_mono_r; lia). lia.
  - exfalso. assert (2 ^ d <= 2 ^ (Z.pos (digits2_pos p) - 1))
      by (apply Z.pow_le_mono_r; lia). lia.
Qed.

(** Shifting right by [n] bits divides the mantissa by [2^n]; the round
    and sticky bits only record what was shifted out. *)
Lemma shr_1_m (mrs : shr_record) :
  0 <= shr_m mrs -> shr_m (shr_1 mrs) = shr_m mrs / 2.
Proof.
  destruct mrs as [m r s]; simpl. intros Hm.
  rewrite <- Z.div2_div. destruct m as [|[p|p|]|p]; try reflexivity; lia.
Qed.

Lemma iter_shr_1_m (p : positive) (mrs : shr_record) :
  0 <= shr_m mrs ->
  shr_m (iter_pos shr_1 p mrs) = shr_m mrs / 2 ^ Z.pos p.
Proof.
  revert mrs. induction p as [p IH|p IH|]; intros mrs Hm; simpl iter_pos.
  - assert (H1 : 0 <= shr_m (shr_1 mrs)) by (rewrite shr_1_m by lia; apply Z.div_pos; lia).
    assert (H2 : 0 <= shr_m (iter_pos shr_1 p (shr_1 mrs)))
      by (rewrite IH by lia; apply Z.div_pos; [lia | apply Z.pow_pos_nonneg; lia]).
    rewrite IH, IH, shr_1_m by lia.
    rewrite !Z.div_div by (try lia; apply Z.pow_pos_nonneg; lia).
    f_equal. rewrite Pos2Z.inj_xI, <- Z.pow_add_r, <- Z.pow_succ_r by lia. f_equal. lia.
  - assert (H2 : 0 <= shr_m (iter_pos shr_1 p mrs))
      by (rewrite IH by lia; apply Z.div_pos; [lia | apply Z.pow_pos_nonneg; lia]).
    rewrite IH, IH by lia.
    rewrite !Z.div_div by (try lia; apply Z.pow_pos_nonneg; lia).
    f_equal. rewrite Pos2Z.inj_xO, <- Z.pow_add_r by lia. f_equal. lia.
  - rewrite shr_1_m by lia. reflexivity.
Qed.

Lemma shr_spec (mrs : shr_record) (e n : Z) :
  0 <= shr_m mrs -> 0 <= n ->
  shr_m (shr mrs e n).1 = shr_m mrs / 2 ^ n /\ (shr mrs e n).2 = e + n.
Proof.
  intros Hm Hn. unfold shr. destruct n as [|p|p]; simpl; try lia.
  - rewrite Z.div_1_r. lia.
  - split; [|reflexivity]. now apply iter_shr_1_m.
Qed.

Lemma shr_m_of_loc (m : Z) (l : location) : shr_m (shr_record_of_loc m l) = m.
Proof. destruct l as [|[]]; reflexivity. Qed.

(** Rounding keeps the truncated mantissa or takes the next one. *)
Lemma round_nearest_even_bounds (m : Z) (l : location) :
  m <= round_nearest_even m l <= m + 1.
Proof. unfold round_nearest_even. destruct l as [|[]]; try destruct (Z.even m); lia. Qed.

Lemma pow2_pos (n : Z) : 0 <= n -> 0 < 2 ^ n.
Proof. intros. apply Z.pow_pos_nonneg; lia. Qed.

(** One rounding, away from underflow and overflow: the result is a
    53-bit mantissa [m] at an exponent [e >= ex] with [m * 2^(e - ex)] within
    one unit [2^(e - ex)] of the mantissa that was rounded, and that unit is
    at most the [2^51]-th part of it. *)
Lemma binary_round_aux_faithful (mx : positive) (ex : Z) (lx : location) :
  let d := Z.pos (digits2_pos mx) in
  53 <= d -> -1074 <= ex + d - 53 -> ex + d - 53 < 971 ->
  exists m e,
    binary_round_aux 53 1024 false (Z.pos mx) ex lx = S754_finite false m e
    /\ ex <= e <= ex + (d - 52)
    /\ Z.pos mx - 2 ^ (e - ex) <= Z.pos m * 2 ^ (e - ex) <= Z.pos mx + 2 ^ (e - ex)
    /\ 2 ^ (e - ex) * 2 ^ 51 <= Z.pos mx
    /\ 2 ^ 52 <= Z.pos m < 2 ^ 53.
Proof.
  intros d Hd Hlo Hhi.
  pose proof (digits2_bounds mx) as Hmx. fold d in Hmx.
  set (k := d - 53).
  assert (Hk : 0 <= k) by (unfold k; lia).
  assert (Hdk : d - 1 = k + 52) by (unfold k; lia).
  rewrite Hdk in Hmx. replace d with (k + 53) in Hmx by (unfold k; lia).
  rewrite !Z.pow_add_r in Hmx by lia.
  pose proof (pow2_pos k Hk) as H2k.
  unfold binary_round_aux, shr_fexp.
  assert (Hf : fexp 53 1024 (Zdigits2 (Z.pos mx) + ex) - ex = k).
  { unfold fexp, emin. simpl Zdigits2. fold d. unfold k. lia. }
  rewrite Hf.
  pose proof (shr_spec (shr_record_of_loc (Z.pos mx) lx) ex k) as Hs.
  rewrite shr_m_of_loc in Hs. destruct Hs as [Hm' He']; [lia..|].
  destruct (shr (shr_record_of_loc (Z.pos mx) lx) ex k) as [mrs' e'] eqn:E1.
  simpl in Hm', He'. subst e'.
  set (m' := shr_m mrs') in *.
  assert (Hm'b : 2 ^ 52 <= m' < 2 ^ 53).
  { rewrite Hm'. split.
    - apply Z.div_le_lower_bound; lia.
    - apply Z.div_lt_upper_bound; lia. }
  assert (Hm'k : m' * 2 ^ k <= Z.pos mx < (m' + 1) * 2 ^ k).
  { rewrite Hm'. pose proof (Z.div_mod (Z.pos mx) (2 ^ k) ltac:(lia)).
    pose proof (Z.mod_pos_bound (Z.pos mx) (2 ^ k) H2k). nia. }
  pose proof (round_nearest_even_bounds m' (loc_of_shr_record mrs')) as Hm1.
  set (m1 := round_nearest_even m' (loc_of_shr_record mrs')) in *.
  destruct (Z.ltb_spec m1 (2 ^ 53)) as [Hlt|Hge].
  - destruct m1 as [|pm1|pm1] eqn:Em1; try lia.
    assert (Hd1 : Z.pos (digits2_pos pm1) = 53) by (apply digits2_unique; lia).
    assert (Hf1 : fexp 53 1024 (Zdigits2 (Z.pos pm1) + (ex + k)) - (ex + k) = 0).
    { unfold fexp, emin. simpl Zdigits2. rewrite Hd1. unfold k. lia. }
    rewrite Hf1. simpl.
    replace (ex + k <=? 1024 - 53) with true by (symmetry; apply Z.leb_le; unfold k; lia).
    exists pm1, (ex + k). replace (ex + k - ex) with k by lia.
    split; [reflexivity|]. split; [unfold k; lia|].
    split; [nia|]. split; [nia|lia].
  - assert (Em1 : m1 = 2 ^ 53) by lia. rewrite Em1.
    change (2 ^ 53) with 9007199254740992.
    assert (Hf1 : fexp 53 1024 (Zdigits2 9007199254740992 + (ex + k)) - (ex + k) = 1).
    { unfold fexp, emin. simpl Zdigits2. unfold k. lia. }
    rewrite Hf1. simpl.
    replace (ex + k + 1 <=? 1024 - 53) with true by (symmetry; apply Z.leb_le; unfold k; lia).
    exists 4503599627370496%positive, (ex + k + 1).
    replace (ex + k + 1 - ex) with (k + 1) by lia.
    rewrite Z.pow_add_r by lia. change (2 ^ 1) with 2.
    change (2 ^ 53) with 9007199254740992 in *.
    change (2 ^ 52) with 4503599627370496 in *.
    change (2 ^ 51) with 2251799813685248 in *.
    split; [reflexivity|]. split; [unfold k; lia|].
    split; [nia|]. split; [nia|lia].
Qed.

(** A 53-bit mantissa that is exact is left as it is. *)
Lemma binary_round_aux_exact (mx : positive) (ex : Z) :
  Z.pos (digits2_pos mx) = 53 -> -1074 <= ex <= 971 ->
  binary_round_aux 53 1024 false (Z.pos mx) ex loc_Exact = S754_finite false mx ex.
Proof.
  intros Hd He. unfold binary_round_aux, shr_fexp.
  assert (Hf : fexp 53 1024 (Zdigits2 (Z.pos mx) + ex) - ex = 0).
  { unfold fexp, emin. simpl Zdigits2. rewrite Hd. lia. }
  rewrite Hf. simpl. rewrite Hd.
  assert (Hf' : fexp 53 1024 (53 + ex) - ex = 0) by (unfold fexp, emin; lia).
  rewrite Hf'. simpl.
  replace (ex <=? 1024 - 53) with true by (symmetry; apply Z.leb_le; lia).
  reflexivity.
Qed.

(** The integer quotient computed by the division has 53 or 54 bits. *)
Lemma quotient_bounds (M e q r S PM Pe : Z) :
  0 < e -> 0 < S -> 0 < PM -> 0 < Pe ->
  q * e + r = M * S -> 0 <= r < e ->
  PM <= M < 2 * PM -> Pe <= e < 2 * Pe ->
  S * PM = 9007199254740992 * Pe ->
  4503599627370496 <= q < 18014398509481984.
Proof.
  intros He HS HPM HPe Hq Hr HM Hee HS2.
  assert (H1 : PM * S <= M * S) by (apply Z.mul_le_mono_nonneg_r; lia).
  assert (H2 : M * S < 2 * PM * S) by (apply Z.mul_lt_mono_pos_r; lia).
  assert (H3 : 4503599627370496 * e < q * e + e) by lia.
  assert (H4 : q * e < 18014398509481984 * e) by lia.
  split.
  - assert (4503599627370496 < q + 1); [|lia].
    apply (Z.mul_lt_mono_pos_r e); lia.
  - apply (Z.mul_lt_mono_pos_r e); lia.
Qed.

(** From the rounded quotient to the scale: [ms / B] is within the
    [2^50]-th part of [M / e]. *)
Lemma scale_error (ms e M B T q r : Z) :
  0 < e -> 0 < M -> 0 < B -> 1 <= T ->
  q - T <= ms * T <= q + T ->
  T * 2251799813685248 <= q ->
  q * e + r = M * (B * T) -> 0 <= r < e ->
  - (M * B) <= (ms * e - M * B) * 1125899906842624 <= M * B.
Proof.
  intros He HM HB HT Hms Hmag Hq Hr.
  set (x := ms * e - M * B).
  assert (Hx : x * T = ms * T * e - q * e - r) by (unfold x; lia).
  assert (Ha : ms * T * e <= (q + T) * e) by (apply Z.mul_le_mono_nonneg_r; lia).
  assert (Hb : (q - T) * e <= ms * T * e) by (apply Z.mul_le_mono_nonneg_r; lia).
  assert (Hc : e <= e * T) by (rewrite <- (Z.mul_1_r e) at 1; apply Z.mul_le_mono_nonneg_l; lia).
  assert (Hx1 : x * T <= e * T) by lia.
  assert (Hx2 : (- 2 * e) * T <= x * T) by lia.
  assert (Hd : T * 2251799813685248 * e <= q * e) by (apply Z.mul_le_mono_nonneg_r; lia).
  assert (Hx3 : (2251799813685248 * e) * T <= (M * B) * T) by lia.
  apply Z.mul_le_mono_pos_r in Hx1; [|lia].
  apply Z.mul_le_mono_pos_r in Hx2; [|lia].
  apply Z.mul_le_mono_pos_r in Hx3; [|lia].
  lia.
Qed.

(** [float(w)] is exact for [w < 2^53]: the mantissa is [w] shifted to 53
    bits. *)
Lemma iter_xO_pow (p d : positive) :
  Z.pos (Pos.iter xO p d) = Z.pos p * 2 ^ Z.pos d.
Proof.
  induction d as [|d IH] using Pos.peano_ind.
  - simpl. lia.
  - rewrite Pos.iter_succ, Pos2Z.inj_xO, IH, Pos2Z.inj_succ, Z.pow_succ_r by lia. lia.
Qed.

Lemma digits2_le (p : positive) (n : Z) :
  0 <= n -> Z.pos p < 2 ^ n -> Z.pos (digits2_pos p) <= n.
Proof.
  intros Hn Hp. pose proof (digits2_bounds p) as [Hlo _].
  destruct (Z.leb_spec (Z.pos (digits2_pos p)) n); [lia|]. exfalso.
  assert (2 ^ n <= 2 ^ (Z.pos (digits2_pos p) - 1)) by (apply Z.pow_le_mono_r; lia).
  lia.
Qed.

Lemma of_int_exact (w : positive) :
  Z.pos w < 2 ^ 53 ->
  exists mw ew,
    PyFloat.of_int (Z.pos w) = inr (S754_finite false mw ew)
    /\ -52 <= ew <= 0
    /\ Z.pos mw = Z.pos w * 2 ^ (- ew)
    /\ Z.pos (digits2_pos mw) = 53.
Proof.
  intros Hw. pose proof (digits2_bounds w) as Hb.
  pose proof (digits2_le w 53 ltac:(lia) Hw) as Hd.
  unfold PyFloat.of_int, PyFloat.prec, PyFloat.emax, binary_normalize, binary_round.
  assert (Hf : fexp 53 1024 (Z.pos (digits2_pos w) + 0) = Z.pos (digits2_pos w) - 53)
    by (unfold fexp, emin; lia).
  rewrite Hf. unfold shl_align.
  destruct (Z.pos (digits2_pos w) - 53 - 0) as [|sp|sp] eqn:Es; try lia.
  - assert (Hd53 : Z.pos (digits2_pos w) = 53) by lia.
    rewrite binary_round_aux_exact by lia.
    exists w, 0. split; [reflexivity|]. split; [lia|]. split; [|exact Hd53].
    change (- 0) with 0. rewrite Z.pow_0_r. symmetry; apply Z.mul_1_r.
  - assert (Hsp : Z.pos sp = 53 - Z.pos (digits2_pos w)) by lia.
    assert (Hm : Z.pos (Pos.iter xO w sp) = Z.pos w * 2 ^ Z.pos sp) by apply iter_xO_pow.
    assert (Hdm : Z.pos (digits2_pos (Pos.iter xO w sp)) = 53).
    { apply digits2_unique. rewrite Hm.
      assert (E1 : 2 ^ (53 - 1) = 2 ^ (Z.pos (digits2_pos w) - 1) * 2 ^ Z.pos sp)
        by (rewrite <- Z.pow_add_r by lia; f_equal; lia).
      assert (E2 : 2 ^ 53 = 2 ^ Z.pos (digits2_pos w) * 2 ^ Z.pos sp)
        by (rewrite <- Z.pow_add_r by lia; f_equal; lia).
      rewrite E1, E2. pose proof (pow2_pos (Z.pos sp) ltac:(lia)).
      split; [apply Z.mul_le_mono_nonneg_r | apply Z.mul_lt_mono_pos_r]; lia. }
    rewrite binary_round_aux_exact by lia.
    exists (Pos.iter xO w sp), (Z.pos (digits2_pos w) - 53).
    split; [reflexivity|]. split; [lia|]. split; [|exact Hdm].
    rewrite Hm. f_equal. f_equal. lia.
Qed.

(** [M / e] for [M < e < 2^50]: a float [ms * 2^es] whose distance from
    the exact quotient is at most its [2^50]-th part, stated after
    multiplying by [e * 2^(-es)]. *)
Lemma truediv_faithful (M e : positive) :
  Z.pos M < Z.pos e -> Z.pos e < 2 ^ 50 ->
  exists ms es,
    PyFloat.truediv (Z.pos M) (Z.pos e) = inr (S754_finite false ms es)
    /\ -105 <= es <= -51
    /\ 2 ^ 52 <= Z.pos ms < 2 ^ 53
    /\ - (Z.pos M * 2 ^ (- es))
       <= (Z.pos ms * Z.pos e - Z.pos M * 2 ^ (- es)) * 2 ^ 50
       <= Z.pos M * 2 ^ (- es).
Proof.
  intros HMe He.
  pose proof (digits2_bounds M) as HbM. pose proof (digits2_bounds e) as Hbe.
  set (dM := Z.pos (digits2_pos M)) in *. set (de := Z.pos (digits2_pos e)) in *.
  assert (Hde : de <= 50) by (apply digits2_le; lia).
  assert (HdM : dM <= de).
  { apply digits2_le; [unfold de; lia|]. lia. }
  assert (HdM1 : 1 <= dM) by (unfold dM; lia).
  unfold PyFloat.truediv, PyFloat.prec, PyFloat.emax. simpl Z.eqb. cbv iota.
  unfold PyFloat.exact_of_int, SFdiv, SFdiv_core_binary. simpl Zdigits2.
  fold dM de.
  assert (He' : Z.min (fexp 53 1024 (dM + 0 - (de + 0))) (0 - 0) = dM - de - 53)
    by (unfold fexp, emin; lia).
  rewrite He'.
  set (s := 53 + de - dM).
  replace (0 - 0 - (dM - de - 53)) with s by (unfold s; lia).
  assert (Hs : 53 <= s <= 102) by (unfold s; lia).
  destruct s as [|sp|sp] eqn:Es; try lia. rewrite <- Es in *.
  rewrite Z.shiftl_mul_pow2 by lia.
  pose proof (Z.div_mod (Z.pos M * 2 ^ s) (Z.pos e) ltac:(lia)) as Hdm.
  pose proof (Z.mod_pos_bound (Z.pos M * 2 ^ s) (Z.pos e) ltac:(lia)) as Hmb.
  unfold Z.div, Z.modulo in Hdm, Hmb.
  destruct (Z.div_eucl (Z.pos M * 2 ^ s) (Z.pos e)) as [q r].
  assert (H2s : 2 ^ s * 2 ^ (dM - 1) = 2 ^ 53 * 2 ^ (de - 1)).
  { rewrite <- !Z.pow_add_r by lia. f_equal. unfold s in *. lia. }
  assert (H2dM : 2 ^ dM = 2 * 2 ^ (dM - 1)).
  { rewrite <- Z.pow_succ_r by lia. f_equal. lia. }
  assert (H2de : 2 ^ de = 2 * 2 ^ (de - 1)).
  { rewrite <- Z.pow_succ_r by lia. f_equal. lia. }
  pose proof (pow2_pos s ltac:(lia)) as Hps.
  pose proof (pow2_pos (dM - 1) ltac:(lia)) as HpM.
  pose proof (pow2_pos (de - 1) ltac:(lia)) as Hpe.
  assert (Hq : 4503599627370496 <= q < 18014398509481984).
  { apply (quotient_bounds (Z.pos M) (Z.pos e) q r (2 ^ s) (2 ^ (dM - 1)) (2 ^ (de - 1)));
      lia. }
  destruct q as [|pq|pq]; try lia.
  pose proof (digits2_bounds pq) as Hbq.
  assert (Hdq : 53 <= Z.pos (digits2_pos pq) <= 54).
  { split.
    - destruct (Z.leb_spec 53 (Z.pos (digits2_pos pq))); [lia|]. exfalso.
      assert (2 ^ Z.pos (digits2_pos pq) <= 2 ^ 52) by (apply Z.pow_le_mono_r; lia).
      change (2 ^ 52) with 4503599627370496 in *. lia.
    - apply digits2_le; [lia|]. change (2 ^ 54) with 18014398509481984. lia. }
  destruct (binary_round_aux_faithful pq (dM - de - 53) (new_location (Z.pos e) r))
    as (ms & es & Hr & Hes & Hms & Hmag & Hnorm); [lia..|].
  simpl xorb. rewrite Hr. exists ms, es.
  split; [reflexivity|]. split; [lia|]. split; [exact Hnorm|].
  set (t := es - (dM - de - 53)) in *.
  assert (Ht : 0 <= t) by (unfold t; lia).
  assert (Hses : s = - es + t) by (unfold s, t in *; lia).
  assert (HBT : 2 ^ s = 2 ^ (- es) * 2 ^ t)
    by (rewrite Hses, Z.pow_add_r by lia; reflexivity).
  rewrite HBT in Hdm.
  pose proof (pow2_pos t ltac:(lia)) as Hpt.
  pose proof (pow2_pos (- es) ltac:(lia)) as Hpes.
  apply (scale_error (Z.pos ms) (Z.pos e) (Z.pos M) (2 ^ (- es)) (2 ^ t) (Z.pos pq) r);
    try lia.
Qed.

Lemma digits2_ge (p : positive) (n : Z) :
  2 ^ n <= Z.pos p -> n + 1 <= Z.pos (digits2_pos p).
Proof.
  intros Hp. pose proof (digits2_bounds p) as [_ Hhi].
  destruct (Z.leb_spec (n + 1) (Z.pos (digits2_pos p))); [lia|]. exfalso.
  assert (2 ^ Z.pos (digits2_pos p) <= 2 ^ n) by (apply Z.pow_le_mono_r; lia).
  lia.
Qed.

(** [int(x)] of a positive float, against the common scale [U]. *)
Lemma to_int_floor (mr : positive) (er ep : Z) :
  ep <= er -> ep <= 0 ->
  exists n,
    PyFloat.to_int (S754_finite false mr er) = inr n
    /\ 0 <= n
    /\ n * 2 ^ (- ep) <= Z.pos mr * 2 ^ (er - ep) < (n + 1) * 2 ^ (- ep).
Proof.
  intros Hle Hep. unfold PyFloat.to_int. simpl cond_Zopp.
  destruct (Z.leb_spec 0 er) as [Her|Her].
  - exists (Z.pos mr * 2 ^ er). split; [reflexivity|].
    pose proof (pow2_pos er Her). pose proof (pow2_pos (- ep) ltac:(lia)).
    replace (er - ep) with (er + - ep) by lia. rewrite Z.pow_add_r by lia.
    split; [lia|]. split; [lia|].
    rewrite Z.mul_assoc. apply Z.mul_lt_mono_pos_r; lia.
  - exists (Z.pos mr / 2 ^ (- er)). split; [reflexivity|].
    pose proof (pow2_pos (- er) ltac:(lia)) as HD.
    pose proof (pow2_pos (er - ep) ltac:(lia)) as HT.
    pose proof (Z.div_mod (Z.pos mr) (2 ^ (- er)) ltac:(lia)) as Hdm.
    pose proof (Z.mod_pos_bound (Z.pos mr) (2 ^ (- er)) HD) as Hmb.
    replace (- ep) with (- er + (er - ep)) by lia. rewrite Z.pow_add_r by lia.
    set (n := Z.pos mr / 2 ^ (- er)) in *. set (D := 2 ^ (- er)) in *.
    set (T := 2 ^ (er - ep)) in *. set (rem := Z.pos mr mod D) in *.
    split; [apply Z.div_pos; lia|].
    assert (H1 : n * D <= Z.pos mr) by lia.
    assert (H2 : Z.pos mr < (n + 1) * D) by lia.
    rewrite !Z.mul_assoc. split.
    + apply Z.mul_le_mono_nonneg_r; lia.
    + apply Z.mul_lt_mono_pos_r; lia.
Qed.

(** The two relative errors, of the division and of the product, move
    [int(w * scale)] by less than one past [w * M / e] on either side when
    [w * M < 2^48]. *)
Lemma product_upper (n e w M B ms : Z) :
  0 < e -> 0 < B -> 0 <= w -> 0 <= ms -> 0 <= M ->
  n * B * 2251799813685248 <= w * ms * 2251799813685249 ->
  ms * e * 1125899906842624 <= M * B * 1125899906842625 ->
  w * M < 281474976710656 ->
  n * e <= w * M.
Proof.
  intros He HB Hw Hms HM H1 H2 H3.
  assert (E1 : n * B * 2251799813685248 * (e * 1125899906842624)
               <= w * ms * 2251799813685249 * (e * 1125899906842624))
    by (apply Z.mul_le_mono_nonneg_r; lia).
  assert (E2 : ms * e * 1125899906842624 * (w * 2251799813685249)
               <= M * B * 1125899906842625 * (w * 2251799813685249))
    by (apply Z.mul_le_mono_nonneg_r; lia).
  assert (E3 : (n * e * 2535301200456458802993406410752) * B
               <= (w * M * 2535301200456462180693126938625) * B) by lia.
  apply Z.mul_le_mono_pos_r in E3; [|lia]. lia.
Qed.

Lemma product_lower (n e w M B ms : Z) :
  0 < e -> 0 < B -> 0 <= w -> 0 <= ms -> 0 <= M ->
  w * ms * 2251799813685247 < (n + 1) * B * 2251799813685248 ->
  M * B * 1125899906842623 <= ms * e * 1125899906842624 ->
  w * M < 281474976710656 ->
  w * M <= (n + 1) * e.
Proof.
  intros He HB Hw Hms HM H1 H2 H3.
  assert (E1 : w * ms * 2251799813685247 * (e * 1125899906842624)
               < (n + 1) * B * 2251799813685248 * (e * 1125899906842624))
    by (apply Z.mul_lt_mono_pos_r; lia).
  assert (E2 : M * B * 1125899906842623 * (w * 2251799813685247)
               <= ms * e * 1125899906842624 * (w * 2251799813685247))
    by (apply Z.mul_le_mono_nonneg_r; lia).
  assert (E3 : (w * M * 2535301200456455425293685882881) * B
               < ((n + 1) * e * 2535301200456458802993406410752) * B) by lia.
  apply Z.mul_lt_mono_pos_r in E3; [|lia]. lia.
Qed.

(** [int(w * scale)] for a scale within 2^-50 of [M / e]. *)
Lemma mul_to_int_bounds (w M e ms : positive) (es : Z) :
  -105 <= es <= -51 ->
  2 ^ 52 <= Z.pos ms < 2 ^ 53 ->
  - (Z.pos M * 2 ^ (- es))
    <= (Z.pos ms * Z.pos e - Z.pos M * 2 ^ (- es)) * 2 ^ 50
    <= Z.pos M * 2 ^ (- es) ->
  Z.pos w < 2 ^ 50 ->
  Z.pos w * Z.pos M < 2 ^ 48 ->
  exists n,
    (PyFloat.mul_int (Z.pos w) (S754_finite false ms es) ≫= PyFloat.to_int) = inr n
    /\ 0 <= n
    /\ Z.pos w * Z.pos M / Z.pos e - 1 <= n <= Z.pos w * Z.pos M / Z.pos e.
Proof.
  intros Hes Hms Hscale Hw HwM.
  destruct (of_int_exact w) as (mw & ew & Hof & Hew & Hmw & Hdw); [lia|].
  pose proof (digits2_bounds mw) as Hbw. rewrite Hdw in Hbw.
  change (2 ^ (53 - 1)) with (2 ^ 52) in Hbw.
  unfold PyFloat.mul_int. rewrite Hof.
  unfold mbind, result_bind, mret, result_ret.
  unfold SFmul, PyFloat.prec, PyFloat.emax. simpl xorb.
  (* the exact product has 105 or 106 digits *)
  assert (Hmp : 2 ^ 104 <= Z.pos (mw * ms) < 2 ^ 106).
  { rewrite Pos2Z.inj_mul.
    change (2 ^ 104) with (2 ^ 52 * 2 ^ 52). change (2 ^ 106) with (2 ^ 53 * 2 ^ 53).
    split.
    - apply Z.mul_le_mono_nonneg; lia.
    - apply Z.mul_lt_mono_nonneg; lia. }
  assert (Hdp : 105 <= Z.pos (digits2_pos (mw * ms)) <= 106).
  { split; [apply (digits2_ge _ 104) | apply digits2_le]; lia. }
  destruct (binary_round_aux_faithful (mw * ms) (ew + es) loc_Exact)
    as (mr & er & Hr & Her & Hmr & Hmag & _); [lia..|].
  rewrite Hr.
  destruct (to_int_floor mr er (ew + es)) as (n & Hn & Hn0 & Hfl); [lia..|].
  exists n. split; [exact Hn|]. split; [exact Hn0|].
  (* everything on the common scale A * B *)
  set (A := 2 ^ (- ew)) in *. set (B := 2 ^ (- es)) in *.
  set (T := 2 ^ (er - (ew + es))) in *.
  assert (HA : 0 < A) by (apply pow2_pos; lia).
  assert (HB : 0 < B) by (apply pow2_pos; lia).
  assert (HT : 0 < T) by (apply pow2_pos; lia).
  assert (HU : 2 ^ (- (ew + es)) = A * B).
  { unfold A, B. rewrite <- Z.pow_add_r by lia. f_equal. lia. }
  rewrite HU in Hfl. rewrite Pos2Z.inj_mul, Hmw in Hmr, Hmag.
  change (2 ^ 51) with 2251799813685248 in Hmag.
  change (2 ^ 50) with 1125899906842624 in Hscale.
  change (2 ^ 48) with 281474976710656 in HwM.
  set (W := Z.pos w) in *. set (S := Z.pos ms) in *.
  assert (H1 : (n * B * 2251799813685248) * A <= (W * S * 2251799813685249) * A) by lia.
  assert (H2 : (W * S * 2251799813685247) * A < ((n + 1) * B * 2251799813685248) * A) by lia.
  apply Z.mul_le_mono_pos_r in H1; [|lia].
  apply Z.mul_lt_mono_pos_r in H2; [|lia].
  assert (Hup : n * Z.pos e <= W * Z.pos M).
  { apply (product_upper n (Z.pos e) W (Z.pos M) B S); lia. }
  assert (Hlo : W * Z.pos M <= (n + 1) * Z.pos e).
  { apply (product_lower n (Z.pos e) W (Z.pos M) B S); lia. }
  split.
  - assert (W * Z.pos M / Z.pos e <= n + 1); [|lia].
    apply Z.div_le_upper_bound; lia.
  - apply Z.div_le_lower_bound; lia.
Qed.

End FloatFacts.

(** C1: when the canonical form of [WORKSPACE_ROOT / p] is neither the root
    nor nested under it, resolution raises the containment error, whose
    message names the configured root; this holds whatever [os.stat] would
    answer, so the failure is never the not-found one. *)
Theorem outside_root_rejected_before_existence
    (W : World) (p : string) (c : Path)
    (st : string -> result (option file_kind)) :
  @resolve W (PurePath.joinpath WORKSPACE_ROOT (PurePath.of_string p)) = inr c ->
  ~ PurePath.under c WORKSPACE_ROOT ->
  @_resolve_workspace_path (with_stat W st) p
    = inl (ValueError ("Path must be within workspace root: "
                       +:+ PurePath.str (@WORKSPACE_ROOT W)))
  /\ forall candidate, @_resolve_workspace_path (with_stat W st) p <> inl (NotFound candidate).
Proof.
  intros Hc Hout.
  assert (H : @_resolve_workspace_path (with_stat W st) p = inl (@OutsideRoot W)).
  { rewrite (@resolve_workspace_path_cases (with_stat W st) p c Hc).
    apply relative_to_None in Hout. simpl. now rewrite Hout. }
  split; [exact H|]. intros candidate. rewrite H. discriminate.
Qed.

Lemma outside_root_rejected_before_existence_witness :
  @_resolve_workspace_path (Demo.world 1600 (Demo.ok "")) "../../etc/passwd"
    = inl (ValueError "Path must be within workspace root: /work")
  /\ @_resolve_workspace_path
       (with_stat (Demo.world 1600 (Demo.ok "")) (fun _ => inr None)) "../../etc/passwd"
    = inl (ValueError "Path must be within workspace root: /work").
Proof.
  pose (c := {| PurePath.root := PurePath.Root1; PurePath.parts := ["etc"; "passwd"] |}).
  assert (Hout : ~ PurePath.under c (@WORKSPACE_ROOT (Demo.world 1600 (Demo.ok "")))).
  { intros [_ [rest Hp]]. discriminate Hp. }
  split.
  - exact (proj1 (outside_root_rejected_before_existence
                    (Demo.world 1600 (Demo.ok "")) "../../etc/passwd" c
                    Demo.stat eq_refl Hout)).
  - exact (proj1 (outside_root_rejected_before_existence
                    (Demo.world 1600 (Demo.ok "")) "../../etc/passwd" c
                    (fun _ => inr None) eq_refl Hout)).
Defined.

(** C5: a path inside the root that exists and whose extension, compared
    in lower case, is not in the allow-list is refused with the
    unsupported-type error, whose message gives the extension as written. *)
Theorem unsupported_extension_rejected
    (W : World) (p : string) (c : Path) (k : file_kind) :
  resolve (PurePath.joinpath WORKSPACE_ROOT (PurePath.of_string p)) = inr c ->
  PurePath.under c WORKSPACE_ROOT ->
  os_stat (PurePath.str c) = inr (Some k) ->
  PyStr.lower (PurePath.suffix c) ∉ allowed_suffixes ->
  _resolve_workspace_path p
    = inl (ValueError ("Unsupported image type: " +:+ PurePath.suffix c)).
Proof.
  intros Hc Hin Hst Hsuf.
  rewrite (resolve_workspace_path_cases p c Hc).
  apply relative_to_under in Hin as [rel ->]. rewrite Hst.
  rewrite bool_decide_eq_false_2 by exact Hsuf. reflexivity.
Qed.

Lemma unsupported_extension_rejected_witness :
  @_resolve_workspace_path (Demo.world 1600 (Demo.ok "")) "shot.gif"
    = inl (ValueError "Unsupported image type: .gif").
Proof.
  apply (unsupported_extension_rejected (Demo.world 1600 (Demo.ok "")) "shot.gif"
           {| PurePath.root := PurePath.Root1; PurePath.parts := ["work"; "shot.gif"] |}
           RegularFile).
  - reflexivity.
  - split; [reflexivity | exists ["shot.gif"]; reflexivity].
  - reflexivity.
  - vm_compute. intros H. repeat (inversion H as [|? ? ? H']; clear H; rename H' into H).
Defined.

(** C3, as the claim states it, fails: a directory inside the root whose
    name carries an allowed extension is returned as a validated path, and
    a directory without one is refused for its extension, not as missing. *)
Lemma directory_is_not_reported_missing :
  @os_stat (Demo.world 1600 (Demo.ok "")) "/work/frames.png" = inr (Some Directory)
  /\ @_resolve_workspace_path (Demo.world 1600 (Demo.ok "")) "frames.png"
     = inr {| PurePath.root := PurePath.Root1; PurePath.parts := ["work"; "frames.png"] |}
  /\ @os_stat (Demo.world 1600 (Demo.ok "")) "/work/assets" = inr (Some Directory)
  /\ @_resolve_workspace_path (Demo.world 1600 (Demo.ok "")) "assets"
     = inl (ValueError "Unsupported image type: ").
Proof. repeat split; reflexivity. Qed.

(** C3, amended: a canonical path inside the root at which [os.stat] finds
    nothing is refused with the not-found error, and a validated path is only
    ever produced for a path inside the root at which something exists. *)
Theorem missing_path_not_found
    (W : World) (p : string) (c : Path) :
  (resolve (PurePath.joinpath WORKSPACE_ROOT (PurePath.of_string p)) = inr c ->
   PurePath.under c WORKSPACE_ROOT ->
   os_stat (PurePath.str c) = inr None ->
   _resolve_workspace_path p
     = inl (FileNotFoundError ("File not found: " +:+ PurePath.str c)))
  /\ (_resolve_workspace_path p = inr c ->
      PurePath.under c WORKSPACE_ROOT
      /\ exists k, os_stat (PurePath.str c) = inr (Some k)).
Proof.
  split.
  - intros Hc Hin Hst. rewrite (resolve_workspace_path_cases p c Hc).
    apply relative_to_under in Hin as [rel ->]. now rewrite Hst.
  - intros H. apply resolve_workspace_path_inr in H as (_ & Hrel & Hk & _).
    split; [|exact Hk]. apply relative_to_under. destruct Hrel as [rel ->]. eauto.
Qed.

Lemma missing_path_not_found_witness :
  @_resolve_workspace_path (Demo.world 1600 (Demo.ok "")) "nope.png"
    = inl (FileNotFoundError "File not found: /work/nope.png")
  /\ exists k, @os_stat (Demo.world 1600 (Demo.ok "")) "/work/shot.png" = inr (Some k).
Proof.
  split.
  - apply (proj1 (missing_path_not_found (Demo.world 1600 (Demo.ok "")) "nope.png"
             {| PurePath.root := PurePath.Root1; PurePath.parts := ["work"; "nope.png"] |})).
    + reflexivity.
    + split; [reflexivity | exists ["nope.png"]; reflexivity].
    + reflexivity.
  - apply (proj2 (missing_path_not_found (Demo.world 1600 (Demo.ok "")) "shot.png"
             {| PurePath.root := PurePath.Root1; PurePath.parts := ["work"; "shot.png"] |})).
    reflexivity.
Defined.

(** ** The chat call and the three tools *)
Section ToolFacts.
Context {W : World}.
Import PurePath.

Lemma chat_run (b64 prompt : string) (jm : bool) (log : list Request) :
  _ollama_chat_with_image b64 prompt jm log
  = (backend (chat_request b64 prompt jm) ≫= read_reply,
     (log ++ [chat_request b64 prompt jm])%list).
Proof.
  unfold _ollama_chat_with_image, requests_post, read_reply, chat_request, lift.
  unfold mbind at 1. unfold M_bind.
  destruct (backend _); reflexivity.
Qed.

Lemma tool_result_lookup (image k : string) (v : pyval) :
  k <> "model" -> k <> "image" ->
  tool_result image k v !! "model" = Some (PStr OLLAMA_MODEL)
  /\ tool_result image k v !! "image" = Some (PStr image)
  /\ tool_result image k v !! k = Some v
  /\ forall k', k' <> "model" -> k' <> "image" -> k' <> k ->
                tool_result image k v !! k' = None.
Proof.
  intros Hm Hi. unfold tool_result. repeat split.
  - now rewrite lookup_insert_eq.
  - rewrite lookup_insert_ne by discriminate. now rewrite lookup_insert_eq.
  - rewrite !lookup_insert_ne by congruence. now rewrite lookup_insert_eq.
  - intros k' H1 H2 H3. rewrite !lookup_insert_ne by congruence.
    apply lookup_empty.
Qed.

(** A validated path lies under the root, so naming it relative to the
    root cannot fail. *)
Lemma relative_str_resolved (p : string) (path : Path) :
  _resolve_workspace_path p = inr path ->
  exists rel, relative_to path WORKSPACE_ROOT = Some rel
              /\ relative_str path = inr (str rel).
Proof.
  intros H. apply resolve_workspace_path_inr in H as (_ & [rel Hrel] & _).
  exists rel. split; [exact Hrel|]. unfold relative_str. now rewrite Hrel.
Qed.

Ltac run_pipeline :=
  intros; unfold pipeline, lift, tool_result;
  repeat (unfold mbind at 1; unfold M_bind;
          match goal with
          | |- context [match ?x with _ => _ end] =>
              match type of x with
              | result _ => destruct x; [reflexivity|]
              | (result _ * _)%type => destruct x as [[?|?] ?]; [reflexivity|]
              end
          end);
  try reflexivity.

Lemma vision_ask_run (p q : string) (log : list Request) :
  vision_ask p q log
  = pipeline p q false
      (fun path answer => image ← relative_str path;
                          mret (tool_result image "answer" (PStr answer))) log.
Proof.
  unfold vision_ask. run_pipeline.
Qed.

Lemma vision_ocr_run (p : string) (log : list Request) :
  vision_ocr p log
  = pipeline p ocr_prompt false
      (fun path text => image ← relative_str path;
                        mret (tool_result image "text" (PStr text))) log.
Proof.
  unfold vision_ocr. run_pipeline.
Qed.

Lemma vision_ui_spec_run (p : string) (log : list Request) :
  vision_ui_spec p log
  = pipeline p ui_prompt true
      (fun path raw =>
         try_except
           (parsed ← json_loads raw; image ← relative_str path;
            mret (tool_result image "ui" parsed))
           (image ← relative_str path;
            mret (tool_result image "ui_raw" (PStr raw)))) log.
Proof. unfold vision_ui_spec. run_pipeline. Qed.


Lemma pipeline_inr (p prompt : string) (jm : bool)
    (shape : Path -> string -> result (gmap string pyval))
    (log log' : list Request) (d : gmap string pyval) :
  pipeline p prompt jm shape log = (inr d, log') ->
  exists path b64 reply,
    _resolve_workspace_path p = inr path
    /\ _load_image_b64 path = inr b64
    /\ _ollama_chat_with_image b64 prompt jm log = (inr reply, log')
    /\ shape path reply = inr d.
Proof.
  unfold pipeline.
  destruct (_resolve_workspace_path p) as [e|path]; [discriminate|].
  destruct (_load_image_b64 path) as [e|b64] eqn:Hb; [discriminate|].
  destruct (_ollama_chat_with_image b64 prompt jm log) as [[e|reply] l] eqn:E;
    [discriminate|].
  intros H. injection H as Hs Hl. subst l.
  exists path, b64, reply. auto.
Qed.

Lemma pipeline_ok (p prompt : string) (jm : bool)
    (shape : Path -> string -> result (gmap string pyval))
    (log log' : list Request) (path : Path) (b64 reply : string) :
  _resolve_workspace_path p = inr path ->
  _load_image_b64 path = inr b64 ->
  _ollama_chat_with_image b64 prompt jm log = (inr reply, log') ->
  pipeline p prompt jm shape log = (shape path reply, log').
Proof. unfold pipeline. now intros -> -> ->. Qed.

Lemma pipeline_chat_fails (p prompt : string) (jm : bool)
    (shape : Path -> string -> result (gmap string pyval))
    (log log' : list Request) (path : Path) (b64 : string) (e : exn) :
  _resolve_workspace_path p = inr path ->
  _load_image_b64 path = inr b64 ->
  _ollama_chat_with_image b64 prompt jm log = (inl e, log') ->
  pipeline p prompt jm shape log = (inl e, log').
Proof. unfold pipeline. now intros -> -> ->. Qed.

(** Whatever happens, a tool sends at most one request, and it is the
    chat request for its prompt and mode. *)
Lemma pipeline_log (p prompt : string) (jm : bool)
    (shape : Path -> string -> result (gmap string pyval)) (log : list Request) :
  (pipeline p prompt jm shape log).2 = log
  \/ exists b64, (pipeline p prompt jm shape log).2
                 = (log ++ [chat_request b64 prompt jm])%list.
Proof.
  unfold pipeline.
  destruct (_resolve_workspace_path p) as [e|path]; [now left|].
  destruct (_load_image_b64 path) as [e|b64]; [now left|].
  right. exists b64. rewrite chat_run.
  destruct (backend _ ≫= read_reply); reflexivity.
Qed.

(** The dictionary of a tool that succeeded on a validated path. *)
Lemma shaped_result (p : string) (path : Path) (k : string) (v : pyval)
    (d : gmap string pyval) :
  _resolve_workspace_path p = inr path ->
  (image ← relative_str path; mret (tool_result image k v)) = inr d ->
  exists rel, relative_to path WORKSPACE_ROOT = Some rel
              /\ d = tool_result (str rel) k v.
Proof.
  intros Hp H. destruct (relative_str_resolved p path Hp) as (rel & Hrel & Hs).
  rewrite Hs in H. injection H as <-. eauto.
Qed.

Lemma relative_name_facts (p : string) (path rel : Path) :
  _resolve_workspace_path p = inr path ->
  relative_to path WORKSPACE_ROOT = Some rel ->
  joinpath WORKSPACE_ROOT rel = path
  /\ is_absolute rel = false
  /\ PyStr.startswith_char "/" (str rel) = false
  /\ (is_absolute path = true -> str rel <> str path).
Proof.
  intros Hp Hrel. pose proof (resolved_parts_valid p path Hp) as Hv.
  apply relative_to_Some in Hrel as (Hr & Hn & Hparts).
  assert (Hs : PyStr.startswith_char "/" (str rel) = false).
  { apply str_relative_not_rooted; [exact Hn|].
    rewrite Hparts in Hv. now apply Forall_app in Hv as [_ Hv]. }
  repeat split.
  - unfold joinpath. rewrite Hn. destruct path as [r ps]; simpl in *.
    now rewrite Hr, Hparts.
  - unfold is_absolute. now rewrite Hn.
  - exact Hs.
  - intros Habs Heq. apply str_absolute_rooted in Habs. congruence.
Qed.

End ToolFacts.

(** C9: the dictionary of every successful call of one of the three tools
    gives the configured model under [model] and, under [image], the
    validated path named relative to the workspace root: joined onto the
    root it is the validated path, it is not a rooted path, and it differs
    from the absolute path of the file. *)
Theorem results_name_model_and_relative_image
    (W : World) (p q : string) (log log' : list Request) (d : gmap string pyval) :
  vision_ask p q log = (inr d, log')
  \/ vision_ocr p log = (inr d, log')
  \/ vision_ui_spec p log = (inr d, log') ->
  d !! "model" = Some (PStr OLLAMA_MODEL)
  /\ exists path rel,
       _resolve_workspace_path p = inr path
       /\ PurePath.relative_to path WORKSPACE_ROOT = Some rel
       /\ d !! "image" = Some (PStr (PurePath.str rel))
       /\ PurePath.joinpath WORKSPACE_ROOT rel = path
       /\ PurePath.is_absolute rel = false
       /\ PyStr.startswith_char "/" (PurePath.str rel) = false
       /\ (PurePath.is_absolute path = true -> PurePath.str rel <> PurePath.str path).
Proof.
  assert (Hshape : forall path k v,
             k <> "model" -> k <> "image" ->
             _resolve_workspace_path p = inr path ->
             (image ← relative_str path; mret (tool_result image k v)) = inr d ->
             d !! "model" = Some (PStr OLLAMA_MODEL)
             /\ exists path rel,
                  _resolve_workspace_path p = inr path
                  /\ PurePath.relative_to path WORKSPACE_ROOT = Some rel
                  /\ d !! "image" = Some (PStr (PurePath.str rel))
                  /\ PurePath.joinpath WORKSPACE_ROOT rel = path
                  /\ PurePath.is_absolute rel = false
                  /\ PyStr.startswith_char "/" (PurePath.str rel) = false
                  /\ (PurePath.is_absolute path = true ->
                      PurePath.str rel <> PurePath.str path)).
  { intros path k v Hk1 Hk2 Hp Hd.
    destruct (shaped_result p path k v d Hp Hd) as (rel & Hrel & ->).
    destruct (tool_result_lookup (PurePath.str rel) k v Hk1 Hk2) as (Hm & Hi & _).
    split; [exact Hm|]. exists path, rel.
    destruct (relative_name_facts p path rel Hp Hrel) as (? & ? & ? & ?). auto 10. }
  intros [H|[H|H]].
  - rewrite vision_ask_run in H.
    apply pipeline_inr in H as (path & b64 & reply & Hp & _ & _ & Hd).
    now apply (Hshape path "answer" (PStr reply)).
  - rewrite vision_ocr_run in H.
    apply pipeline_inr in H as (path & b64 & reply & Hp & _ & _ & Hd).
    now apply (Hshape path "text" (PStr reply)).
  - rewrite vision_ui_spec_run in H.
    apply pipeline_inr in H as (path & b64 & reply & Hp & _ & _ & Hd).
    unfold try_except in Hd.
    destruct (json_loads reply) as [e|parsed]; simpl in Hd.
    + now apply (Hshape path "ui_raw" (PStr reply)).
    + destruct (relative_str_resolved p path Hp) as (rel & Hrel & Hs).
      apply (Hshape path "ui" parsed); try done.
      unfold mbind, result_bind in Hd |- *. now rewrite Hs in Hd |- *.
Qed.

Lemma results_name_model_and_relative_image_witness :
  let W := Demo.world 1600 (Demo.ok " hi ") in
  let d := @tool_result W "shot.png" "answer" (PStr "hi") in
  d !! "model" = Some (PStr "qwen2.5vl:7b")
  /\ exists path rel,
       @_resolve_workspace_path W "assets/../shot.png" = inr path
       /\ PurePath.relative_to path (@WORKSPACE_ROOT W) = Some rel
       /\ d !! "image" = Some (PStr (PurePath.str rel))
       /\ PurePath.joinpath (@WORKSPACE_ROOT W) rel = path
       /\ PurePath.is_absolute rel = false
       /\ PyStr.startswith_char "/" (PurePath.str rel) = false
       /\ (PurePath.is_absolute path = true -> PurePath.str rel <> PurePath.str path).
Proof.
  intros W d.
  apply (results_name_model_and_relative_image W "assets/../shot.png" "what?" []
           [@chat_request W "iVBORw0KGgo=" "what?" false] d).
  left. vm_compute. reflexivity.
Defined.

(** C2, as the claim states it, fails: a reply that is valid JSON of
    another shape than the UiSpecDocument is returned under [ui], and
    [ui_raw] is left out. *)
Lemma valid_json_of_another_shape_is_returned_as_ui :
  let W := Demo.world 1600 (Demo.ok "[]") in
  @json_loads W "[]" = inr (PList [])
  /\ UiSpec.matches (PList []) = false
  /\ exists d log, @vision_ui_spec W "shot.png" [] = (inr d, log)
                   /\ d !! "ui" = Some (PList [])
                   /\ d !! "ui_raw" = None.
Proof.
  intros W. repeat split.
  exists (@tool_result W "shot.png" "ui" (PList [])),
         [@chat_request W "iVBORw0KGgo=" ui_prompt true].
  repeat split; vm_compute; reflexivity.
Qed.

(** C2, amended: when the reply decodes as JSON, of whatever shape, the
    result has the decoded value under [ui] and no [ui_raw]; when decoding
    raises, the result has the reply text under [ui_raw] and no [ui]; in
    both cases the tool call returns its dictionary. *)
Theorem ui_spec_parsed_or_raw
    (W : World) (p : string) (path : Path) (b64 raw : string)
    (log log' : list Request) :
  _resolve_workspace_path p = inr path ->
  _load_image_b64 path = inr b64 ->
  _ollama_chat_with_image b64 ui_prompt true log = (inr raw, log') ->
  exists d, vision_ui_spec p log = (inr d, log')
            /\ match json_loads raw with
               | inr parsed => d !! "ui" = Some parsed /\ d !! "ui_raw" = None
               | inl _ => d !! "ui_raw" = Some (PStr raw) /\ d !! "ui" = None
               end.
Proof.
  intros Hp Hb Hc.
  destruct (relative_str_resolved p path Hp) as (rel & _ & Hs).
  rewrite vision_ui_spec_run, (pipeline_ok _ _ _ _ _ _ _ _ _ Hp Hb Hc).
  unfold try_except, mbind, result_bind. rewrite Hs.
  destruct (json_loads raw) as [e|parsed].
  - exists (tool_result (PurePath.str rel) "ui_raw" (PStr raw)).
    split; [reflexivity|].
    destruct (tool_result_lookup (PurePath.str rel) "ui_raw" (PStr raw))
      as (_ & _ & Hk & Hno); [done..|].
    split; [exact Hk | now apply Hno].
  - exists (tool_result (PurePath.str rel) "ui" parsed).
    split; [reflexivity|].
    destruct (tool_result_lookup (PurePath.str rel) "ui" parsed)
      as (_ & _ & Hk & Hno); [done..|].
    split; [exact Hk | now apply Hno].
Qed.

Lemma ui_spec_parsed_or_raw_witness :
  let W := Demo.world 1600 (Demo.ok "A login screen.") in
  exists d log, @vision_ui_spec W "shot.png" [] = (inr d, log)
                /\ d !! "ui_raw" = Some (PStr "A login screen.")
                /\ d !! "ui" = None.
Proof.
  intros W.
  destruct (ui_spec_parsed_or_raw W "shot.png"
              {| PurePath.root := PurePath.Root1; PurePath.parts := ["work"; "shot.png"] |}
              "iVBORw0KGgo=" "A login screen." []
              [@chat_request W "iVBORw0KGgo=" ui_prompt true]
              eq_refl eq_refl eq_refl) as (d & Hrun & Hd).
  exists d, [@chat_request W "iVBORw0KGgo=" ui_prompt true].
  split; [exact Hrun | exact Hd].
Defined.

(** The scenario of the specification: the document
    [{"summary":"ok","elements":[]}] comes back under [ui]. *)
Example ui_spec_scenario :
  let W := Demo.world 1600 (Demo.ok Demo.ok_document) in
  exists d log, @vision_ui_spec W "shot.png" [] = (inr d, log)
    /\ d !! "ui" = Some (PDict (<["summary" := PStr "ok"]> (<["elements" := PList []]> ∅)))
    /\ d !! "ui_raw" = None
    /\ UiSpec.matches (PDict (<["summary" := PStr "ok"]> (<["elements" := PList []]> ∅))) = true.
Proof.
  intros W.
  exists (@tool_result W "shot.png" "ui"
            (PDict (<["summary" := PStr "ok"]> (<["elements" := PList []]> ∅)))),
         [@chat_request W "iVBORw0KGgo=" ui_prompt true].
  repeat split; vm_compute; reflexivity.
Qed.

(** C6: the payload of every request has exactly one message, of role
    [user], with the prompt and exactly one image; streaming is off; the key
    [format], with value [json], is there exactly in structured mode.  A
    chat call sends that request and nothing else, and each tool sends at
    most one request: without [format] for ask and extract-text, with it
    for ui-spec. *)
Theorem request_payload_shape (W : World) :
  (forall (b64 prompt : string) (jm : bool),
      let payload := chat_payload b64 prompt jm in
      (exists msg, payload !! "messages" = Some (PList [PDict msg])
                   /\ msg !! "role" = Some (PStr "user")
                   /\ msg !! "content" = Some (PStr prompt)
                   /\ msg !! "images" = Some (PList [PStr b64]))
      /\ payload !! "stream" = Some (PBool false)
      /\ payload !! "model" = Some (PStr OLLAMA_MODEL)
      /\ (payload !! "format" = Some (PStr "json") <-> jm = true)
      /\ (jm = false -> payload !! "format" = None))
  /\ (forall (b64 prompt : string) (jm : bool) (log : list Request),
         (_ollama_chat_with_image b64 prompt jm log).2
         = (log ++ [chat_request b64 prompt jm])%list
         /\ json (chat_request b64 prompt jm) = PDict (chat_payload b64 prompt jm))
  /\ (forall (p q : string) (log : list Request),
         (vision_ask p q log).2 = log
         \/ exists b64, (vision_ask p q log).2 = (log ++ [chat_request b64 q false])%list)
  /\ (forall (p : string) (log : list Request),
         (vision_ocr p log).2 = log
         \/ exists b64, (vision_ocr p log).2
                        = (log ++ [chat_request b64 ocr_prompt false])%list)
  /\ (forall (p : string) (log : list Request),
         (vision_ui_spec p log).2 = log
         \/ exists b64, (vision_ui_spec p log).2
                        = (log ++ [chat_request b64 ui_prompt true])%list).
Proof.
  repeat apply conj.
  - intros b64 prompt jm payload. subst payload. unfold chat_payload.
    repeat apply conj.
    + eexists. split; [destruct jm; lookup_dict|]. repeat split; lookup_dict.
    + destruct jm; lookup_dict.
    + destruct jm; lookup_dict.
    + intros H. destruct jm; [reflexivity|].
      revert H. lookup_dict.
    + intros ->. lookup_dict.
    + intros ->. lookup_dict.
  - intros b64 prompt jm log. rewrite chat_run. split; reflexivity.
  - intros p q log. rewrite vision_ask_run. apply pipeline_log.
  - intros p log. rewrite vision_ocr_run. apply pipeline_log.
  - intros p log. rewrite vision_ui_spec_run. apply pipeline_log.
Qed.

(** C7, as the claim states it, fails: a response with status 300 is not a
    success, yet the chat call returns its message content and the tool
    returns a result. *)
Lemma redirect_status_is_not_an_error :
  let W := Demo.world 1600 (inr {| status_code := 300; text := Demo.reply_body "hi" |}) in
  (@_ollama_chat_with_image W "iVBORw0KGgo=" "what?" false []).1 = inr "hi"
  /\ (@vision_ask W "shot.png" "what?" []).1
     = inr (@tool_result W "shot.png" "answer" (PStr "hi")).
Proof. split; vm_compute; reflexivity. Qed.

(** C7, amended: when the backend responds with a client or server error
    status (400 to 599), the chat call raises the HTTP error that carries
    the status and the body; a connection failure and a timeout of the
    request are raised as they are; and a tool whose chat call raises fails
    with that exception and returns no dictionary. *)
Theorem backend_failure_fails_the_call
    (W : World) (b64 prompt : string) (jm : bool) (log : list Request) :
  (forall r, backend (chat_request b64 prompt jm) = inr r ->
             400 <= status_code r < 600 ->
             (_ollama_chat_with_image b64 prompt jm log).1
             = inl (HTTPError (status_code r) (text r)))
  /\ (forall msg, backend (chat_request b64 prompt jm) = inl (ConnectionError msg) ->
                  (_ollama_chat_with_image b64 prompt jm log).1
                  = inl (ConnectionError msg))
  /\ (forall msg, backend (chat_request b64 prompt jm) = inl (Timeout msg) ->
                  (_ollama_chat_with_image b64 prompt jm log).1 = inl (Timeout msg))
  /\ (forall p path e log',
         _resolve_workspace_path p = inr path ->
         _load_image_b64 path = inr b64 ->
         _ollama_chat_with_image b64 prompt jm log = (inl e, log') ->
         (jm = false -> vision_ask p prompt log = (inl e, log'))
         /\ (jm = false -> prompt = ocr_prompt -> vision_ocr p log = (inl e, log'))
         /\ (jm = true -> prompt = ui_prompt -> vision_ui_spec p log = (inl e, log'))).
Proof.
  repeat apply conj.
  - intros r Hr Hs. rewrite chat_run, Hr. simpl.
    unfold mbind, result_bind, read_reply, raise_for_status.
    replace ((400 <=? status_code r) && (status_code r <? 600)) with true
      by (symmetry; apply andb_true_iff; split; [apply Z.leb_le | apply Z.ltb_lt]; lia).
    reflexivity.
  - intros msg Hr. now rewrite chat_run, Hr.
  - intros msg Hr. now rewrite chat_run, Hr.
  - intros p path e log' Hp Hb Hc. repeat split.
    + intros ->. rewrite vision_ask_run. now apply pipeline_chat_fails with path b64.
    + intros -> ->. rewrite vision_ocr_run. now apply pipeline_chat_fails with path b64.
    + intros -> ->. rewrite vision_ui_spec_run.
      now apply pipeline_chat_fails with path b64.
Qed.

Lemma backend_failure_fails_the_call_witness :
  let W := Demo.world 1600 (inr {| status_code := 500; text := "boom" |}) in
  (@_ollama_chat_with_image W "iVBORw0KGgo=" "what?" false []).1
    = inl (HTTPError 500 "boom")
  /\ @vision_ask W "shot.png" "what?" []
     = (inl (HTTPError 500 "boom"), [@chat_request W "iVBORw0KGgo=" "what?" false]).
Proof.
  intros W.
  pose proof (backend_failure_fails_the_call W "iVBORw0KGgo=" "what?" false [])
    as (Hstatus & _ & _ & Htool).
  split.
  - apply (Hstatus {| status_code := 500; text := "boom" |}); [reflexivity | simpl; lia].
  - apply (Htool "shot.png"
             {| PurePath.root := PurePath.Root1; PurePath.parts := ["work"; "shot.png"] |});
      reflexivity.
Defined.




(** ** Image normalisation *)
Section NormalizeFacts.
Context {W : World}.

(** The target size of a downscale: each dimension is the exact quotient
    [dim * MAX_IMAGE_EDGE / edge] truncated, or one less. *)
Lemma scaled_size_bounds (w h : Z) :
  0 < w -> 0 < h -> 0 < MAX_IMAGE_EDGE -> MAX_IMAGE_EDGE < Z.max w h ->
  Z.max w h * MAX_IMAGE_EDGE < 2 ^ 48 ->
  exists nw nh,
    scaled_size w h = inr (nw, nh)
    /\ 0 <= nw /\ 0 <= nh
    /\ w * MAX_IMAGE_EDGE / Z.max w h - 1 <= nw <= w * MAX_IMAGE_EDGE / Z.max w h
    /\ h * MAX_IMAGE_EDGE / Z.max w h - 1 <= nh <= h * MAX_IMAGE_EDGE / Z.max w h.
Proof.
  intros Hw Hh HM Hlt Hbig. unfold scaled_size.
  destruct MAX_IMAGE_EDGE as [|M|M]; try lia.
  assert (Hew : w <= Z.max w h) by lia. assert (Heh : h <= Z.max w h) by lia.
  destruct (Z.max w h) as [|e|e]; try lia.
  destruct w as [|w|w]; try lia. destruct h as [|h|h]; try lia.
  assert (He : Z.pos e < 2 ^ 48).
  { apply Z.le_lt_trans with (Z.pos e * Z.pos M); [|exact Hbig].
    rewrite <- (Z.mul_1_r (Z.pos e)) at 1. apply Z.mul_le_mono_nonneg_l; lia. }
  change (2 ^ 48) with 281474976710656 in *.
  assert (HwM : Z.pos w * Z.pos M <= Z.pos e * Z.pos M)
    by (apply Z.mul_le_mono_nonneg_r; lia).
  assert (HhM : Z.pos h * Z.pos M <= Z.pos e * Z.pos M)
    by (apply Z.mul_le_mono_nonneg_r; lia).
  destruct (truediv_faithful M e) as (ms & es & Hdiv & Hes & Hms & Hscale);
    [lia | change (2 ^ 50) with 1125899906842624; lia |].
  rewrite Hdiv. unfold mbind at 1. unfold result_bind at 1.
  destruct (mul_to_int_bounds w M e ms es Hes Hms Hscale) as (nw & Hnw & Hnw0 & Hbw);
    [change (2 ^ 50) with 1125899906842624; lia
    | change (2 ^ 48) with 281474976710656; lia |].
  destruct (mul_to_int_bounds h M e ms es Hes Hms Hscale) as (nh & Hnh & Hnh0 & Hbh);
    [change (2 ^ 50) with 1125899906842624; lia
    | change (2 ^ 48) with 281474976710656; lia |].
  rewrite Hnw. unfold mbind at 1. unfold result_bind at 1.
  rewrite Hnh. exists nw, nh. repeat split; try lia; reflexivity.
Qed.

Lemma normalize_small (img : Image) :
  Z.max (size img).1 (size img).2 <= MAX_IMAGE_EDGE -> normalize img = inr img.
Proof.
  intros H. unfold normalize. destruct (size img) as [w h]. simpl in H.
  replace (Z.max w h >? MAX_IMAGE_EDGE) with false; [reflexivity|].
  symmetry. rewrite Z.gtb_ltb. apply Z.ltb_ge. lia.
Qed.

Lemma normalize_large (img : Image) (w h : Z) :
  size img = (w, h) -> MAX_IMAGE_EDGE < Z.max w h ->
  normalize img = (sz ← scaled_size w h; Image_resize img sz).
Proof.
  intros Hs H. unfold normalize. rewrite Hs.
  replace (Z.max w h >? MAX_IMAGE_EDGE) with true; [reflexivity|].
  symmetry. rewrite Z.gtb_ltb. apply Z.ltb_lt. lia.
Qed.

End NormalizeFacts.




(** C10: when the longest edge exceeds the maximum and the shorter edge
    times the maximum is below the longer edge, the target of the downscale
    has a dimension 0: the file decodes, the resize refuses the empty
    target, and the failure of the normalisation is that [ValueError], not
    one of the decoder. *)
Theorem extreme_aspect_ratio_gives_empty_target
    (W : World) (path : Path) (img : Image) (w h : Z) :
  Image_open_RGB (PurePath.str path) = inr img ->
  size img = (w, h) ->
  0 < w -> 0 < h -> 0 < MAX_IMAGE_EDGE -> MAX_IMAGE_EDGE < Z.max w h ->
  Z.max w h * MAX_IMAGE_EDGE < 2 ^ 48 ->
  Z.min w h * MAX_IMAGE_EDGE < Z.max w h ->
  exists nw nh,
    scaled_size w h = inr (nw, nh)
    /\ Z.min nw nh = 0
    /\ normalize img = inl (ValueError "height and width must be > 0")
    /\ _load_image_b64 path = inl (ValueError "height and width must be > 0").
Proof.
  intros Hopen Hsize Hw Hh HM Hlt Hbig Hthin.
  destruct (scaled_size_bounds w h Hw Hh HM Hlt Hbig)
    as (nw & nh & Hsz & Hnw0 & Hnh0 & Hbw & Hbh).
  assert (Hzero : nw = 0 \/ nh = 0).
  { destruct (Z.min_spec w h) as [[_ Hmin]|[_ Hmin]]; rewrite Hmin in Hthin.
    - left. rewrite Z.div_small in Hbw by lia. lia.
    - right. rewrite Z.div_small in Hbh by lia. lia. }
  assert (Hnorm : normalize img = inl (ValueError "height and width must be > 0")).
  { rewrite (normalize_large img w h Hsize Hlt), Hsz.
    unfold mbind, result_bind, Image_resize. simpl.
    destruct Hzero as [-> | ->]; [reflexivity|].
    now rewrite orb_true_r. }
  exists nw, nh. split; [exact Hsz|]. split; [lia|]. split; [exact Hnorm|].
  unfold _load_image_b64. rewrite Hopen.
  unfold mbind at 1. unfold result_bind at 1. now rewrite Hnorm.
Qed.

Lemma extreme_aspect_ratio_gives_empty_target_witness :
  let W := Demo.world 1600 (Demo.ok "") in
  @scaled_size W 1 2000 = inr (0, 1600)
  /\ exists nw nh,
       @scaled_size W 1 2000 = inr (nw, nh)
       /\ Z.min nw nh = 0
       /\ @normalize W {| size := (1, 2000); data := [] |}
          = inl (ValueError "height and width must be > 0")
       /\ @_load_image_b64 W (PurePath.of_string "/work/strip.png")
          = inl (ValueError "height and width must be > 0").
Proof.
  intros W. split; [reflexivity|].
  apply (extreme_aspect_ratio_gives_empty_target W
           (PurePath.of_string "/work/strip.png")
           {| size := (1, 2000); data := [] |} 1 2000);
    try reflexivity; simpl; lia.
Defined.

(** The pixel that rounding can take away is really lost on some sizes: a
    square image of edge 2156 is scaled to 1599, not 1600. *)
Example truncation_can_lose_a_pixel :
  @scaled_size (Demo.world 1600 (Demo.ok "")) 2156 2156 = inr (1599, 1599).
Proof. reflexivity. Qed.

(** Dividing the two integers as exact binary numbers and dividing their
    53-bit floats is the same rounding; a few quotients, evaluated. *)
Example truediv_agrees_with_float_division :
  Forall (fun '(a, b) =>
            PyFloat.truediv a b
            = (x ← PyFloat.of_int a; y ← PyFloat.of_int b;
               mret (SFdiv PyFloat.prec PyFloat.emax x y)))
         [(1600, 3200); (1600, 2156); (1600, 2000); (1, 49); (1, 3); (2, 3);
          (1600, 4001); (720, 1281); (-7, 3); (0, 5)].
Proof. repeat constructor. Qed.

(** * Further properties of the bridge *)

(** X1: a path is validated exactly when its canonical form lies under the
    workspace root, something exists there, and its extension in lower case
    is one of the five allowed ones. *)
Theorem validated_path_characterised (W : World) (p : string) (c : Path) :
  _resolve_workspace_path p = inr c
  <-> resolve (PurePath.joinpath WORKSPACE_ROOT (PurePath.of_string p)) = inr c
      /\ PurePath.under c WORKSPACE_ROOT
      /\ (exists k, os_stat (PurePath.str c) = inr (Some k))
      /\ PyStr.lower (PurePath.suffix c) ∈ allowed_suffixes.
Proof.
  split.
  - intros H. apply resolve_workspace_path_inr in H as (Hc & Hrel & Hk & Hs).
    split; [exact Hc|]. split; [|split; assumption].
    apply relative_to_under. destruct Hrel as [rel ->]. eauto.
  - intros (Hc & Hin & [k Hk] & Hs).
    rewrite (resolve_workspace_path_cases p c Hc).
    apply relative_to_under in Hin as [rel ->]. rewrite Hk.
    now rewrite bool_decide_eq_true_2.
Qed.

Lemma validated_path_characterised_witness :
  @_resolve_workspace_path (Demo.world 1600 (Demo.ok "")) "assets/../Shot.PNG"
  = inl (FileNotFoundError "File not found: /work/Shot.PNG")
  /\ @_resolve_workspace_path (Demo.world 1600 (Demo.ok "")) "./shot.png"
     = inr {| PurePath.root := PurePath.Root1; PurePath.parts := ["work"; "shot.png"] |}.
Proof.
  split; [reflexivity|].
  apply (proj2 (validated_path_characterised (Demo.world 1600 (Demo.ok "")) "./shot.png"
                  {| PurePath.root := PurePath.Root1; PurePath.parts := ["work"; "shot.png"] |})).
  split; [reflexivity|]. split; [split; [reflexivity | exists ["shot.png"]; reflexivity]|].
  split; [exists RegularFile; reflexivity|].
  vm_compute. apply list_elem_of_here.
Defined.

(** X2: an exception of the canonicalisation (a symbolic-link loop) leaves
    path resolution as it is, before any check; an exception of [os.stat] does
    so for a path under the root, and nothing else does: for a path outside
    the root [os.stat] is not consulted. *)
Theorem resolution_propagates_os_errors (W : World) (p : string) :
  (forall e, resolve (PurePath.joinpath WORKSPACE_ROOT (PurePath.of_string p)) = inl e ->
             _resolve_workspace_path p = inl e)
  /\ (forall c e,
         resolve (PurePath.joinpath WORKSPACE_ROOT (PurePath.of_string p)) = inr c ->
         PurePath.under c WORKSPACE_ROOT ->
         os_stat (PurePath.str c) = inl e ->
         _resolve_workspace_path p = inl e).
Proof.
  split.
  - intros e He. unfold _resolve_workspace_path.
    rewrite candidate_is_joined, He. reflexivity.
  - intros c e Hc Hin Hst. rewrite (resolve_workspace_path_cases p c Hc).
    apply relative_to_under in Hin as [rel ->]. now rewrite Hst.
Qed.

Lemma resolution_propagates_os_errors_witness :
  @_resolve_workspace_path (Faulty.world (Demo.ok "")) "loop/shot.png"
  = inl (RuntimeError "Symlink loop")
  /\ @_resolve_workspace_path (Faulty.world (Demo.ok "")) "locked.png"
     = inl (OSError "Permission denied").
Proof.
  split.
  - apply (proj1 (resolution_propagates_os_errors (Faulty.world (Demo.ok "")) "loop/shot.png")).
    reflexivity.
  - apply (proj2 (resolution_propagates_os_errors (Faulty.world (Demo.ok "")) "locked.png")
             {| PurePath.root := PurePath.Root1; PurePath.parts := ["work"; "locked.png"] |}).
    + reflexivity.
    + split; [reflexivity | exists ["locked.png"]; reflexivity].
    + reflexivity.
Defined.

(** X3: whenever normalisation returns an image, no dimension has grown,
    both are at least one pixel, the longest edge is at most the maximum, and
    normalising the result again changes nothing. *)
Theorem normalized_image_is_bounded (W : World) (img out : Image) (w h : Z) :
  size img = (w, h) -> 0 < w -> 0 < h -> 0 < MAX_IMAGE_EDGE ->
  Z.max w h * MAX_IMAGE_EDGE < 2 ^ 48 ->
  normalize img = inr out ->
  1 <= (size out).1 <= w
  /\ 1 <= (size out).2 <= h
  /\ Z.max (size out).1 (size out).2 <= MAX_IMAGE_EDGE
  /\ normalize out = inr out.
Proof.
  intros Hsize Hw Hh HM Hbig Hn.
  destruct (Z.leb_spec (Z.max w h) MAX_IMAGE_EDGE) as [Hle|Hlt].
  - rewrite normalize_small in Hn by now rewrite Hsize.
    injection Hn as <-. rewrite Hsize. simpl.
    repeat split; try lia. apply normalize_small. now rewrite Hsize.
  - destruct (scaled_size_bounds w h Hw Hh HM Hlt Hbig)
      as (nw & nh & Hsz & Hnw0 & Hnh0 & Hbw & Hbh).
    rewrite (normalize_large img w h Hsize Hlt), Hsz in Hn.
    unfold mbind, result_bind, Image_resize in Hn. simpl in Hn.
    destruct (nw <? 1) eqn:E1; [discriminate|].
    destruct (nh <? 1) eqn:E2; [discriminate|].
    apply Z.ltb_ge in E1, E2. injection Hn as <-. simpl.
    set (M := MAX_IMAGE_EDGE) in *. set (e := Z.max w h) in *.
    assert (Hqw : w * M / e <= w).
    { apply Z.div_le_upper_bound; [lia|]. rewrite (Z.mul_comm e w).
      apply Z.mul_le_mono_nonneg_l; lia. }
    assert (Hqh : h * M / e <= h).
    { apply Z.div_le_upper_bound; [lia|]. rewrite (Z.mul_comm e h).
      apply Z.mul_le_mono_nonneg_l; lia. }
    assert (Hqw' : w * M / e <= M).
    { apply Z.div_le_upper_bound; [lia|]. apply Z.mul_le_mono_nonneg_r; lia. }
    assert (Hqh' : h * M / e <= M).
    { apply Z.div_le_upper_bound; [lia|]. apply Z.mul_le_mono_nonneg_r; lia. }
    repeat split; try lia.
    apply normalize_small. simpl. fold M. lia.
Qed.

Lemma normalized_image_is_bounded_witness :
  let W := Demo.world 1600 (Demo.ok "") in
  let out := {| size := (1600, 1200); data := [] |} in
  1 <= (size out).1 <= 4000 /\ 1 <= (size out).2 <= 3000
  /\ Z.max (size out).1 (size out).2 <= 1600
  /\ @normalize W out = inr out.
Proof.
  intros W out.
  apply (normalized_image_is_bounded W {| size := (4000, 3000); data := [] |} out 4000 3000);
    try reflexivity; simpl; lia.
Defined.

Section ToolFacts2.
Context {W : World}.

Lemma pipeline_rejects (p prompt : string) (jm : bool)
    (shape : Path -> string -> result (gmap string pyval))
    (log : list Request) (e : exn) :
  _resolve_workspace_path p = inl e
  \/ (exists path, _resolve_workspace_path p = inr path /\ _load_image_b64 path = inl e) ->
  pipeline p prompt jm shape log = (inl e, log).
Proof.
  unfold pipeline. intros [-> | (path & -> & ->)]; reflexivity.
Qed.

Lemma tool_result_dom (image k : string) (v : pyval) :
  dom (tool_result image k v) = ({[ "model"; "image"; k ]} : gset string).
Proof.
  unfold tool_result. rewrite !dom_insert_L, dom_empty_L.
  now rewrite (right_id_L ∅ (∪)), (assoc_L (∪)).
Qed.

(** A tool that returned went through the whole pipeline, and its one
    request carried the encoding of the validated file. *)
Lemma pipeline_success (p prompt : string) (jm : bool)
    (shape : Path -> string -> result (gmap string pyval))
    (log log' : list Request) (d : gmap string pyval) :
  pipeline p prompt jm shape log = (inr d, log') ->
  exists path b64 reply,
    _resolve_workspace_path p = inr path
    /\ _load_image_b64 path = inr b64
    /\ log' = (log ++ [chat_request b64 prompt jm])%list
    /\ (backend (chat_request b64 prompt jm) ≫= read_reply) = inr reply
    /\ shape path reply = inr d.
Proof.
  intros H. apply pipeline_inr in H as (path & b64 & reply & Hp & Hb & Hc & Hs).
  rewrite chat_run in Hc. injection Hc as Hc Hl.
  exists path, b64, reply. auto.
Qed.

End ToolFacts2.

(** X4: when the path is refused, or the file at the validated path cannot
    be loaded as an image, each of the three tools fails with that same
    exception and no request is sent to the backend. *)
Theorem rejected_input_sends_no_request
    (W : World) (p q : string) (log : list Request) (e : exn) :
  _resolve_workspace_path p = inl e
  \/ (exists path, _resolve_workspace_path p = inr path /\ _load_image_b64 path = inl e) ->
  vision_ask p q log = (inl e, log)
  /\ vision_ocr p log = (inl e, log)
  /\ vision_ui_spec p log = (inl e, log).
Proof.
  intros H. rewrite vision_ask_run, vision_ocr_run, vision_ui_spec_run.
  repeat split; now apply pipeline_rejects.
Qed.

Lemma rejected_input_sends_no_request_witness :
  let W := Demo.world 1600 (Demo.ok "never asked") in
  (@vision_ask W "../../etc/passwd" "what?" []
   = (inl (ValueError "Path must be within workspace root: /work"), [])
   /\ @vision_ui_spec W "../../etc/passwd" []
      = (inl (ValueError "Path must be within workspace root: /work"), []))
  /\ @vision_ocr W "frames.png" [] = (inl (OSError "Is a directory"), []).
Proof.
  intros W. split.
  - pose proof (rejected_input_sends_no_request W "../../etc/passwd" "what?" []
                  (ValueError "Path must be within workspace root: /work")
                  (or_introl eq_refl)) as (Ha & _ & Hu).
    split; [exact Ha | exact Hu].
  - refine (proj1 (proj2 (rejected_input_sends_no_request W "frames.png" "" []
                            (OSError "Is a directory") (or_intror _)))).
    exists {| PurePath.root := PurePath.Root1; PurePath.parts := ["work"; "frames.png"] |}.
    split; reflexivity.
Defined.

(** X5: a response whose status is no error but whose body does not decode
    as JSON makes the chat call raise the decoder's exception, and a body
    that decodes to something else than an object makes it raise an
    [AttributeError]; the fallback of the ui-spec tool does not cover either:
    in both cases the tool fails with that exception, after its one
    request. *)
Theorem undecodable_body_fails_the_call
    (W : World) (b64 prompt : string) (jm : bool) (log : list Request) (r : Response) :
  backend (chat_request b64 prompt jm) = inr r ->
  ~ 400 <= status_code r < 600 ->
  (forall e, json_loads (text r) = inl e ->
             (_ollama_chat_with_image b64 prompt jm log).1 = inl e)
  /\ (forall v, json_loads (text r) = inr v -> (forall d, v <> PDict d) ->
                exists msg, (_ollama_chat_with_image b64 prompt jm log).1
                            = inl (AttributeError msg))
  /\ (forall p path e,
         _resolve_workspace_path p = inr path ->
         _load_image_b64 path = inr b64 ->
         prompt = ui_prompt -> jm = true ->
         json_loads (text r) = inl e ->
         vision_ui_spec p log
         = (inl e, (log ++ [chat_request b64 ui_prompt true])%list))
  /\ (forall p path v,
         _resolve_workspace_path p = inr path ->
         _load_image_b64 path = inr b64 ->
         prompt = ui_prompt -> jm = true ->
         json_loads (text r) = inr v -> (forall d, v <> PDict d) ->
         exists msg,
           vision_ui_spec p log
           = (inl (AttributeError msg), (log ++ [chat_request b64 ui_prompt true])%list)).
Proof.
  intros Hr Hs.
  assert (Hrun : (_ollama_chat_with_image b64 prompt jm log).1
                 = (data ← json_loads (text r);
                    m ← py_get data "message" (PDict ∅);
                    c ← py_get (py_or m (PDict ∅)) "content" (PStr "");
                    py_strip c)).
  { rewrite chat_run, Hr. simpl.
    unfold mbind at 1. unfold result_bind, read_reply, raise_for_status.
    replace ((400 <=? status_code r) && (status_code r <? 600)) with false.
    - reflexivity.
    - symmetry. apply andb_false_iff.
      destruct (Z.leb_spec 400 (status_code r)); [right; apply Z.ltb_ge; lia | now left]. }
  repeat apply conj.
  - intros e He. now rewrite Hrun, He.
  - intros v Hv Hnd. rewrite Hrun, Hv.
    unfold mbind, result_bind, py_get.
    destruct v; try (eexists; reflexivity). now destruct (Hnd d).
  - intros p path e Hp Hb -> -> Hj.
    rewrite vision_ui_spec_run.
    apply pipeline_chat_fails with path b64; try assumption.
    rewrite chat_run, Hr. simpl. f_equal.
    rewrite chat_run, Hr in Hrun. simpl in Hrun. now rewrite Hrun, Hj.
  - intros p path v Hp Hb -> -> Hj Hnd.
    assert (Hmsg : exists msg,
               (data ← json_loads (text r);
                m ← py_get data "message" (PDict ∅);
                c ← py_get (py_or m (PDict ∅)) "content" (PStr "");
                py_strip c) = inl (AttributeError msg)).
    { rewrite Hj. unfold mbind, result_bind, py_get.
      destruct v; try (eexists; reflexivity). now destruct (Hnd d). }
    destruct Hmsg as [msg Hmsg]. exists msg.
    rewrite vision_ui_spec_run.
    apply pipeline_chat_fails with path b64; try assumption.
    rewrite chat_run, Hr. simpl. f_equal.
    rewrite chat_run, Hr in Hrun. simpl in Hrun. now rewrite Hrun.
Qed.

Lemma undecodable_body_fails_the_call_witness :
  let W := Demo.world 1600 (inr {| status_code := 200; text := "<html>busy</html>" |}) in
  let W' := Demo.world 1600 (inr {| status_code := 200; text := "[1, 2]" |}) in
  (@_ollama_chat_with_image W "iVBORw0KGgo=" ui_prompt true []).1
  = inl (JSONDecodeError "Expecting value")
  /\ @vision_ui_spec W "shot.png" []
     = (inl (JSONDecodeError "Expecting value"),
        [@chat_request W "iVBORw0KGgo=" ui_prompt true])
  /\ exists msg,
       @vision_ui_spec W' "shot.png" []
       = (inl (AttributeError msg), [@chat_request W' "iVBORw0KGgo=" ui_prompt true]).
Proof.
  intros W W'.
  pose proof (undecodable_body_fails_the_call W "iVBORw0KGgo=" ui_prompt true []
                {| status_code := 200; text := "<html>busy</html>" |} eq_refl
                ltac:(simpl; lia)) as (Hchat & _ & Htool & _).
  pose proof (undecodable_body_fails_the_call W' "iVBORw0KGgo=" ui_prompt true []
                {| status_code := 200; text := "[1, 2]" |} eq_refl
                ltac:(simpl; lia)) as (_ & _ & _ & Htool').
  split; [apply Hchat; reflexivity|]. split.
  - apply (Htool "shot.png"
             {| PurePath.root := PurePath.Root1; PurePath.parts := ["work"; "shot.png"] |});
      reflexivity.
  - apply (Htool' "shot.png"
             {| PurePath.root := PurePath.Root1; PurePath.parts := ["work"; "shot.png"] |}
             (PList [PInt 1; PInt 2])); try reflexivity.
    discriminate.
Defined.


(** X6: a tool that returns has sent exactly one request, built from the
    encoding of the validated file and the tool's prompt (the question as it
    was given, for ask), and its dictionary has exactly three fields:
    [model], [image], and the reply under [answer] or [text], or for ui-spec
    one of [ui] and [ui_raw]. *)
Theorem successful_tool_call_shape
    (W : World) (p q : string) (log log' : list Request) (d : gmap string pyval) :
  (vision_ask p q log = (inr d, log') ->
   exists path b64 answer,
     _resolve_workspace_path p = inr path /\ _load_image_b64 path = inr b64
     /\ log' = (log ++ [chat_request b64 q false])%list
     /\ (backend (chat_request b64 q false) ≫= read_reply) = inr answer
     /\ d !! "answer" = Some (PStr answer)
     /\ dom d = ({[ "model"; "image"; "answer" ]} : gset string))
  /\ (vision_ocr p log = (inr d, log') ->
      exists path b64 reply,
        _resolve_workspace_path p = inr path /\ _load_image_b64 path = inr b64
        /\ log' = (log ++ [chat_request b64 ocr_prompt false])%list
        /\ (backend (chat_request b64 ocr_prompt false) ≫= read_reply) = inr reply
        /\ d !! "text" = Some (PStr reply)
        /\ dom d = ({[ "model"; "image"; "text" ]} : gset string))
  /\ (vision_ui_spec p log = (inr d, log') ->
      exists path b64 raw,
        _resolve_workspace_path p = inr path /\ _load_image_b64 path = inr b64
        /\ log' = (log ++ [chat_request b64 ui_prompt true])%list
        /\ (backend (chat_request b64 ui_prompt true) ≫= read_reply) = inr raw
        /\ (dom d = ({[ "model"; "image"; "ui" ]} : gset string)
            \/ dom d = ({[ "model"; "image"; "ui_raw" ]} : gset string))).
Proof.
  repeat apply conj.
  - rewrite vision_ask_run. intros H.
    apply pipeline_success in H as (path & b64 & reply & Hp & Hb & Hl & Hr & Hd).
    destruct (shaped_result p path "answer" (PStr reply) d Hp Hd) as (rel & _ & ->).
    exists path, b64, reply.
    do 4 (split; [assumption|]).
    split; [apply tool_result_lookup; done | apply tool_result_dom].
  - rewrite vision_ocr_run. intros H.
    apply pipeline_success in H as (path & b64 & reply & Hp & Hb & Hl & Hr & Hd).
    destruct (shaped_result p path "text" (PStr reply) d Hp Hd) as (rel & _ & ->).
    exists path, b64, reply.
    do 4 (split; [assumption|]).
    split; [apply tool_result_lookup; done | apply tool_result_dom].
  - rewrite vision_ui_spec_run. intros H.
    apply pipeline_success in H as (path & b64 & raw & Hp & Hb & Hl & Hr & Hd).
    exists path, b64, raw. do 4 (split; [assumption|]).
    destruct (relative_str_resolved p path Hp) as (rel & _ & Hs).
    unfold try_except, mbind, result_bind in Hd. rewrite Hs in Hd.
    destruct (json_loads raw) as [e|parsed]; injection Hd as <-.
    + right. apply tool_result_dom.
    + left. apply tool_result_dom.
Qed.

Lemma successful_tool_call_shape_witness :
  let W := Demo.world 1600 (Demo.ok " hi ") in
  exists path b64 answer,
    @_resolve_workspace_path W "shot.png" = inr path
    /\ @_load_image_b64 W path = inr b64
    /\ [@chat_request W "iVBORw0KGgo=" "what?" false]
       = ([] ++ [@chat_request W b64 "what?" false])%list
    /\ (@backend W (@chat_request W b64 "what?" false) ≫= @read_reply W) = inr answer
    /\ @tool_result W "shot.png" "answer" (PStr "hi") !! "answer" = Some (PStr answer)
    /\ dom (@tool_result W "shot.png" "answer" (PStr "hi"))
       = ({[ "model"; "image"; "answer" ]} : gset string).
Proof.
  intros W.
  apply (proj1 (successful_tool_call_shape W "shot.png" "what?" []
                  [@chat_request W "iVBORw0KGgo=" "what?" false]
                  (@tool_result W "shot.png" "answer" (PStr "hi")))).
  vm_compute. reflexivity.
Defined.

(** * The scenario generator

    Properties of [scripts/generate_random_scenario.py], for every random
    generator that keeps [randint] within its bounds and lets [sample] pick
    distinct positions of the population. *)

(** ** Tags *)
Section TagFacts.
Import Scenario.

(** Case analysis on which of the five abilities that matter are present. *)
Ltac by_abilities a :=
  unfold assign_tags, collected_tags;
  generalize (py_in "Target_PoisonSpray" a), (py_in "cure_wounds" a),
    (py_in "ranged_attack" a), (py_in "offhand_attack" a),
    (py_in "bardic_inspiration" a);
  intros [] [] [] [] [].

Lemma assign_tags_collected (a : list string) :
  assign_tags a = collected_tags a /\ NoDup (assign_tags a).
Proof.
  by_abilities a;
    (split; [vm_compute; reflexivity | apply (bool_decide_unpack _); vm_compute; exact I]).
Qed.

(** The tags as a function of the five membership tests. *)
Lemma assign_tags_by_cases (a : list string) :
  assign_tags a
  = ((if py_in "Target_PoisonSpray" a then ["melee"; "debuffer"] else [])
     ++ (if py_in "cure_wounds" a then ["healer"; "support"] else [])
     ++ (if py_in "ranged_attack" a then ["ranged"] else [])
     ++ (if py_in "offhand_attack" a && negb (py_in "Target_PoisonSpray" a)
         then ["melee"] else [])
     ++ (if py_in "bardic_inspiration" a && negb (py_in "cure_wounds" a)
         then ["support"] else []))%list.
Proof. by_abilities a; vm_compute; reflexivity. Qed.

Lemma assign_tags_ext (a b : list string) :
  (forall x, x ∈ a <-> x ∈ b) -> assign_tags a = assign_tags b.
Proof.
  intros H. unfold assign_tags, collected_tags, py_in.
  now rewrite !(bool_decide_ext _ _ (H _)).
Qed.

Ltac decide_concrete :=
  apply (bool_decide_unpack _); vm_compute; exact I.

Ltac as_membership H :=
  first [apply bool_decide_eq_true in H | apply bool_decide_eq_false in H].

Ltac tag_membership a :=
  rewrite (assign_tags_by_cases a); unfold py_in;
  destruct (bool_decide ("Target_PoisonSpray" ∈ a)) eqn:H1;
  destruct (bool_decide ("cure_wounds" ∈ a)) eqn:H2;
  destruct (bool_decide ("ranged_attack" ∈ a)) eqn:H3;
  destruct (bool_decide ("offhand_attack" ∈ a)) eqn:H4;
  destruct (bool_decide ("bardic_inspiration" ∈ a)) eqn:H5;
  as_membership H1; as_membership H2; as_membership H3; as_membership H4;
  as_membership H5;
  cbn [andb negb app];
  match goal with
  | |- ?L <-> _ =>
      first [ assert (HL : L) by decide_concrete; split; [intros _; tauto | intros _; exact HL]
            | assert (HL : ~ L) by decide_concrete;
              split; [intros HX; destruct (HL HX) | intros HX; exfalso; tauto] ]
  end.

Lemma tags_membership (a : list string) :
  ("melee" ∈ assign_tags a <-> "Target_PoisonSpray" ∈ a \/ "offhand_attack" ∈ a)
  /\ ("debuffer" ∈ assign_tags a <-> "Target_PoisonSpray" ∈ a)
  /\ ("healer" ∈ assign_tags a <-> "cure_wounds" ∈ a)
  /\ ("support" ∈ assign_tags a <-> "cure_wounds" ∈ a \/ "bardic_inspiration" ∈ a)
  /\ ("ranged" ∈ assign_tags a <-> "ranged_attack" ∈ a).
Proof.
  (split; [|split; [|split; [|split]]]); tag_membership a.
Qed.

Lemma tags_known (a : list string) :
  Forall (fun t => t ∈ ["melee"; "debuffer"; "healer"; "support"; "ranged"])
         (assign_tags a).
Proof.
  rewrite (assign_tags_by_cases a).
  generalize (py_in "Target_PoisonSpray" a), (py_in "cure_wounds" a),
    (py_in "ranged_attack" a), (py_in "offhand_attack" a),
    (py_in "bardic_inspiration" a).
  intros [] [] [] [] []; decide_concrete.
Qed.
End TagFacts.

(** X7: whatever the abilities, the tags computed by [assign_tags] have no
    repetition and are among [melee], [debuffer], [healer], [support] and
    [ranged]; the guards of the collecting phase already keep the list free
    of repetitions, so the final pass that removes duplicates returns the
    collected list as it is. *)
Theorem assign_tags_without_repetition (abilities : list string) :
  NoDup (Scenario.assign_tags abilities)
  /\ Forall (fun t => t ∈ ["melee"; "debuffer"; "healer"; "support"; "ranged"])
            (Scenario.assign_tags abilities)
  /\ Scenario.unique_tags ∅ (Scenario.collected_tags abilities)
     = Scenario.collected_tags abilities.
Proof.
  destruct (assign_tags_collected abilities) as [Heq Hnd].
  split; [exact Hnd|]. split; [apply tags_known|exact Heq].
Qed.

(** X8: which abilities give which tag.  [melee] comes from the poison
    spray or the off-hand attack, [debuffer] from the poison spray, [healer]
    from cure wounds, [support] from cure wounds or bardic inspiration, and
    [ranged] from the ranged attack; nothing else gives a tag. *)
Theorem assign_tags_membership (abilities : list string) :
  ("melee" ∈ Scenario.assign_tags abilities
     <-> "Target_PoisonSpray" ∈ abilities \/ "offhand_attack" ∈ abilities)
  /\ ("debuffer" ∈ Scenario.assign_tags abilities <-> "Target_PoisonSpray" ∈ abilities)
  /\ ("healer" ∈ Scenario.assign_tags abilities <-> "cure_wounds" ∈ abilities)
  /\ ("support" ∈ Scenario.assign_tags abilities
       <-> "cure_wounds" ∈ abilities \/ "bardic_inspiration" ∈ abilities)
  /\ ("ranged" ∈ Scenario.assign_tags abilities <-> "ranged_attack" ∈ abilities).
Proof. apply tags_membership. Qed.

(** X9: the tags, and their order, depend only on which abilities are
    present: two ability lists with the same members, in any order and with
    any repetitions, get the same list of tags. *)
Theorem assign_tags_depends_on_members (a b : list string) :
  (forall x, x ∈ a <-> x ∈ b) -> Scenario.assign_tags a = Scenario.assign_tags b.
Proof. apply assign_tags_ext. Qed.

Lemma assign_tags_depends_on_members_witness :
  Scenario.assign_tags ["cure_wounds"; "dash"; "offhand_attack"; "dash"]
  = Scenario.assign_tags ["offhand_attack"; "cure_wounds"; "dash"].
Proof.
  apply assign_tags_depends_on_members.
  intros x. rewrite !elem_of_cons, !elem_of_nil. tauto.
Defined.

(** ** Characters and scenarios *)
Section GeneratorFacts.
Import Scenario.
Context {S : Type} {R : Random S}.

(** What [sample] returns from a population without repetitions. *)
Lemma sample_facts (population : list string) (k : Z) (s : S) :
  NoDup population -> 0 <= k <= Z.of_nat (List.length population) ->
  Z.of_nat (List.length (sample population k s).1) = k
  /\ NoDup (sample population k s).1
  /\ Forall (fun x => x ∈ population) (sample population k s).1.
Proof.
  intros Hnd Hk.
  destruct (sample_picks population k s Hk) as (positions & Hpos & Hlen & Hsel).
  revert Hsel. generalize (sample population k s).1. intros l Hsel.
  rewrite <- Hlen. clear Hlen Hk.
  induction Hsel as [|i x positions l Hix Hsel IH].
  - repeat split; constructor.
  - apply NoDup_cons in Hpos as [Hi Hpos].
    destruct (IH Hpos) as (IHlen & IHnd & IHin).
    repeat split.
    + rewrite !length_cons. lia.
    + apply NoDup_cons. split; [|exact IHnd].
      intros Hx. apply Hi.
      apply list_elem_of_lookup in Hx as [j Hj].
      destruct (Forall2_lookup_r _ _ _ _ _ Hsel Hj) as (i' & Hi' & Hi'x).
      rewrite (NoDup_lookup population i i' x Hnd Hix Hi'x).
      now apply list_elem_of_lookup_2 in Hi'.
    + constructor; [|exact IHin]. now apply list_elem_of_lookup_2 in Hix.
Qed.

Lemma ADDITIONAL_ABILITIES_NoDup : NoDup ADDITIONAL_ABILITIES.
Proof. apply (bool_decide_unpack _). vm_compute. exact I. Qed.

Lemma generate_character_ok (char_id name faction : string) (xr zr : Z * Z) (s : S) :
  character_ok char_id name faction (generate_character char_id name faction xr zr s).1.
Proof.
  unfold generate_character, mbind, draw_bind, mret, draw_ret.
  pose proof (randint_in_range 1 3 s ltac:(lia)) as Hn.
  destruct (randint 1 3 s) as [n s1]. simpl in Hn.
  pose proof (sample_facts ADDITIONAL_ABILITIES n s1 ADDITIONAL_ABILITIES_NoDup
                ltac:(simpl; lia)) as (Hlen & Hnd & Hin).
  destruct (sample ADDITIONAL_ABILITIES n s1) as [additional s2]. simpl in Hlen, Hnd, Hin.
  pose proof (randint_in_range 35 80 s2 ltac:(lia)) as Hhp.
  destruct (randint 35 80 s2) as [hp s3]. simpl in Hhp.
  pose proof (randint_in_range 8 18 s3 ltac:(lia)) as Hini.
  destruct (randint 8 18 s3) as [initiative s4]. simpl in Hini.
  destruct (uniform xr.1 xr.2 s4) as [x s5].
  destruct (uniform zr.1 zr.2 s5) as [z s6].
  pose proof (randint_in_range 1 100 s6 ltac:(lia)) as Htb.
  destruct (randint 1 100 s6) as [tb s7]. simpl in Htb. simpl.
  exists hp, initiative, tb, additional, (round_2 x), (round_2 z).
  do 5 (split; [lookup_dict|]). split; [lia|].
  split; [lookup_dict|]. split; [lia|].
  split; [lookup_dict|]. split; [lia|].
  do 4 (split; [lookup_dict|]).
  split; [lia|].
  split.
  { apply NoDup_cons. split; [|exact Hnd]. intros Hm.
    rewrite Forall_forall in Hin. apply Hin in Hm. revert Hm.
    apply (bool_decide_unpack _). vm_compute. exact I. }
  split; [exact Hin|]. lookup_dict.
Qed.

Lemma PLAYER_NAMES_NoDup : NoDup PLAYER_NAMES.
Proof. apply (bool_decide_unpack _). vm_compute. exact I. Qed.

Lemma HOSTILE_NAMES_NoDup : NoDup HOSTILE_NAMES.
Proof. apply (bool_decide_unpack _). vm_compute. exact I. Qed.

(** Two names drawn from a pool. *)
Lemma sample_two (population : list string) (s : S) :
  NoDup population -> (2 <= List.length population)%nat ->
  exists a b, (sample population 2 s).1 = [a; b] /\ a <> b
              /\ a ∈ population /\ b ∈ population.
Proof.
  intros Hnd Hlen.
  destruct (sample_facts population 2 s Hnd ltac:(lia)) as (Hl & Hn & Hin).
  destruct (sample population 2 s).1 as [|a [|b [|c l]]]; simpl in Hl; try lia.
  exists a, b. split; [reflexivity|].
  apply NoDup_cons in Hn as [Hab _]. 
  apply Forall_cons in Hin as [Ha Hin]. apply Forall_cons in Hin as [Hb _].
  split; [|tauto]. intros ->. apply Hab. left.
Qed.

(** The units of one side: one for each name, in the order of the names,
    numbered from [i]. *)
Lemma generate_units_ok (prefix faction : string) (xr zr : Z * Z) (names : list string) :
  forall (i : Z) (s : S),
    List.length (generate_units prefix faction xr zr i names s).1 = List.length names
    /\ forall (k : nat) (name : string), names !! k = Some name ->
         exists u, (generate_units prefix faction xr zr i names s).1 !! k = Some u
                   /\ character_ok (prefix +:+ pretty (i + Z.of_nat k)) name faction u.
Proof.
  induction names as [|name rest IH]; intros i s; simpl.
  - split; [reflexivity|]. intros k n Hk. discriminate.
  - unfold mbind, draw_bind, mret, draw_ret.
    pose proof (generate_character_ok (prefix +:+ pretty i) name faction xr zr s) as Hc.
    destruct (generate_character (prefix +:+ pretty i) name faction xr zr s) as [u s1].
    specialize (IH (i + 1) s1).
    destruct (generate_units prefix faction xr zr (i + 1) rest s1) as [us s2].
    simpl in *. destruct IH as [IHlen IH]. split; [now rewrite IHlen|].
    intros [|k] n Hk.
    + injection Hk as <-. exists u. split; [reflexivity|]. now rewrite Z.add_0_r.
    + destruct (IH k n Hk) as (u' & Hu' & Hok). exists u'. split; [exact Hu'|].
      replace (i + Z.of_nat (Datatypes.S k)) with (i + 1 + Z.of_nat k) by lia.
      exact Hok.
Qed.

Lemma two_units (prefix faction : string) (xr zr : Z * Z) (a b : string) (s : S) :
  exists u1 u2, (generate_units prefix faction xr zr 1 [a; b] s).1 = [u1; u2]
                /\ character_ok (prefix +:+ "1") a faction u1
                /\ character_ok (prefix +:+ "2") b faction u2.
Proof.
  destruct (generate_units_ok prefix faction xr zr [a; b] 1 s) as [Hlen Hk].
  destruct (Hk 0%nat a eq_refl) as (u1 & Hu1 & Hok1).
  destruct (Hk 1%nat b eq_refl) as (u2 & Hu2 & Hok2).
  destruct (generate_units prefix faction xr zr 1 [a; b] s).1 as [|v1 [|v2 [|v3 l]]];
    try discriminate.
  injection Hu1 as ->. injection Hu2 as ->. now exists u1, u2.
Qed.

End GeneratorFacts.

Section LeastGenerator.
Import Scenario.

Lemma least_randint_in_range (a b : Z) (s : unit) :
  a <= b -> a <= (least_randint a b s).1 <= b.
Proof. simpl. lia. Qed.

Lemma least_sample_picks (population : list string) (k : Z) (s : unit) :
  0 <= k <= Z.of_nat (List.length population) ->
  exists positions : list nat,
    NoDup positions
    /\ Z.of_nat (List.length positions) = k
    /\ Forall2 (fun i x => population !! i = Some x) positions
                (least_sample population k s).1.
Proof.
  intros Hk. exists (seq 0 (Z.to_nat k)).
  split; [apply NoDup_seq|]. split; [rewrite length_seq; lia|].
  simpl. apply Forall2_same_length_lookup_2.
  - rewrite length_seq, length_take. lia.
  - intros i j x Hj Hx. apply lookup_seq in Hj as [-> Hi].
    now rewrite lookup_take_lt in Hx by lia.
Qed.

(** The least generator is a generator. *)
Lemma least : Random unit.
Proof.
  exact {| seeded := fun _ => tt;
           randint := least_randint;
           sample := least_sample;
           uniform := least_uniform;
           round_2 := fun x => x;
           randint_in_range := least_randint_in_range;
           sample_picks := least_sample_picks |}.
Defined.

(** The scenario of the least generator for seed 7: Aldric and Brienne
    against Grimfang and Vex, each with [ranged_attack] besides the main
    attack. *)
Example least_scenario :
  let d := @generate_scenario unit least 7 in
  d !! "id" = Some (PStr "random_2v2_seed_7")
  /\ d !! "name" = Some (PStr "Random 2v2 (Seed 7)")
  /\ exists u1 u2 u3 u4,
       d !! "units" = Some (PList [PDict u1; PDict u2; PDict u3; PDict u4])
       /\ u1 !! "name" = Some (PStr "Aldric") /\ u2 !! "name" = Some (PStr "Brienne")
       /\ u3 !! "id" = Some (PStr "hostile_1") /\ u4 !! "name" = Some (PStr "Vex")
       /\ u1 !! "abilities" = Some (PList [PStr "main_hand_attack"; PStr "ranged_attack"])
       /\ u1 !! "tags" = Some (PList [PStr "ranged"])
       /\ u1 !! "hp" = Some (PInt 35)
       /\ u3 !! "x" = Some (PFloat (S754_finite false 6755399441055744 (-51))).
Proof.
  cbv [generate_scenario scenario_draw generate_units generate_character mbind
       draw_bind mret draw_ret least seeded randint sample uniform round_2
       least_randint least_sample least_uniform fst snd fmap list_fmap
       PLAYER_NAMES HOSTILE_NAMES ADDITIONAL_ABILITIES take Z.to_nat Pos.to_nat
       Pos.iter_op Init.Nat.add].
  split; [lookup_dict|]. split; [lookup_dict|].
  do 4 eexists. split; [lookup_dict|].
  repeat split; lookup_dict.
  all: vm_compute; reflexivity.
Qed.

End LeastGenerator.

Section ScenarioTheorems.
Import Scenario.

(** X10: every generated character carries the id, name and faction it
    was asked for, equal [hp] and [maxHp] between 35 and 80, an initiative
    between 8 and 18, a tiebreaker between 1 and 100, [y] equal to 0, the
    main attack followed by one to three distinct abilities of the pool, and
    the tags that [assign_tags] gives for exactly these abilities. *)
Theorem generated_character_invariants {S : Type} {R : Scenario.Random S}
    (char_id name faction : string) (x_range z_range : Z * Z) (s : S) :
  Scenario.character_ok char_id name faction
    (Scenario.generate_character char_id name faction x_range z_range s).1.
Proof. apply generate_character_ok. Qed.

(** X11: every generated scenario has the id [random_2v2_seed_<seed>], the
    name [Random 2v2 (Seed <seed>)], the seed itself, and exactly four units:
    [player_1] and [player_2] of faction [player] with two different names
    of the player pool, then [hostile_1] and [hostile_2] of faction
    [hostile] with two different names of the hostile pool, each of them a
    character as described by [character_ok]. *)
Theorem generated_scenario_invariants {S : Type} {R : Scenario.Random S} (seed : Z) :
  Scenario.scenario_ok seed (Scenario.generate_scenario seed).
Proof.
  unfold generate_scenario. generalize (seeded seed). intros s.
  unfold scenario_draw, mbind, draw_bind, mret, draw_ret.
  destruct (sample_two PLAYER_NAMES s PLAYER_NAMES_NoDup ltac:(simpl; lia))
    as (p1 & p2 & Hp & Hpd & Hp1 & Hp2).
  destruct (sample PLAYER_NAMES 2 s) as [ps s1]. simpl in Hp. subst ps.
  destruct (sample_two HOSTILE_NAMES s1 HOSTILE_NAMES_NoDup ltac:(simpl; lia))
    as (h1 & h2 & Hh & Hhd & Hh1 & Hh2).
  destruct (sample HOSTILE_NAMES 2 s1) as [hs s2]. simpl in Hh. subst hs.
  destruct (two_units "player_" "player" (-5, -3) (-2, 2) p1 p2 s2)
    as (u1 & u2 & Hu & Hu1 & Hu2).
  destruct (generate_units "player_" "player" (-5, -3) (-2, 2) 1 [p1; p2] s2) as [us s3].
  simpl in Hu. subst us.
  destruct (two_units "hostile_" "hostile" (3, 5) (-2, 2) h1 h2 s3)
    as (u3 & u4 & Hv & Hu3 & Hu4).
  destruct (generate_units "hostile_" "hostile" (3, 5) (-2, 2) 1 [h1; h2] s3) as [vs s4].
  simpl in Hv. subst vs.
  unfold scenario_ok. simpl fst.
  do 3 (split; [lookup_dict|]).
  exists p1, p2, h1, h2, u1, u2, u3, u4.
  split; [lookup_dict|]. tauto.
Qed.

End ScenarioTheorems.

Lemma generated_character_invariants_witness :
  Scenario.character_ok "player_1" "Aldric" "player"
    (@Scenario.generate_character unit least "player_1" "Aldric" "player"
       (-5, -3) (-2, 2) tt).1.
Proof. apply generated_character_invariants. Defined.

Lemma generated_scenario_invariants_witness :
  Scenario.scenario_ok 7 (@Scenario.generate_scenario unit least 7).
Proof. apply generated_scenario_invariants. Defined.

(** * The icon fixer

    Properties of [scripts/fix_spell_icons.py]. *)

Section KeyFacts.
Import Icons.

Lemma underscore_not_key_char (c : ascii) :
  is_key_char c = true -> Ascii.eqb c underscore = false.
Proof.
  intros H. destruct (Ascii.eqb_spec c underscore) as [->|]; [discriminate H|reflexivity].
Qed.

Lemma lower_key_char (c : ascii) : is_key_char c = true -> PyStr.lower_char c = c.
Proof.
  destruct c as [[] [] [] [] [] [] [] []]; vm_compute; intros H;
    first [reflexivity | discriminate H].
Qed.

Lemma lower_underscore : PyStr.lower_char underscore = underscore.
Proof. reflexivity. Qed.

Lemma run_body_cons (c : ascii) (s : string) :
  run_body (String c s)
  = ((is_key_char c || Ascii.eqb c underscore && head_is_key s) && run_body s)%bool.
Proof. destruct s; reflexivity. Qed.

Lemma sub_runs_key (c : ascii) (s : string) :
  is_key_char c = true -> sub_runs (String c s) = String c (sub_runs s).
Proof. intros H. simpl. now rewrite H. Qed.

Lemma sub_runs_body (s : string) : run_body (sub_runs s) = true.
Proof.
  induction s as [|c s IH]; [reflexivity|].
  destruct (is_key_char c) eqn:E.
  - rewrite (sub_runs_key c s E). simpl. now rewrite E, IH.
  - destruct s as [|c' s]; [simpl; rewrite E; reflexivity|].
    destruct (is_key_char c') eqn:E'.
    + change (sub_runs (String c (String c' s)))
        with (if is_key_char c then String c (sub_runs (String c' s))
              else if is_key_char c' then String underscore (sub_runs (String c' s))
                   else sub_runs (String c' s)).
      rewrite E, E'. rewrite run_body_cons, IH.
      rewrite (sub_runs_key c' s E'). simpl. rewrite E'.
      now destruct (is_key_char underscore).
    + change (sub_runs (String c (String c' s)))
        with (if is_key_char c then String c (sub_runs (String c' s))
              else if is_key_char c' then String underscore (sub_runs (String c' s))
                   else sub_runs (String c' s)).
      rewrite E, E'. exact IH.
Qed.

Lemma run_body_tail (c : ascii) (s : string) :
  run_body (String c s) = true -> run_body s = true.
Proof. simpl. intros H. now apply andb_prop in H as [_ H]. Qed.

Lemma lstrip_body (s : string) :
  run_body s = true ->
  run_body (lstrip_underscores s) = true /\ head_is_key (lstrip_underscores s) = true.
Proof.
  induction s as [|c s IH]; [split; reflexivity|]. intros H.
  simpl lstrip_underscores.
  destruct (Ascii.eqb c underscore) eqn:E.
  - apply IH. exact (run_body_tail c s H).
  - split; [exact H|]. simpl in *. rewrite E in H. simpl in H.
    apply andb_prop in H as [H _]. now rewrite orb_false_r in H.
Qed.

Lemma rstrip_head (c : ascii) (s : string) :
  Ascii.eqb c underscore = false ->
  exists r, rstrip_underscores (String c s) = String c r.
Proof.
  intros E. simpl. destruct (rstrip_underscores s).
  - rewrite E. now exists "".
  - now eexists.
Qed.

Lemma rstrip_body (s : string) :
  run_body s = true ->
  key_body (rstrip_underscores s) = true
  /\ (head_is_key s = true -> head_is_key (rstrip_underscores s) = true).
Proof.
  induction s as [|c s IH]; [split; reflexivity|]. intros H.
  destruct (IH (run_body_tail c s H)) as [IHb IHh]. clear IH.
  simpl in H. apply andb_prop in H as [Hc Hs].
  simpl rstrip_underscores.
  destruct (rstrip_underscores s) as [|c1 r] eqn:Er.
  - destruct (Ascii.eqb c underscore) eqn:E; [split; reflexivity|].
    simpl in Hc. rewrite orb_false_r in Hc. simpl. rewrite Hc. split; reflexivity.
  - split; [|intros Hh; exact Hh].
    change (key_body (String c (String c1 r)))
      with ((is_key_char c || Ascii.eqb c underscore && is_key_char c1)
            && key_body (String c1 r))%bool.
    rewrite IHb, andb_true_r.
    destruct (is_key_char c) eqn:Ek; [reflexivity|]. simpl in Hc |- *.
    apply andb_prop in Hc as [Hu Hn]. rewrite Hu. simpl.
    destruct s as [|c' s]; [discriminate Er|].
    destruct (rstrip_head c' s (underscore_not_key_char c' Hn)) as [r' Hr'].
    rewrite Hr' in Er. injection Er as <- _. exact Hn.
Qed.

(** Every result of [normalize_key] is a well-formed key. *)
Lemma normalize_key_is_key (s : string) : is_key (normalize_key s) = true.
Proof.
  unfold normalize_key, is_key.
  destruct (lstrip_body _ (sub_runs_body (PyStr.lower s))) as [Hb Hh].
  destruct (rstrip_body _ Hb) as [Hk Hk'].
  rewrite Hk. exact (Hk' Hh).
Qed.

Lemma key_body_tail (c : ascii) (s : string) :
  key_body (String c s) = true -> key_body s = true.
Proof. simpl. intros H. now apply andb_prop in H as [_ H]. Qed.

Lemma key_body_lower (s : string) : key_body s = true -> PyStr.lower s = s.
Proof.
  induction s as [|c s IH]; [reflexivity|]. intros H.
  simpl. rewrite (IH (key_body_tail c s H)). f_equal.
  simpl in H. apply andb_prop in H as [H _]. apply orb_prop in H as [H|H].
  - now apply lower_key_char.
  - apply andb_prop in H as [H _]. apply Ascii.eqb_eq in H. now subst c.
Qed.

Lemma key_body_sub_runs (s : string) : key_body s = true -> sub_runs s = s.
Proof.
  induction s as [|c s IH]; [reflexivity|]. intros H.
  specialize (IH (key_body_tail c s H)).
  simpl in H. apply andb_prop in H as [H _].
  destruct (is_key_char c) eqn:E.
  - rewrite (sub_runs_key c s E). now rewrite IH.
  - simpl in H. apply andb_prop in H as [Hu Hn]. apply Ascii.eqb_eq in Hu. subst c.
    destruct s as [|c' s]; [discriminate Hn|].
    change (sub_runs (String underscore (String c' s)))
      with (if is_key_char underscore then String underscore (sub_runs (String c' s))
            else if is_key_char c' then String underscore (sub_runs (String c' s))
                 else sub_runs (String c' s)).
    rewrite E, Hn. now rewrite IH.
Qed.

Lemma key_body_rstrip (s : string) : key_body s = true -> rstrip_underscores s = s.
Proof.
  induction s as [|c s IH]; [reflexivity|]. intros H.
  specialize (IH (key_body_tail c s H)). simpl. rewrite IH.
  destruct s as [|c' s]; [|reflexivity].
  simpl in H. rewrite andb_false_r, orb_false_r, andb_true_r in H.
  now rewrite (underscore_not_key_char c H).
Qed.

Lemma head_key_lstrip (s : string) : head_is_key s = true -> lstrip_underscores s = s.
Proof.
  destruct s as [|c s]; [reflexivity|]. simpl. intros H.
  now rewrite (underscore_not_key_char c H).
Qed.

(** A well-formed key is its own normal form. *)
Lemma is_key_fixed (k : string) : is_key k = true -> normalize_key k = k.
Proof.
  unfold is_key, normalize_key. intros H. apply andb_prop in H as [Hb Hh].
  rewrite (key_body_lower k Hb), (key_body_sub_runs k Hb), (head_key_lstrip k Hh).
  exact (key_body_rstrip k Hb).
Qed.

Lemma lower_char_idempotent (c : ascii) :
  PyStr.lower_char (PyStr.lower_char c) = PyStr.lower_char c.
Proof. destruct c as [[] [] [] [] [] [] [] []]; reflexivity. Qed.

Lemma lower_idempotent (s : string) : PyStr.lower (PyStr.lower s) = PyStr.lower s.
Proof.
  induction s as [|c s IH]; [reflexivity|]. simpl.
  now rewrite lower_char_idempotent, IH.
Qed.

End KeyFacts.

(** X12: every result of [normalize_key] is a well-formed key: only the
    letters a..z, digits and underscores, no underscore at either end and no
    two underscores in a row.  Normalising is idempotent and does not
    depend on the case of the letters. *)
Theorem normalize_key_well_formed (name : string) :
  Icons.is_key (Icons.normalize_key name) = true
  /\ Icons.normalize_key (Icons.normalize_key name) = Icons.normalize_key name
  /\ Icons.normalize_key (PyStr.lower name) = Icons.normalize_key name.
Proof.
  split; [apply normalize_key_is_key|]. split.
  - apply is_key_fixed, normalize_key_is_key.
  - unfold Icons.normalize_key. now rewrite lower_idempotent.
Qed.

(** X13: the well-formed keys are exactly the strings that
    [normalize_key] leaves as they are. *)
Theorem well_formed_keys_are_the_fixed_points (k : string) :
  Icons.is_key k = true <-> Icons.normalize_key k = k.
Proof.
  split; [apply is_key_fixed|]. intros <-. apply normalize_key_is_key.
Qed.

Section LookupFacts.
Import Icons.
Context {F : Folders}.

Lemma add_new_union (k v : string) (lookup : gmap string string) :
  add_new k v lookup = lookup ∪ {[ k := v ]}.
Proof.
  unfold add_new. apply map_eq. intros i.
  destruct (lookup !! k) eqn:E.
  - rewrite lookup_union. destruct (decide (i = k)) as [->|Hne].
    + rewrite E. now rewrite lookup_singleton_eq.
    + rewrite lookup_singleton_ne by congruence. now destruct (lookup !! i).
  - rewrite insert_union_singleton_r by exact E. reflexivity.
Qed.

Lemma foldl_add_entry (es : list (string * string)) :
  forall lookup : gmap string string,
    foldl add_entry lookup es = lookup ∪ list_to_map es.
Proof.
  induction es as [|[k v] es IH]; intros lookup; simpl.
  - now rewrite (right_id_L ∅ (∪)).
  - rewrite IH. unfold add_entry. simpl. rewrite add_new_union.
    rewrite <- (assoc_L (∪)). f_equal.
    now rewrite insert_union_singleton_l.
Qed.

Lemma add_file_entries (folder_name fname : string) (lookup : gmap string string) :
  add_file folder_name lookup fname
  = foldl add_entry lookup (file_entries folder_name fname).
Proof.
  unfold add_file, file_entries, file_keys.
  now destruct (strip_suffix ".png" fname).
Qed.

Lemma add_files_entries (folder_name : string) (files : list string) :
  forall lookup : gmap string string,
    foldl (add_file folder_name) lookup files
    = lookup ∪ list_to_map (flat_map (file_entries folder_name) files).
Proof.
  induction files as [|fname files IH]; intros lookup; simpl.
  - now rewrite (right_id_L ∅ (∪)).
  - rewrite IH, add_file_entries, foldl_add_entry, list_to_map_app.
    now rewrite (assoc_L (∪)).
Qed.

(** The table is the first-wins table of the entries. *)
Lemma add_folders_entries (folders : list (string * string)) :
  forall lookup : gmap string string,
    add_folders folders lookup
    = (entries ← all_entries folders; mret (lookup ∪ list_to_map entries)).
Proof.
  induction folders as [|[folder_name tag] folders IH]; intros lookup; simpl.
  - unfold mbind, mret, outcome_bind, outcome_ret. now rewrite (right_id_L ∅ (∪)).
  - destruct (isdir folder_name); [|apply IH].
    unfold mbind, mret, outcome_bind, outcome_ret in *.
    destruct (listdir folder_name) as [e|files]; [reflexivity|].
    rewrite IH, add_files_entries.
    destruct (all_entries folders) as [e|entries]; [reflexivity|].
    now rewrite list_to_map_app, (assoc_L (∪)).
Qed.

Lemma build_icon_lookup_entries (lookup : gmap string string) :
  build_icon_lookup = inr lookup <->
  exists entries, all_entries ICON_FOLDERS = inr entries /\ lookup = list_to_map entries.
Proof.
  unfold build_icon_lookup. rewrite add_folders_entries.
  unfold mbind, mret, outcome_bind, outcome_ret.
  destruct (all_entries ICON_FOLDERS) as [e|entries].
  - split; [discriminate|]. intros (? & ? & _). discriminate.
  - rewrite (left_id_L ∅ (∪)). split.
    + intros [= <-]. now exists entries.
    + intros (? & [= <-] & ->). reflexivity.
Qed.

Lemma build_icon_lookup_succeeds (entries : list (string * string)) :
  all_entries ICON_FOLDERS = inr entries ->
  exists lookup, build_icon_lookup = inr lookup.
Proof.
  intros He. exists (list_to_map entries).
  apply build_icon_lookup_entries. now exists entries.
Qed.

(** Where an entry comes from. *)
Lemma all_entries_elem (folders : list (string * string)) :
  forall entries k v,
    all_entries folders = inr entries -> (k, v) ∈ entries ->
    exists folder_name tag files fname,
      (folder_name, tag) ∈ folders /\ isdir folder_name = true
      /\ listdir folder_name = inr files /\ fname ∈ files
      /\ k ∈ file_keys fname /\ v = res_path folder_name fname.
Proof.
  induction folders as [|[folder_name tag] folders IH]; intros entries k v; simpl.
  - intros [= <-] H. now apply elem_of_nil in H.
  - destruct (isdir folder_name) eqn:Ed.
    + unfold mbind, mret, outcome_bind, outcome_ret.
      destruct (listdir folder_name) as [e|files] eqn:El; [discriminate|].
      destruct (all_entries folders) as [e|rest] eqn:Er; [discriminate|].
      intros [= <-] H. apply elem_of_app in H as [H|H].
      * apply list_elem_of_In, in_flat_map in H as (fname & Hf & H).
        apply list_elem_of_In in Hf, H. unfold file_entries in H.
        apply list_elem_of_fmap in H as (k' & [= -> ->] & Hk).
        exists folder_name, tag, files, fname.
        repeat split; try assumption. left.
      * destruct (IH rest k v eq_refl H) as (f & t & fs & fname & Hf & ?).
        exists f, t, fs, fname. split; [now right|assumption].
    + intros He H.
      destruct (IH entries k v He H) as (f & t & fs & fname & Hf & ?).
      exists f, t, fs, fname. split; [now right|assumption].
Qed.

(** The entries of a list of folders that splits. *)
Lemma all_entries_app (before after : list (string * string)) :
  forall entries,
    all_entries (before ++ after) = inr entries ->
    exists eb ea, all_entries before = inr eb /\ all_entries after = inr ea
                  /\ entries = (eb ++ ea)%list.
Proof.
  induction before as [|[folder_name tag] before IH]; intros entries; simpl.
  - intros H. now exists [], entries.
  - destruct (isdir folder_name); [|apply IH].
    unfold mbind, mret, outcome_bind, outcome_ret.
    destruct (listdir folder_name) as [e|files]; [discriminate|].
    destruct (all_entries (before ++ after)) as [e|rest] eqn:Er; [discriminate|].
    intros [= <-]. destruct (IH rest eq_refl) as (eb & ea & -> & Ha & ->).
    exists (flat_map (file_entries folder_name) files ++ eb)%list, ea.
    now rewrite (assoc_L (++)).
Qed.

(** The first entries with a key decide its value. *)
Lemma first_wins (e1 e2 e3 : list (string * string)) (k v : string) :
  k ∉ e1.*1 -> k ∈ e2.*1 -> (forall k' v', (k', v') ∈ e2 -> v' = v) ->
  (list_to_map (e1 ++ e2 ++ e3) : gmap string string) !! k = Some v.
Proof.
  intros H1 H2 Hv. rewrite !list_to_map_app.
  rewrite lookup_union_r by now apply not_elem_of_list_to_map_1.
  destruct ((list_to_map e2 : gmap string string) !! k) as [v'|] eqn:E.
  - rewrite lookup_union_l' by (rewrite E; eauto). rewrite E.
    apply elem_of_list_to_map_2 in E. now rewrite (Hv k v' E).
  - apply not_elem_of_list_to_map_2 in E. contradiction.
Qed.

Lemma file_entries_elem (folder_name fname k v : string) :
  (k, v) ∈ file_entries folder_name fname
  <-> k ∈ file_keys fname /\ v = res_path folder_name fname.
Proof.
  unfold file_entries. rewrite list_elem_of_fmap. split.
  - intros (k' & [= -> ->] & Hk). now split.
  - intros [Hk ->]. now exists k.
Qed.

Lemma flat_entries_elem (folder_name : string) (files : list string) (k v : string) :
  (k, v) ∈ flat_map (file_entries folder_name) files
  <-> exists fname, fname ∈ files /\ k ∈ file_keys fname /\ v = res_path folder_name fname.
Proof.
  rewrite list_elem_of_In, in_flat_map. split.
  - intros (fname & Hf & H). apply list_elem_of_In in Hf, H.
    apply file_entries_elem in H. now exists fname.
  - intros (fname & Hf & H). exists fname.
    rewrite <- !list_elem_of_In. split; [exact Hf|]. now apply file_entries_elem.
Qed.

(** Every file of a listed folder is among the entries. *)
Lemma all_entries_complete (folders : list (string * string)) :
  forall entries folder_name tag files fname k,
    all_entries folders = inr entries ->
    (folder_name, tag) ∈ folders -> isdir folder_name = true ->
    listdir folder_name = inr files -> fname ∈ files -> k ∈ file_keys fname ->
    (k, res_path folder_name fname) ∈ entries.
Proof.
  induction folders as [|[f t] folders IH];
    intros entries folder_name tag files fname k He Hin Hd Hl Hf Hk.
  - now apply elem_of_nil in Hin.
  - simpl in He. apply elem_of_cons in Hin as [[= <- <-]|Hin].
    + rewrite Hd in He. unfold mbind, mret, outcome_bind, outcome_ret in He.
      rewrite Hl in He. destruct (all_entries folders) as [e|rest]; [discriminate|].
      injection He as <-. apply elem_of_app. left.
      apply flat_entries_elem. now exists fname.
    + destruct (isdir f).
      * unfold mbind, mret, outcome_bind, outcome_ret in He.
        destruct (listdir f) as [e|fs]; [discriminate|].
        destruct (all_entries folders) as [e|rest] eqn:Er; [discriminate|].
        injection He as <-. apply elem_of_app. right.
        exact (IH rest folder_name tag files fname k eq_refl Hin Hd Hl Hf Hk).
      * exact (IH entries folder_name tag files fname k He Hin Hd Hl Hf Hk).
Qed.

Lemma file_keys_are_keys (fname k : string) : k ∈ file_keys fname -> is_key k = true.
Proof.
  unfold file_keys. destruct (strip_suffix ".png" fname).
  - rewrite !elem_of_cons, elem_of_nil.
    intros [->|[->|[]]]; apply normalize_key_is_key.
  - intros H. now apply elem_of_nil in H.
Qed.

End LookupFacts.

(** X14: when the table of icons is built, every entry of it maps a
    well-formed key of a [.png] file, listed in one of the icon folders that
    is a directory, to the resource path of that file; and every key of
    every such file is in the table. *)
Theorem lookup_holds_the_icon_files {F : Icons.Folders} (lookup : gmap string string) :
  Icons.build_icon_lookup = inr lookup ->
  (forall k v, lookup !! k = Some v ->
     Icons.is_key k = true
     /\ exists folder_name tag files fname,
          (folder_name, tag) ∈ Icons.ICON_FOLDERS /\ Icons.isdir folder_name = true
          /\ Icons.listdir folder_name = inr files /\ fname ∈ files
          /\ k ∈ Icons.file_keys fname /\ v = Icons.res_path folder_name fname)
  /\ (forall folder_name tag files fname k,
        (folder_name, tag) ∈ Icons.ICON_FOLDERS -> Icons.isdir folder_name = true ->
        Icons.listdir folder_name = inr files -> fname ∈ files ->
        k ∈ Icons.file_keys fname -> is_Some (lookup !! k)).
Proof.
  intros H. apply build_icon_lookup_entries in H as (entries & He & ->). split.
  - intros k v Hk. apply elem_of_list_to_map_2 in Hk.
    destruct (all_entries_elem _ _ _ _ He Hk)
      as (folder_name & tag & files & fname & H1 & H2 & H3 & H4 & H5 & H6).
    split; [exact (file_keys_are_keys fname k H5)|].
    now exists folder_name, tag, files, fname.
  - intros folder_name tag files fname k H1 H2 H3 H4 H5.
    pose proof (all_entries_complete _ _ _ _ _ _ _ He H1 H2 H3 H4 H5) as Hin.
    destruct ((list_to_map entries : gmap string string) !! k) eqn:E; [eauto|].
    apply not_elem_of_list_to_map_2 in E. destruct E.
    apply list_elem_of_fmap. now exists (k, Icons.res_path folder_name fname).
Qed.

Lemma lookup_holds_the_icon_files_witness :
  exists lookup,
    @Icons.build_icon_lookup IconsDemo.folders = inr lookup
    /\ is_Some (lookup !! "dash")
    /\ forall v, lookup !! "bless_icon" = Some v -> Icons.is_key "bless_icon" = true.
Proof.
  edestruct (@build_icon_lookup_succeeds IconsDemo.folders) as [lookup E];
    [vm_compute; reflexivity|].
  exists lookup. split; [exact E|].
  destruct (lookup_holds_the_icon_files lookup E) as [H1 H2]. split.
  - apply (H2 "Icons Actions" "action" ["Fire_Bolt.png"; "Dash_Unfaded_Icon.png"]
              "Dash_Unfaded_Icon.png" "dash");
      first [reflexivity | apply (bool_decide_unpack _); vm_compute; exact I].
  - intros v Hv. exact (proj1 (H1 _ _ Hv)).
Defined.

(** X15: the first file wins.  If no file of the folders that come
    earlier in the priority order gives the key, and in the first folder
    that does no file listed before [fname] gives it, the key is mapped to
    the path of [fname] in that folder, whatever is listed later. *)
Theorem first_listed_file_wins {F : Icons.Folders} (lookup : gmap string string)
    (before after : list (string * string)) (folder_name tag : string)
    (files1 files2 : list string) (fname k : string) :
  Icons.build_icon_lookup = inr lookup ->
  Icons.ICON_FOLDERS = (before ++ (folder_name, tag) :: after)%list ->
  (forall f t files g, (f, t) ∈ before -> Icons.isdir f = true ->
     Icons.listdir f = inr files -> g ∈ files -> k ∉ Icons.file_keys g) ->
  Icons.isdir folder_name = true ->
  Icons.listdir folder_name = inr (files1 ++ fname :: files2)%list ->
  (forall g, g ∈ files1 -> k ∉ Icons.file_keys g) ->
  k ∈ Icons.file_keys fname ->
  lookup !! k = Some (Icons.res_path folder_name fname).
Proof.
  intros H Hsplit Hbefore Hd Hl Hfiles1 Hk.
  apply build_icon_lookup_entries in H as (entries & He & ->).
  rewrite Hsplit in He.
  apply all_entries_app in He as (eb & ea & Heb & Hea & ->).
  simpl in Hea. rewrite Hd in Hea.
  unfold mbind, mret, Icons.outcome_bind, Icons.outcome_ret in Hea. rewrite Hl in Hea.
  destruct (Icons.all_entries after) as [e|rest]; [discriminate|]. injection Hea as <-.
  rewrite flat_map_app. simpl.
  rewrite <- !(assoc_L (++)), (assoc_L (++) eb).
  apply first_wins.
  - rewrite fmap_app, elem_of_app. intros [Hin|Hin];
      apply list_elem_of_fmap in Hin as ([k' v] & -> & Hin); simpl in *.
    + destruct (all_entries_elem _ _ _ _ Heb Hin) as (f & t & fs & g & H1 & H2 & H3 & H4 & H5 & _).
      exact (Hbefore f t fs g H1 H2 H3 H4 H5).
    + apply flat_entries_elem in Hin as (g & Hg & Hkg & _). exact (Hfiles1 g Hg Hkg).
  - apply list_elem_of_fmap. exists (k, Icons.res_path folder_name fname).
    split; [reflexivity|]. now apply file_entries_elem.
  - intros k' v' Hin. now apply file_entries_elem in Hin.
Qed.

Lemma first_listed_file_wins_witness :
  exists lookup,
    @Icons.build_icon_lookup IconsDemo.folders = inr lookup
    /\ lookup !! "fire_bolt"
       = Some "res://assets/Images/Icons Spells/Fire_Bolt_Unfaded_Icon.png".
Proof.
  edestruct (@build_icon_lookup_succeeds IconsDemo.folders) as [lookup E];
    [vm_compute; reflexivity|].
  exists lookup. split; [exact E|].
  apply (first_listed_file_wins lookup [] (tail Icons.ICON_FOLDERS) "Icons Spells" "spell"
           [] ["notes.txt"; "Bless_Icon.png"] "Fire_Bolt_Unfaded_Icon.png" "fire_bolt" E).
  - reflexivity.
  - intros f t files g Hin. now apply elem_of_nil in Hin.
  - reflexivity.
  - reflexivity.
  - intros g Hin. now apply elem_of_nil in Hin.
  - apply (bool_decide_unpack _). vm_compute. exact I.
Defined.

Section FindFacts.
Import Icons.

Lemma strip_prefixes_found (prefixes : list string) (lookup : gmap string string)
    (icon : string) :
  forall stripped,
    strip_prefixes prefixes stripped lookup = Some icon ->
    exists k, lookup !! k = Some icon.
Proof.
  induction prefixes as [|prefix rest IH]; intros stripped; simpl; [discriminate|].
  destruct (strip_prefix prefix stripped) as [stripped'|]; [|apply IH].
  destruct (lookup !! stripped') as [icon'|] eqn:E; [|apply IH].
  intros [= <-]. now exists stripped'.
Qed.

Lemma find_by_override_found (action_id : string) (lookup : gmap string string)
    (icon : string) :
  find_by_override action_id lookup = Some icon -> exists k, lookup !! k = Some icon.
Proof.
  unfold find_by_override.
  destruct (override action_id MANUAL_OVERRIDES) as [base|]; [|discriminate].
  destruct (lookup !! normalize_key base) as [icon'|] eqn:E.
  - intros [= <-]. eauto.
  - intros H. eauto.
Qed.

Lemma find_by_name_found (action_name : string) (lookup : gmap string string)
    (icon : string) :
  find_by_name_without_number action_name lookup = Some icon ->
  exists k, lookup !! k = Some icon.
Proof.
  unfold find_by_name_without_number.
  destruct (negb _); [|discriminate]. intros H. eauto.
Qed.

Lemma find_icon_found (action_id action_name : pyval) (lookup : gmap string string)
    (icon : string) :
  find_icon_for_id action_id action_name lookup = inr (Some icon) ->
  exists k, lookup !! k = Some icon.
Proof.
  unfold find_icon_for_id, mbind, mret, outcome_bind, outcome_ret.
  destruct (normalize_key_of action_id) as [e|key]; [discriminate|].
  destruct (lookup !! key) as [i0|] eqn:E0; [intros [= <-]; eauto|].
  destruct (if truthy action_name then _ else _) as [e|by_name] eqn:En; [discriminate|].
  destruct by_name as [i1|].
  { intros [= <-]. destruct (truthy action_name); [|discriminate].
    destruct (normalize_key_of action_name) as [e|name_key]; [discriminate|].
    injection En as En. eauto. }
  destruct (strip_prefixes _ key lookup) as [i2|] eqn:E2.
  { intros [= <-]. exact (strip_prefixes_found _ _ _ _ E2). }
  destruct (if negb _ then lookup !! _ else None) as [i3|] eqn:E3.
  { intros [= <-]. destruct (negb _); [eauto|discriminate]. }
  destruct (match action_name with PStr _ => _ | _ => None end) as [i4|] eqn:E4.
  { intros [= <-]. destruct action_name; try discriminate.
    destruct (truthy _); [|discriminate]. exact (find_by_name_found _ _ _ E4). }
  destruct action_id; intros [= H]; try discriminate.
  exact (find_by_override_found _ _ _ H).
Qed.

Lemma find_icon_direct (action_id : string) (action_name : pyval)
    (lookup : gmap string string) (icon : string) :
  lookup !! normalize_key action_id = Some icon ->
  find_icon_for_id (PStr action_id) action_name lookup = inr (Some icon).
Proof.
  intros H. unfold find_icon_for_id, mbind, mret, outcome_bind, outcome_ret. simpl.
  now rewrite H.
Qed.

Lemma find_icon_needs_str_id (action_id action_name : pyval)
    (lookup : gmap string string) :
  (forall s, action_id <> PStr s) ->
  find_icon_for_id action_id action_name lookup
  = inl (Exn (AttributeError "object has no attribute 'lower'")).
Proof.
  intros H. destruct action_id; try reflexivity. now destruct (H s).
Qed.

Lemma strip_prefixes_empty (prefixes : list string) :
  forall stripped, strip_prefixes prefixes stripped ∅ = None.
Proof.
  induction prefixes as [|prefix rest IH]; intros stripped; simpl; [reflexivity|].
  destruct (strip_prefix prefix stripped); [|apply IH].
  rewrite lookup_empty. apply IH.
Qed.

Lemma find_icon_empty (action_id action_name : string) :
  find_icon_for_id (PStr action_id) (PStr action_name) ∅ = inr None.
Proof.
  unfold find_icon_for_id, normalize_key_of. cbn [truthy].
  unfold mbind, mret, outcome_bind, outcome_ret. rewrite lookup_empty.
  destruct (negb (String.eqb action_name ""));
    rewrite ?lookup_empty, strip_prefixes_empty;
    (destruct (negb (String.eqb (sub_trailing_number _) _)));
    rewrite ?lookup_empty;
    unfold find_by_name_without_number, find_by_override;
    try (destruct (negb (String.eqb (sub_trailing_spaced_number _) _)));
    rewrite ?lookup_empty;
    (destruct (override action_id MANUAL_OVERRIDES)); now rewrite ?lookup_empty.
Qed.

End FindFacts.

(** X16: an icon that [find_icon_for_id] returns is a value of the table,
    whichever of its attempts found it. *)
Theorem found_icon_is_in_the_table (action_id action_name : pyval)
    (lookup : gmap string string) (icon : string) :
  Icons.find_icon_for_id action_id action_name lookup = inr (Some icon) ->
  exists k, lookup !! k = Some icon.
Proof. apply find_icon_found. Qed.

Lemma found_icon_is_in_the_table_witness :
  exists k, IconsDemo.lookup !! k = Some IconsDemo.fire_bolt_icon.
Proof.
  apply (found_icon_is_in_the_table (PStr "Projectile_Fire_Bolt") (PStr "Fire Bolt 2")
           IconsDemo.lookup IconsDemo.fire_bolt_icon).
  vm_compute. reflexivity.
Defined.

(** X17: the id comes first.  When the normalised id is a key of the
    table, its icon is returned whatever the name is, even a name that is
    not a str and would raise if it were looked at. *)
Theorem direct_id_takes_precedence (action_id : string) (action_name : pyval)
    (lookup : gmap string string) (icon : string) :
  lookup !! Icons.normalize_key action_id = Some icon ->
  Icons.find_icon_for_id (PStr action_id) action_name lookup = inr (Some icon).
Proof. apply find_icon_direct. Qed.

Lemma direct_id_takes_precedence_witness :
  Icons.find_icon_for_id (PStr "Fire Bolt") (PInt 7) IconsDemo.lookup
  = inr (Some IconsDemo.fire_bolt_icon).
Proof.
  apply direct_id_takes_precedence.
  change (Icons.normalize_key "Fire Bolt") with "fire_bolt".
  apply lookup_singleton_eq.
Defined.

Section FixFacts.
Import Icons.

Lemma fix_action_dict (lookup : gmap string string) (p : Progress)
    (fields : gmap string pyval) :
  fix_action lookup p (PDict fields)
  = (generic ← is_generic_icon (default (PStr "") (fields !! "icon"));
     if negb generic then
       mret {| fixed := fixed p; skipped := skipped p + 1;
               done := (done p ++ [PDict fields])%list |}
     else
       new_icon ← find_icon_for_id (default (PStr "") (fields !! "id"))
                                   (default (PStr "") (fields !! "name")) lookup;
       match new_icon with
       | Some icon =>
           if negb (String.eqb icon "") then
             mret {| fixed := fixed p + 1; skipped := skipped p;
                     done := (done p ++ [PDict (<["icon" := PStr icon]> fields)])%list |}
           else mret {| fixed := fixed p; skipped := skipped p;
                        done := (done p ++ [PDict fields])%list |}
       | None => mret {| fixed := fixed p; skipped := skipped p;
                         done := (done p ++ [PDict fields])%list |}
       end).
Proof.
  unfold fix_action, get, py_get, mbind, mret, outcome_bind, outcome_ret, result_ret.
  destruct (is_generic_icon _) as [e|[]]; reflexivity.
Qed.

Lemma fix_action_not_dict (lookup : gmap string string) (p : Progress) (action : pyval) :
  (forall fields, action <> PDict fields) ->
  fix_action lookup p action
  = inl (Exn (AttributeError "object has no attribute 'get'")).
Proof. intros H. destruct action; try reflexivity. now destruct (H d). Qed.

(** One turn of the loop: what it does to the action and to the counters,
    and that a second turn on its result leaves that result as it is. *)
Lemma fix_action_cases (lookup : gmap string string) (p p1 : Progress) (action : pyval) :
  fix_action lookup p action = inr p1 ->
  exists action',
    done p1 = (done p ++ [action'])%list
    /\ kept_or_fixed lookup action action'
    /\ (fixed p1 = fixed p + 1 /\ skipped p1 = skipped p
        \/ fixed p1 = fixed p /\ skipped p1 = skipped p + 1 /\ action' = action
        \/ fixed p1 = fixed p /\ skipped p1 = skipped p /\ action' = action)
    /\ forall q, exists q1,
         fix_action lookup q action' = inr q1
         /\ done q1 = (done q ++ [action'])%list
         /\ fixed q <= fixed q1 <= fixed q + (fixed p1 - fixed p).
Proof.
  destruct action as [| | | | | |fields];
    try (rewrite fix_action_not_dict by discriminate; discriminate).
  rewrite fix_action_dict. unfold mbind, mret, outcome_bind, outcome_ret.
  destruct (is_generic_icon (default (PStr "") (fields !! "icon"))) as [e|generic] eqn:Eg;
    [discriminate|].
  destruct generic; simpl.
  - destruct (find_icon_for_id _ _ lookup) as [e|new_icon] eqn:Ef; [discriminate|].
    destruct new_icon as [icon|].
    + destruct (String.eqb_spec icon "") as [->|Hne]; simpl; intros [= <-]; simpl.
      * exists (PDict fields). split; [reflexivity|]. split; [now left|].
        split; [right; right; auto|]. intros q. eexists.
        rewrite fix_action_dict. unfold mbind, mret, outcome_bind, outcome_ret.
        rewrite Eg. simpl. rewrite Ef. simpl. split; [reflexivity|]. simpl. split; [reflexivity|lia].
      * exists (PDict (<["icon" := PStr icon]> fields)). split; [reflexivity|].
        split.
        { right. exists fields, icon. repeat split; try assumption.
          exact (find_icon_found _ _ _ _ Ef). }
        split; [left; auto|]. intros q.
        rewrite fix_action_dict. unfold mbind, mret, outcome_bind, outcome_ret.
        rewrite lookup_insert_eq, !lookup_insert_ne by discriminate. simpl.
        unfold is_generic_icon. simpl.
        destruct (String.eqb_spec icon "") as [->|_]; [now destruct Hne|]. simpl.
        unfold mret, outcome_ret.
        destruct (_ || _)%bool; simpl.
        -- rewrite Ef. destruct (String.eqb_spec icon "") as [->|_]; [now destruct Hne|].
           simpl. rewrite insert_insert_eq. eexists. split; [reflexivity|]. simpl.
           split; [reflexivity|lia].
        -- eexists. split; [reflexivity|]. simpl. split; [reflexivity|lia].
    + intros [= <-]. simpl. exists (PDict fields). split; [reflexivity|].
      split; [now left|]. split; [right; right; auto|]. intros q. eexists.
      rewrite fix_action_dict. unfold mbind, mret, outcome_bind, outcome_ret.
      rewrite Eg. simpl. rewrite Ef. split; [reflexivity|]. simpl. split; [reflexivity|lia].
  - intros [= <-]. simpl. exists (PDict fields). split; [reflexivity|].
    split; [now left|]. split; [right; left; auto|]. intros q. eexists.
    rewrite fix_action_dict. unfold mbind, mret, outcome_bind, outcome_ret.
    rewrite Eg. simpl. split; [reflexivity|]. simpl. split; [reflexivity|lia].
Qed.

(** The loop: the same for a list of actions. *)
Lemma fix_actions_cases (lookup : gmap string string) (actions : list pyval) :
  forall p p',
    fix_actions lookup p actions = inr p' ->
    exists actions',
      done p' = (done p ++ actions')%list
      /\ Forall2 (kept_or_fixed lookup) actions actions'
      /\ fixed p <= fixed p' /\ skipped p <= skipped p'
      /\ (fixed p' - fixed p) + (skipped p' - skipped p) <= Z.of_nat (List.length actions)
      /\ (fixed p' = fixed p -> actions' = actions)
      /\ forall q, exists q',
           fix_actions lookup q actions' = inr q'
           /\ done q' = (done q ++ actions')%list
           /\ fixed q <= fixed q' <= fixed q + (fixed p' - fixed p).
Proof.
  induction actions as [|action rest IH]; intros p p'; cbn [fix_actions].
  - intros [= <-]. exists []. rewrite (right_id_L [] (++)). simpl.
    repeat split; try lia; try constructor.
    intros q. exists q. simpl. rewrite (right_id_L [] (++)).
    repeat split; lia.
  - unfold mbind, outcome_bind.
    destruct (fix_action lookup p action) as [e|p1] eqn:E1; [discriminate|].
    intros Hrest.
    destruct (fix_action_cases lookup p p1 action E1) as (a' & Hd1 & Hk1 & Hc1 & Hq1).
    destruct (IH p1 p' Hrest) as (rest' & Hd & Hk & Hf & Hs & Hn & Hsame & Hq).
    exists (a' :: rest').
    split; [rewrite Hd, Hd1, <- (assoc_L (++)); reflexivity|].
    split; [now constructor|].
    split; [lia|]. split; [lia|].
    split; [rewrite length_cons; lia|].
    split.
    { intros Heq. assert (Hp1 : fixed p1 = fixed p) by lia.
      rewrite (Hsame ltac:(lia)). f_equal.
      destruct Hc1 as [[? _]|[(_ & _ & ?)|(_ & _ & ?)]]; [lia|assumption|assumption]. }
    intros q. destruct (Hq1 q) as (q1 & Ha & Hda & Hfa).
    destruct (Hq q1) as (q' & Hb & Hdb & Hfb).
    exists q'. simpl. unfold mbind, outcome_bind. rewrite Ha.
    split; [exact Hb|]. split; [rewrite Hdb, Hda, <- (assoc_L (++)); reflexivity|lia].
Qed.

(** Every exception of the loop is an [AttributeError]. *)
Lemma find_icon_error (action_id action_name : pyval) (lookup : gmap string string)
    (e : raised) :
  find_icon_for_id action_id action_name lookup = inl e ->
  exists msg, e = Exn (AttributeError msg).
Proof.
  unfold find_icon_for_id, mbind, mret, outcome_bind, outcome_ret.
  destruct action_id; try (intros [= <-]; eauto; fail).
  cbn [normalize_key_of]. unfold mret, outcome_ret.
  destruct (lookup !! normalize_key s); [discriminate|].
  destruct (truthy action_name).
  - destruct action_name; try (intros [= <-]; eauto; fail).
    cbn [normalize_key_of]. unfold mret, outcome_ret.
    repeat match goal with
           | |- match ?x with _ => _ end = _ -> _ => destruct x; try discriminate
           end.
  - repeat match goal with
           | |- match ?x with _ => _ end = _ -> _ => destruct x; try discriminate
           end.
Qed.

Lemma fix_action_error (lookup : gmap string string) (p : Progress) (action : pyval)
    (e : raised) :
  fix_action lookup p action = inl e -> exists msg, e = Exn (AttributeError msg).
Proof.
  destruct action as [| | | | | |fields];
    try (rewrite fix_action_not_dict by discriminate; intros [= <-]; eauto; fail).
  rewrite fix_action_dict. unfold mbind, mret, outcome_bind, outcome_ret.
  destruct (is_generic_icon _) as [e'|generic] eqn:Eg.
  - intros [= <-]. revert Eg. unfold is_generic_icon.
    destruct (negb _); [discriminate|].
    destruct (default _ _); first [discriminate | intros [= <-]; eauto].
  - destruct generic; simpl; [|discriminate].
    destruct (find_icon_for_id _ _ lookup) as [e'|new_icon] eqn:Ef.
    + intros [= <-]. exact (find_icon_error _ _ _ _ Ef).
    + destruct new_icon as [icon|]; [destruct (negb _)|]; discriminate.
Qed.

Lemma fix_actions_not_dict (lookup : gmap string string) (actions : list pyval)
    (action : pyval) :
  action ∈ actions -> (forall fields, action <> PDict fields) ->
  forall p, exists msg, fix_actions lookup p actions = inl (Exn (AttributeError msg)).
Proof.
  intros Hin Hnd. induction actions as [|a rest IH]; intros p.
  - now apply elem_of_nil in Hin.
  - simpl. unfold mbind, outcome_bind.
    destruct (fix_action lookup p a) as [e|p1] eqn:E.
    + destruct (fix_action_error _ _ _ _ E) as [msg ->]. eauto.
    + apply elem_of_cons in Hin as [<-|Hin]; [|exact (IH Hin p1)].
      rewrite fix_action_not_dict in E by exact Hnd. discriminate.
Qed.

End FixFacts.

Section DocumentFacts.
Import Icons.

Lemma truthy_list (l : list pyval) : truthy (PList l) = true <-> l <> [].
Proof. destruct l; simpl; split; congruence. Qed.

(** What a call that reaches the loop computes. *)
Lemma fix_json_file_loop {D : Documents} (file_path : string)
    (lookup : gmap string string) (fields : gmap string pyval) (actions : list pyval) :
  path_exists file_path = true -> json_load file_path = inr (PDict fields) ->
  fields !! "actions" = Some (PList actions) -> actions <> [] ->
  fix_json_file file_path lookup
  = (p ← fix_actions lookup {| fixed := 0; skipped := 0; done := [] |} actions;
     mret {| counts := (fixed p, skipped p);
             written := if 0 <? fixed p
                        then Some (PDict (<["actions" := PList (done p)]> fields))
                        else None |}).
Proof.
  intros He Hl Ha Hne. unfold fix_json_file. rewrite He, Hl. simpl.
  unfold get, py_get, mbind, mret, outcome_bind, outcome_ret, result_ret.
  rewrite Ha. simpl default.
  rewrite (proj2 (truthy_list actions) Hne). reflexivity.
Qed.

(** A call that writes a document has reached the loop. *)
Lemma fix_json_file_written {D : Documents} (file_path : string)
    (lookup : gmap string string) (r : Fixed) :
  fix_json_file file_path lookup = inr r ->
  counts r = (0, 0) /\ written r = None
  \/ exists fields actions,
       path_exists file_path = true /\ json_load file_path = inr (PDict fields)
       /\ fields !! "actions" = Some (PList actions) /\ actions <> [].
Proof.
  unfold fix_json_file.
  destruct (path_exists file_path); simpl; [|intros [= <-]; now left].
  unfold mbind, mret, outcome_bind, outcome_ret.
  destruct (json_load file_path) as [e|data]; [discriminate|].
  destruct data as [| | | | | |fields]; try discriminate.
  unfold get, py_get, mret, result_ret.
  destruct (fields !! "actions") as [actions|] eqn:Ea; simpl default;
    [|intros [= <-]; now left].
  destruct (truthy actions) eqn:Et; simpl; [|intros [= <-]; now left].
  destruct actions as [| | | | |l|d]; simpl iterate; unfold mret, outcome_ret;
    try discriminate.
  - destruct s as [|c s]; [discriminate Et|].
    cbn [list_ascii_of_string fmap list_fmap fix_actions]. unfold mbind, outcome_bind.
    rewrite fix_action_not_dict by discriminate. discriminate.
  - intros _. right. exists fields, l. repeat split; try assumption.
    now apply truthy_list.
  - simpl in Et. destruct (map_to_list d) as [|kv rest]; [discriminate Et|].
    cbn [fmap list_fmap fix_actions]. unfold mbind, outcome_bind.
    rewrite fix_action_not_dict by discriminate. discriminate.
Qed.

End DocumentFacts.

Section DemoRun.
Import Icons.

Lemma demo_first_run :
  @fix_json_file (IconsDemo.documents IconsDemo.document) "common_actions.json"
    IconsDemo.lookup
  = inr {| counts := (1, 1); written := Some IconsDemo.fixed_document |}.
Proof. vm_compute. reflexivity. Qed.

End DemoRun.

(** X18: what a call of [fix_json_file] that returns has done.  The two
    counts are not negative, and a document is written exactly when at least
    one icon was fixed.  The written document is the one read with only its
    [actions] changed: the list has the same length, every action is either
    as it was or a dict whose placeholder icon was replaced by a non-empty
    icon of the table, and the two counts together do not exceed the number
    of actions. *)
Theorem fix_json_file_outcome {D : Icons.Documents} (file_path : string)
    (lookup : gmap string string) (r : Icons.Fixed) :
  Icons.fix_json_file file_path lookup = inr r ->
  0 <= (Icons.counts r).1 /\ 0 <= (Icons.counts r).2
  /\ (Icons.written r = None <-> (Icons.counts r).1 = 0)
  /\ forall doc, Icons.written r = Some doc ->
       exists fields actions actions',
         Icons.path_exists file_path = true
         /\ Icons.json_load file_path = inr (PDict fields)
         /\ fields !! "actions" = Some (PList actions)
         /\ doc = PDict (<["actions" := PList actions']> fields)
         /\ Forall2 (Icons.kept_or_fixed lookup) actions actions'
         /\ (Icons.counts r).1 + (Icons.counts r).2 <= Z.of_nat (List.length actions).
Proof.
  intros H.
  destruct (fix_json_file_written file_path lookup r H)
    as [[Hc Hw]|(fields & actions & He & Hl & Ha & Hne)].
  - rewrite Hc, Hw. simpl. repeat split; try lia; try reflexivity. discriminate.
  - rewrite (fix_json_file_loop file_path lookup fields actions He Hl Ha Hne) in H.
    unfold mbind, mret, Icons.outcome_bind, Icons.outcome_ret in H.
    destruct (Icons.fix_actions lookup _ actions) as [e|p] eqn:Ep; [discriminate|].
    injection H as <-.
    destruct (fix_actions_cases lookup actions _ p Ep)
      as (actions' & Hd & Hk & Hf & Hs & Hn & _ & _).
    simpl in *. split; [exact Hf|]. split; [exact Hs|].
    destruct (Z.ltb_spec 0 (Icons.fixed p)) as [Hpos|Hzero].
    + split; [split; [discriminate|lia]|].
      intros doc [= <-]. exists fields, actions, actions'. rewrite Hd.
      repeat split; try assumption. lia.
    + split; [split; [lia|reflexivity]|]. discriminate.
Qed.

Lemma fix_json_file_outcome_witness :
  let D := IconsDemo.documents IconsDemo.document in
  let r := {| Icons.counts := (1, 1); Icons.written := Some IconsDemo.fixed_document |} in
  @Icons.fix_json_file D "common_actions.json" IconsDemo.lookup = inr r
  /\ (Icons.written r = None <-> (Icons.counts r).1 = 0)
  /\ exists fields actions actions',
       @Icons.path_exists D "common_actions.json" = true
       /\ @Icons.json_load D "common_actions.json" = inr (PDict fields)
       /\ fields !! "actions" = Some (PList actions)
       /\ IconsDemo.fixed_document = PDict (<["actions" := PList actions']> fields)
       /\ Forall2 (Icons.kept_or_fixed IconsDemo.lookup) actions actions'
       /\ (Icons.counts r).1 + (Icons.counts r).2 <= Z.of_nat (List.length actions).
Proof.
  intros D r.
  destruct (@fix_json_file_outcome D "common_actions.json" IconsDemo.lookup r
              demo_first_run) as (_ & _ & H3 & H4).
  split; [exact demo_first_run|]. split; [exact H3|]. exact (H4 _ eq_refl).
Defined.

(** X19: fixing is stable.  When a call has written a document, a second
    call with the same table on the written document returns without an
    exception and either writes nothing or writes that same document again;
    it fixes at most as many icons as the first call. *)
Theorem second_run_changes_nothing {D D' : Icons.Documents} (file_path : string)
    (lookup : gmap string string) (r : Icons.Fixed) (doc : pyval) :
  @Icons.fix_json_file D file_path lookup = inr r ->
  Icons.written r = Some doc ->
  @Icons.path_exists D' file_path = true ->
  @Icons.json_load D' file_path = inr doc ->
  exists r',
    @Icons.fix_json_file D' file_path lookup = inr r'
    /\ (Icons.written r' = None \/ Icons.written r' = Some doc)
    /\ 0 <= (Icons.counts r').1 <= (Icons.counts r).1.
Proof.
  intros H Hw He' Hl'.
  destruct (fix_json_file_written file_path lookup r H)
    as [[_ Hn]|(fields & actions & He & Hl & Ha & Hne)]; [congruence|].
  rewrite (fix_json_file_loop file_path lookup fields actions He Hl Ha Hne) in H.
  unfold mbind, mret, Icons.outcome_bind, Icons.outcome_ret in H.
  destruct (Icons.fix_actions lookup _ actions) as [e|p] eqn:Ep; [discriminate|].
  injection H as <-. simpl in Hw.
  destruct (0 <? Icons.fixed p); [|discriminate]. injection Hw as <-.
  destruct (fix_actions_cases lookup actions _ p Ep)
    as (actions' & Hd & Hk & _ & _ & _ & _ & Hq).
  simpl in Hd. subst.
  destruct (Hq {| Icons.fixed := 0; Icons.skipped := 0; Icons.done := [] |})
    as (q' & Hrun & Hdq & Hfq).
  simpl in Hdq, Hfq.
  assert (Hne' : Icons.done p <> []).
  { apply Forall2_length in Hk. destruct (Icons.done p); [|discriminate].
    destruct actions; [now destruct Hne|discriminate]. }
  rewrite (fix_json_file_loop file_path lookup
             (<["actions" := PList (Icons.done p)]> fields) (Icons.done p) He' Hl'
             (lookup_insert_eq _ _ _) Hne').
  unfold mbind, mret, Icons.outcome_bind, Icons.outcome_ret. rewrite Hrun.
  eexists. split; [reflexivity|]. simpl. rewrite Hdq, insert_insert_eq.
  split; [destruct (0 <? Icons.fixed q'); auto|lia].
Qed.

Lemma second_run_changes_nothing_witness :
  exists r',
    @Icons.fix_json_file (IconsDemo.documents IconsDemo.fixed_document)
      "common_actions.json" IconsDemo.lookup = inr r'
    /\ (Icons.written r' = None \/ Icons.written r' = Some IconsDemo.fixed_document)
    /\ 0 <= (Icons.counts r').1 <= 1.
Proof.
  exact (@second_run_changes_nothing
           (IconsDemo.documents IconsDemo.document)
           (IconsDemo.documents IconsDemo.fixed_document)
           "common_actions.json" IconsDemo.lookup _ IconsDemo.fixed_document
           demo_first_run eq_refl eq_refl eq_refl).
Defined.

(** X20: an action that is not an object fails the whole call.  If the
    list of actions holds anything but dicts, the call raises an
    [AttributeError], whether it comes from that action or from one before
    it, and no document is written, whatever was fixed before. *)
Theorem action_that_is_no_object_fails {D : Icons.Documents} (file_path : string)
    (lookup : gmap string string) (fields : gmap string pyval)
    (actions : list pyval) (action : pyval) :
  Icons.path_exists file_path = true ->
  Icons.json_load file_path = inr (PDict fields) ->
  fields !! "actions" = Some (PList actions) ->
  action ∈ actions -> (forall f, action <> PDict f) ->
  exists msg, Icons.fix_json_file file_path lookup = inl (Icons.Exn (AttributeError msg)).
Proof.
  intros He Hl Ha Hin Hnd.
  assert (Hne : actions <> []) by (intros ->; now apply elem_of_nil in Hin).
  rewrite (fix_json_file_loop file_path lookup fields actions He Hl Ha Hne).
  destruct (fix_actions_not_dict lookup actions action Hin Hnd
              {| Icons.fixed := 0; Icons.skipped := 0; Icons.done := [] |}) as [msg Hmsg].
  exists msg. unfold mbind, Icons.outcome_bind. now rewrite Hmsg.
Qed.

Lemma action_that_is_no_object_fails_witness :
  exists msg,
    @Icons.fix_json_file
      (IconsDemo.documents
         (PDict (<["actions" := PList [PDict IconsDemo.fire_bolt_fields; PStr "dash"]]> ∅)))
      "common_actions.json" IconsDemo.lookup
    = inl (Icons.Exn (AttributeError msg)).
Proof.
  apply (@action_that_is_no_object_fails
           (IconsDemo.documents
              (PDict (<["actions" := PList [PDict IconsDemo.fire_bolt_fields; PStr "dash"]]> ∅)))
           "common_actions.json" IconsDemo.lookup
           (<["actions" := PList [PDict IconsDemo.fire_bolt_fields; PStr "dash"]]> ∅)
           [PDict IconsDemo.fire_bolt_fields; PStr "dash"] (PStr "dash")).
  - reflexivity.
  - reflexivity.
  - apply lookup_insert_eq.
  - right. left.
  - discriminate.
Defined.

(** * The launcher

    Properties of [.mcp/vision-bridge/launcher.py]. *)

Section LauncherFacts.
Import Launcher.
Context {H : Host}.

(** What a probe does: nothing for a path that does not exist, otherwise
    one command, whose return code decides. *)
Lemma has_required_packages_run (python_exe : string) (log : list command) :
  _has_required_packages python_exe log
  = if path_exists log python_exe
    then (match spawn log (probe python_exe) with
          | inl e => inl (Exn e)
          | inr returncode => inr (returncode =? 0)
          end, (log ++ [probe python_exe])%list)
    else (inr false, log).
Proof.
  unfold _has_required_packages, exists_, subprocess_call, mbind, mret, L_bind, L_ret, probe.
  destruct (path_exists log python_exe); simpl; [|reflexivity].
  now destruct (spawn log _).
Qed.

Lemma check_call_run (cmd : command) (log : list command) :
  subprocess_check_call cmd log
  = (match spawn log cmd with
     | inl e => inl (Exn e)
     | inr returncode =>
         if returncode =? 0 then inr tt else inl (CalledProcessError returncode cmd)
     end, (log ++ [cmd])%list).
Proof.
  unfold subprocess_check_call, subprocess_call, mbind, mret, L_bind, L_ret.
  destruct (spawn log cmd) as [e|returncode]; [reflexivity|].
  now destruct (returncode =? 0).
Qed.

Lemma select_runtime_search :
  _select_runtime
  = first_qualified [venv_python; alt_venv_python; current_python] ensure_alt_venv.
Proof.
  unfold _select_runtime, ensure_alt_venv, venv_python, alt_venv_python.
  now destruct _is_windows.
Qed.

Ltac setup_list := repeat (apply Forall_cons_2; [assumption|]); apply Forall_nil_2.

Ltac finish added :=
  exists added; cbn [fst snd]; rewrite <- ?(assoc_L (++)); split; [reflexivity|];
  split; [setup_list|first [discriminate | now intros ? [= <-]]].

Lemma probe_is_setup (python_exe : string) : is_setup (probe python_exe).
Proof. left. now exists python_exe. Qed.

(** Setting up the alternative environment: at most three commands, and
    the runtime returned is the one of that environment. *)
Lemma ensure_alt_venv_run (log : list command) :
  exists added,
    (ensure_alt_venv log).2 = (log ++ added)%list
    /\ Forall is_setup added
    /\ forall runtime, (ensure_alt_venv log).1 = inr runtime -> runtime = alt_venv_python.
Proof.
  assert (Hgen :
    let m : L string :=
      (there ← exists_ alt_venv_python;
       (if negb there then subprocess_check_call create_venv else mret tt);;
       ready ← _has_required_packages alt_venv_python;
       (if negb ready then subprocess_check_call install_requirements else mret tt);;
       mret alt_venv_python) in
    exists added, (m log).2 = (log ++ added)%list /\ Forall is_setup added
                  /\ forall runtime, (m log).1 = inr runtime -> runtime = alt_venv_python).
  { intros m. subst m.
    unfold mbind, mret, L_bind, L_ret, exists_.
    assert (Hc : is_setup create_venv) by (right; now left).
    assert (Hi : is_setup install_requirements) by (right; now right).
    assert (Hp := probe_is_setup alt_venv_python).
    destruct (path_exists log alt_venv_python) eqn:E0; cbn [negb].
    - rewrite has_required_packages_run, E0.
      destruct (spawn log (probe alt_venv_python)) as [e|rc];
        [finish [probe alt_venv_python]|].
      destruct (rc =? 0); cbn [negb]; [finish [probe alt_venv_python]|].
      rewrite check_call_run.
      destruct (spawn _ install_requirements) as [e|rc']; [|destruct (rc' =? 0)];
        finish [probe alt_venv_python; install_requirements].
    - rewrite check_call_run.
      destruct (spawn log create_venv) as [e|rc0]; [finish [create_venv]|].
      destruct (rc0 =? 0); [|finish [create_venv]].
      rewrite has_required_packages_run.
      destruct (path_exists (log ++ [create_venv]) alt_venv_python).
      + destruct (spawn (log ++ [create_venv]) (probe alt_venv_python)) as [e|rc];
          [finish [create_venv; probe alt_venv_python]|].
        destruct (rc =? 0); cbn [negb]; [finish [create_venv; probe alt_venv_python]|].
        rewrite check_call_run.
        destruct (spawn _ install_requirements) as [e|rc']; [|destruct (rc' =? 0)];
          finish [create_venv; probe alt_venv_python; install_requirements].
      + cbn [negb]. rewrite check_call_run.
        destruct (spawn _ install_requirements) as [e|rc']; [|destruct (rc' =? 0)];
          finish [create_venv; install_requirements]. }
  revert Hgen.
  unfold ensure_alt_venv, _ensure_windows_venv, _ensure_posix_venv.
  unfold create_venv, install_requirements, alt_venv_python, alt_venv_dir.
  unfold WINDOWS_ALT_VENV_PYTHON, POSIX_ALT_VENV_PYTHON.
  destruct _is_windows; intros Hgen; exact Hgen.
Qed.

(** The search: only set-up commands are run, and a candidate is returned
    right after its own probe has succeeded, when nothing but probes have
    been run. *)
Lemma first_qualified_run (candidates : list string) :
  forall log, exists added,
    (first_qualified candidates ensure_alt_venv log).2 = (log ++ added)%list
    /\ Forall is_setup added
    /\ forall runtime,
         (first_qualified candidates ensure_alt_venv log).1 = inr runtime ->
         runtime = alt_venv_python
         \/ runtime ∈ candidates /\ Forall is_probe added
            /\ exists before,
                 added = (before ++ [probe runtime])%list
                 /\ path_exists (log ++ before) runtime = true
                 /\ spawn (log ++ before) (probe runtime) = inr 0.
Proof.
  induction candidates as [|c rest IH]; intros log; cbn [first_qualified].
  - destruct (ensure_alt_venv_run log) as (added & Hl & Hs & Hr).
    exists added. split; [exact Hl|]. split; [exact Hs|].
    intros runtime Hrt. left. exact (Hr runtime Hrt).
  - unfold mbind, mret, L_bind, L_ret. rewrite has_required_packages_run.
    destruct (path_exists log c) eqn:Ec.
    + destruct (spawn log (probe c)) as [e|rc] eqn:Es.
      * exists [probe c]. split; [reflexivity|].
        split; [apply Forall_cons_2; [apply probe_is_setup|apply Forall_nil_2]|]. discriminate.
      * destruct (Z.eqb_spec rc 0) as [->|Hrc].
        -- exists [probe c]. split; [reflexivity|].
           split; [apply Forall_cons_2; [apply probe_is_setup|apply Forall_nil_2]|].
           intros runtime [= <-]. right. split; [left|].
           split; [apply Forall_cons_2; [now exists c|apply Forall_nil_2]|].
           exists []. rewrite (right_id_L [] (++)). now repeat split.
        -- destruct (IH (log ++ [probe c])%list) as (added & Hl & Hs & Hr).
           exists (probe c :: added). rewrite Hl, <- (assoc_L (++)).
           split; [reflexivity|].
           split; [apply Forall_cons_2; [apply probe_is_setup|exact Hs]|].
           intros runtime Hrt.
           destruct (Hr runtime Hrt) as [Ha|(Hin & Hp & before & -> & He & Hsp)];
             [now left|right].
           split; [now right|]. split; [apply Forall_cons_2; [now exists c|exact Hp]|].
           exists (probe c :: before). rewrite <- (assoc_L (++)) in He, Hsp.
           now repeat split.
    + destruct (IH log) as (added & Hl & Hs & Hr).
      exists added. split; [exact Hl|]. split; [exact Hs|].
      intros runtime Hrt.
      destruct (Hr runtime Hrt) as [Ha|(Hin & Hp & Hb)]; [now left|right].
      split; [now right|]. now split.
Qed.

End LauncherFacts.


(** X22: a runtime that is returned is either the python of the
    alternative environment, or the primary environment's python or the
    current interpreter; in the latter case nothing but probes have been
    run, and the last of them is the probe of the runtime returned, which
    existed and whose probe ended with return code 0. *)
Theorem selected_runtime_is_probed_or_alternative {H : Launcher.Host}
    (log log' : list Launcher.command) (runtime : string) :
  Launcher._select_runtime log = (inr runtime, log') ->
  exists added,
    log' = (log ++ added)%list
    /\ (runtime = Launcher.alt_venv_python
        \/ runtime ∈ [Launcher.venv_python; Launcher.current_python]
           /\ Forall Launcher.is_probe added
           /\ exists before,
                added = (before ++ [Launcher.probe runtime])%list
                /\ Launcher.path_exists (log ++ before) runtime = true
                /\ Launcher.spawn (log ++ before) (Launcher.probe runtime) = inr 0).
Proof.
  rewrite select_runtime_search. intros Hrun.
  destruct (first_qualified_run [Launcher.venv_python; Launcher.alt_venv_python;
                                 Launcher.current_python] log)
    as (added & Hl & _ & Hr).
  rewrite Hrun in Hl, Hr. simpl in Hl, Hr.
  exists added. split; [exact Hl|].
  destruct (Hr runtime eq_refl) as [Ha|(Hin & Hp & Hb)]; [now left|].
  apply elem_of_cons in Hin as [->|Hin]; [right; split; [left|now split]|].
  apply elem_of_cons in Hin as [->|Hin]; [now left|].
  right. split; [now right|now split].
Qed.

Lemma selected_runtime_is_probed_or_alternative_witness :
  let H := Launcher.Machine.host 0 in
  exists added,
    [Launcher.probe "/usr/bin/python3"] = ([] ++ added)%list
    /\ ("/usr/bin/python3" = @Launcher.alt_venv_python H
        \/ "/usr/bin/python3" ∈ [@Launcher.venv_python H; @Launcher.current_python H]
           /\ Forall Launcher.is_probe added
           /\ exists before,
                added = (before ++ [Launcher.probe "/usr/bin/python3"])%list
                /\ @Launcher.path_exists H ([] ++ before) "/usr/bin/python3" = true
                /\ @Launcher.spawn H ([] ++ before) (Launcher.probe "/usr/bin/python3")
                   = inr 0).
Proof.
  intros H.
  apply (@selected_runtime_is_probed_or_alternative H [] _ "/usr/bin/python3").
  vm_compute. reflexivity.
Defined.


